(** * Shopify store insights: the extraction pipeline, embedded in Rocq

    A shallow embedding of [utils/helpers.py], [models.py],
    [services/content_extractor.py] and [services/shopify_scraper.py].

    Conventions of the embedding.
    - Python [str] values are Rocq strings of 8-bit characters, read as the
      code points U+0000..U+00FF; the character classes ([str.isspace],
      the regex classes [\s] and [\w], [str.lower]) are Python's on that
      range.
    - Library calls the repository relies on but does not define are inputs
      of the model: the network ([requests]), [urllib.parse], the HTML
      queries of BeautifulSoup and the result order of [list(set(..))]
      (record [Env], record [Page]).
    - Effects are explicit: a computation takes the log of requests made
      so far and the [BrandInsights] object under construction, and returns
      either a value or a raised exception together with the new state. *)

From Stdlib Require Import Ascii String.
From stdpp Require Import base option list gmap strings pretty.

Local Open Scope nat_scope.

(** ** Python strings *)

Module PyStr.

Definition code (c : ascii) : N := N_of_ascii c.

Definition between (lo hi : N) (c : ascii) : bool :=
  (N.leb lo (code c)) && (N.leb (code c) hi).

(** [str.isspace] on one character; also the regex class [\s]. *)
Definition is_space (c : ascii) : bool :=
  between 9 13 c || between 28 32 c || N.eqb (code c) 133 || N.eqb (code c) 160.

Definition is_digit (c : ascii) : bool := between 48 57 c.
Definition is_upper_az (c : ascii) : bool := between 65 90 c.
Definition is_lower_az (c : ascii) : bool := between 97 122 c.

(** The regex class [\w] of a [str] pattern: alphanumerics and underscore. *)
Definition is_word (c : ascii) : bool :=
  is_digit c || is_upper_az c || is_lower_az c || N.eqb (code c) 95
  || N.eqb (code c) 170 || between 178 179 c || N.eqb (code c) 181
  || between 185 186 c || between 188 190 c
  || between 192 214 c || between 216 246 c || between 248 255 c.

(** [str.lower] on one character. *)
Definition lower_char (c : ascii) : ascii :=
  if is_upper_az c || between 192 214 c || between 216 222 c
  then ascii_of_N (code c + 32) else c.

Definition chars (s : string) : list ascii := list_ascii_of_string s.
Definition str (l : list ascii) : string := string_of_list_ascii l.

Definition lower (s : string) : string := str (map lower_char (chars s)).

(** [pre] is a prefix of [s]: [s.startswith(pre)]. *)
Fixpoint starts_with (pre s : list ascii) : bool :=
  match pre, s with
  | [], _ => true
  | _ :: _, [] => false
  | a :: pre', b :: s' => bool_decide (a = b) && starts_with pre' s'
  end.

Definition startswith (s pre : string) : bool := starts_with (chars pre) (chars s).

Definition endswith (s suf : string) : bool :=
  starts_with (reverse (chars suf)) (reverse (chars s)).

(** [sub in s]. *)
Fixpoint contains (sub s : list ascii) : bool :=
  starts_with sub s ||
  match s with
  | [] => false
  | _ :: s' => contains sub s'
  end.

Definition py_in (sub s : string) : bool := contains (chars sub) (chars s).

(** [str.split()] with no argument: the maximal runs of non-space
    characters, in order.  Read from the right: a non-space character
    either extends the word that starts right after it or opens a new one. *)
Fixpoint split_ws (s : list ascii) : list (list ascii) :=
  match s with
  | [] => []
  | c :: t =>
      if is_space c then split_ws t
      else match t with
           | d :: _ =>
               if is_space d then [c] :: split_ws t
               else match split_ws t with
                    | w :: ws => (c :: w) :: ws
                    | [] => [[c]]
                    end
           | [] => [[c]]
           end
  end.

(** [sep.join(parts)]. *)
Fixpoint join (sep : list ascii) (parts : list (list ascii)) : list ascii :=
  match parts with
  | [] => []
  | [w] => w
  | w :: ws => w ++ sep ++ join sep ws
  end.

Fixpoint drop_while (p : ascii -> bool) (s : list ascii) : list ascii :=
  match s with
  | c :: t => if p c then drop_while p t else s
  | [] => []
  end.

Fixpoint take_while (p : ascii -> bool) (s : list ascii) : list ascii :=
  match s with
  | c :: t => if p c then c :: take_while p t else []
  | [] => []
  end.

Definition lstrip (s : list ascii) : list ascii := drop_while is_space s.
Definition rstrip (s : list ascii) : list ascii := reverse (drop_while is_space (reverse s)).
Definition strip_chars (s : list ascii) : list ascii := rstrip (lstrip s).

Definition strip (s : string) : string := str (strip_chars (chars s)).

(** [s[:n]] and [s[:-n]] for [0 < n]. *)
Definition slice_to (n : nat) (s : string) : string := str (take n (chars s)).
Definition drop_last (n : nat) (s : string) : string :=
  str (take (length (chars s) - n) (chars s)).

(** [s.split(sep)[0]]: the text before the first occurrence of [sep]
    (all of [s] when [sep] does not occur). *)
Fixpoint before_first (sep s : list ascii) : list ascii :=
  match s with
  | [] => []
  | c :: t => if starts_with sep s then [] else c :: before_first sep t
  end.

Definition split_first (s sep : string) : string := str (before_first (chars sep) (chars s)).

(** [s.split(sep, 1)[1]] when [sep] occurs in [s]: the text after its
    first occurrence. *)
Fixpoint after_first (sep s : list ascii) : list ascii :=
  match s with
  | [] => []
  | _ :: t => if starts_with sep s then drop (length sep) s else after_first sep t
  end.

(** [re.sub(r'\s+', ' ', s)]: every maximal run of space characters
    becomes one blank, written when the run ends. *)
Fixpoint collapse_ws (s : list ascii) : list ascii :=
  match s with
  | [] => []
  | c :: t =>
      if is_space c then
        match t with
        | d :: _ => if is_space d then collapse_ws t else " "%char :: collapse_ws t
        | [] => [" "%char]
        end
      else c :: collapse_ws t
  end.

Definition nonempty (s : string) : bool := negb (bool_decide (s = EmptyString)).

Definition len (s : string) : nat := length (chars s).

(** [s.capitalize()]: first character upper-cased, the rest lower-cased.
    (Python sends a leading U+00B5, U+00DF or U+00FF outside the range
    modelled here; such a character is left as it is.) *)
Definition upper_char (c : ascii) : ascii :=
  if is_lower_az c || between 224 246 c || between 248 254 c
  then ascii_of_N (code c - 32) else c.

Definition capitalize (s : string) : string :=
  match chars s with
  | [] => EmptyString
  | c :: t => str (upper_char c :: map lower_char t)
  end.

(** [s.replace(old, '')] for a non-empty [old]: leftmost occurrences are
    dropped, scanning on after each one. *)
Fixpoint remove_all_aux (old : list ascii) (skip : nat) (s : list ascii) : list ascii :=
  match s with
  | [] => []
  | c :: t =>
      match skip with
      | S k => remove_all_aux old k t
      | O => if starts_with old s then remove_all_aux old (length old - 1) t
             else c :: remove_all_aux old O t
      end
  end.

Definition remove_all (s old : string) : string := str (remove_all_aux (chars old) 0 (chars s)).

End PyStr.

(** ** utils/helpers.py *)

Module Helpers.
Import PyStr.

(** The class [[a-zA-Z0-9#]] of the entity pattern. *)
Definition is_entity_char (c : ascii) : bool :=
  is_lower_az c || is_upper_az c || is_digit c || bool_decide (c = "#"%char).

(** Length of the run of entity characters at the head of [s], and what
    follows it. *)
Fixpoint entity_run (s : list ascii) : nat * list ascii :=
  match s with
  | c :: t => if is_entity_char c then let '(n, r) := entity_run t in (S n, r) else (0, s)
  | [] => (0, [])
  end.

(** A match of [&[a-zA-Z0-9#]+;] anchored at the head of [s]: its length.
    The class excludes [;], so the greedy run is the only candidate. *)
Definition entity_at (s : list ascii) : option nat :=
  match s with
  | c :: t =>
      if bool_decide (c = "&"%char) then
        match entity_run t with
        | (S n, d :: _) => if bool_decide (d = ";"%char) then Some (S n + 2) else None
        | _ => None
        end
      else None
  | [] => None
  end.

(** [re.sub(r'&[a-zA-Z0-9#]+;', '', text)]: at each position, a match
    starting there is skipped whole, otherwise the character is kept.
    [skip] counts the characters of the current match still to drop. *)
Fixpoint remove_entities_from (skip : nat) (s : list ascii) : list ascii :=
  match s with
  | [] => []
  | c :: t =>
      match skip with
      | S k => remove_entities_from k t
      | O => match entity_at s with
             | Some n => remove_entities_from (n - 1) t
             | None => c :: remove_entities_from O t
             end
      end
  end.

Definition remove_entities (s : list ascii) : list ascii := remove_entities_from 0 s.

(** The punctuation the second pattern of [clean_text] keeps; the last one
    is the double quote. *)
Definition kept_punctuation : list ascii :=
  chars ".,?!-:;()[]'/@#$%&*+=" ++ [ascii_of_N 34].

(** A character the second pattern of [clean_text] does not match: a word
    character, a space character or one of the listed punctuation signs. *)
Definition is_kept (c : ascii) : bool :=
  is_word c || is_space c || bool_decide (c ∈ kept_punctuation).

Definition remove_special (s : list ascii) : list ascii := filter (fun c => is_kept c = true) s.

(** [' '.join(text.split())]. *)
Definition normalize_ws (s : list ascii) : list ascii := join [" "%char] (split_ws s).

Definition clean_chars (s : list ascii) : list ascii :=
  strip_chars (remove_special (remove_entities (normalize_ws s))).

Definition clean_text (text : string) : string :=
  if bool_decide (text = EmptyString) then EmptyString else str (clean_chars (chars text)).

End Helpers.

(** ** models.py *)

Module Models.

(** A decoded JSON value, as [response.json()] hands it to the code:
    [None], [bool], [int], [str], [list], [dict] (members in document
    order; the decoder keeps the last binding of a repeated key). *)
Unset Elimination Schemes.
Inductive json : Type :=
  | JNull
  | JBool (b : bool)
  | JNum (n : Z)
  | JStr (s : string)
  | JArr (items : list json)
  | JObj (members : list (string * json)).
Set Elimination Schemes.

(** [Product].  The fields the catalog parser copies from the feed hold
    whatever value the feed has there, so they are typed [json]; [JNull]
    is Python's [None]. *)
Record Product := {
  p_id : option string;
  p_title : option string;
  p_handle : json;
  p_description : option string;
  p_vendor : json;
  p_product_type : json;
  p_price : json;
  p_compare_at_price : json;
  p_available : json;
  p_tags : json;
  p_images : list json;
  p_url : option string
}.

Record FAQ := {
  question : string;
  answer : string;
  category : option string
}.

Record SocialHandle := {
  platform : string;
  url : string;
  handle : option string
}.

Record ContactInfo := {
  emails : list string;
  phone_numbers : list string;
  address : option string
}.

(** [BrandInsights]; [scraped_at] (the wall clock at construction) is left
    out. *)
Record BrandInsights := {
  website_url : string;
  brand_name : option string;
  brand_description : option string;
  product_catalog : list Product;
  hero_products : list Product;
  privacy_policy_url : option string;
  privacy_policy_content : option string;
  return_refund_policy_url : option string;
  return_refund_policy_content : option string;
  faqs : list FAQ;
  social_handles : list SocialHandle;
  contact_info : option ContactInfo;
  important_links : gmap string string
}.

(** [BrandInsights(website_url=u)] after [__post_init__]. *)
Definition new_insights (u : string) : BrandInsights := {|
  website_url := u;
  brand_name := None;
  brand_description := None;
  product_catalog := [];
  hero_products := [];
  privacy_policy_url := None;
  privacy_policy_content := None;
  return_refund_policy_url := None;
  return_refund_policy_content := None;
  faqs := [];
  social_handles := [];
  contact_info := None;
  important_links := ∅
|}.

End Models.

(** ** The outside world: network, parsed pages, library calls *)

Module Web.
Import Models.

Inductive exn : Type :=
  | ValueError
  | TypeError
  | AttributeError
  | KeyError
  | IndexError
  | RequestException
  | NotAccessible.   (* Exception('Website not accessible or not found') *)

Record Anchor := {
  a_href : string;   (* link.get('href') *)
  a_text : string    (* link.text *)
}.

(** What the code reads off a parsed document: each field is the result of
    one BeautifulSoup query (or [re.findall] over the page text) that the
    source makes, in document order. *)
Record Page := {
  (* soup.find_all('a', href=True) *)
  anchors : list Anchor;
  (* content of soup.find('meta', property og:site_name); the empty string
     when the tag has no content attribute, None when there is no tag *)
  og_site_name : option string;
  (* the same for meta name=application-name and meta name=description *)
  application_name : option string;
  meta_description : option string;
  (* soup.find('title').text *)
  title : option string;
  (* soup.find('h1').text *)
  h1 : option string;
  (* text of soup.find(['span', 'div'], class_=has_price_class) *)
  price_elem : option string;
  (* src of every soup.find_all('img', src=True) *)
  img_srcs : list string;
  (* soup.get_text() *)
  page_text : string;
  (* per element of soup.find_all(['div', 'section'], class_=has_faq_class):
     get_text() of its question element and of its answer element *)
  accordion_items : list (option string * option string);
  (* per dt: its get_text() and that of dt.find_next_sibling('dd') *)
  dt_elements : list (string * option string);
  (* per h3/h4/h5: its get_text() and that of find_next_sibling(['p', 'div']) *)
  headers : list (string * option string);
  (* re.findall over page_text for each of the three qa_patterns *)
  qa_matches : list (list (string * string));
  (* get_text() of the li/div elements whose class mentions faq, question, help *)
  faq_list_items : list string;
  (* re.findall of the email and of the phone pattern over page_text *)
  email_matches : list string;
  phone_matches : list string
}.

Record Response := {
  status_code : Z;
  soup : Page;                 (* BeautifulSoup(response.content, 'html.parser') *)
  json_body : option json      (* response.json(); None when it raises *)
}.

Inductive outcome : Type :=
  | Raises (e : exn)
  | Responds (r : Response).

(** The environment of a scrape.  [net u k] is what a GET of [u] yields
    when it is the [k]-th request of the run. *)
Record Env := {
  net : string → nat → outcome;
  urljoin : string → string → exn + string;   (* urllib.parse.urljoin *)
  netloc : string → string;                   (* urlparse(u).netloc *)
  repr_of : json → string;                    (* str(v) for a v that is not a str *)
  set_order : list string → list string       (* list(set(l)) *)
}.

Record State := {
  requests : list string;      (* URLs requested so far, oldest first *)
  insights : BrandInsights     (* the object under construction *)
}.

(** Computations that may raise and that read and write the state. *)
Definition M (A : Type) : Type := State → (exn + A) * State.

Definition ret {A} (a : A) : M A := λ st, (inr a, st).

Definition bind {A B} (m : M A) (f : A → M B) : M B := λ st,
  match m st with
  | (inr a, st') => f a st'
  | (inl e, st') => (inl e, st')
  end.

Declare Scope M_scope.
Delimit Scope M_scope with M.
Bind Scope M_scope with M.

Notation "x ← y ; z" := (bind y (λ x : _, z))
  (at level 20, y at level 100, z at level 200, only parsing) : M_scope.
Notation "' x ← y ; z" := (bind y (λ x : _, z))
  (at level 20, x pattern, y at level 100, z at level 200, only parsing) : M_scope.
Notation "x ;; z" := (bind x (λ _, z))
  (at level 100, z at level 200, only parsing, right associativity) : M_scope.

Local Open Scope M_scope.

Definition raise {A} (e : exn) : M A := λ st, (inl e, st).

(** [try: body except Exception as e: handler(e)]. *)
Definition try_except {A} (body : M A) (handler : exn → M A) : M A := λ st,
  match body st with
  | (inr a, st') => (inr a, st')
  | (inl e, st') => handler e st'
  end.

(** A pure computation that may raise. *)
Definition lift {A} (r : exn + A) : M A := λ st, (r, st).

Definition get_insights : M BrandInsights := λ st, (inr (insights st), st).

Definition modify_insights (f : BrandInsights → BrandInsights) : M unit := λ st,
  (inr tt, {| requests := requests st; insights := f (insights st) |}).

(** [self.session.get(url, timeout=self.timeout)]. *)
Definition session_get (env : Env) (u : string) : M Response := λ st,
  let st' := {| requests := requests st ++ [u]; insights := insights st |} in
  match net env u (length (requests st)) with
  | Raises e => (inl e, st')
  | Responds r => (inr r, st')
  end.

(** A [for] loop without [break]. *)
Fixpoint for_each {A} (l : list A) (body : A → M unit) : M unit :=
  match l with
  | [] => ret tt
  | x :: l' => body x;; for_each l' body
  end.

(** [str(v)]. *)
Definition py_str (env : Env) (v : json) : string :=
  match v with
  | JStr s => s
  | _ => repr_of env v
  end.

(** Truth value of a Python object. *)
Definition truthy (v : json) : bool :=
  match v with
  | JNull => false
  | JBool b => b
  | JNum n => negb (Z.eqb n 0)
  | JStr s => negb (bool_decide (s = EmptyString))
  | JArr l => negb (bool_decide (l = []))
  | JObj kv => negb (bool_decide (kv = []))
  end.

Definition str_truthy (o : option string) : bool :=
  match o with
  | Some s => negb (bool_decide (s = EmptyString))
  | None => false
  end.

(** Last binding of [k] among the members of an object. *)
Fixpoint lookup_member (k : string) (kv : list (string * json)) : option json :=
  match kv with
  | [] => None
  | (k', v) :: rest =>
      match lookup_member k rest with
      | Some v' => Some v'
      | None => if bool_decide (k' = k) then Some v else None
      end
  end.

(** [d.get(k, default)]; only a dict has [get]. *)
Definition dict_get (d : json) (k : string) (dflt : json) : exn + json :=
  match d with
  | JObj kv => inr (default dflt (lookup_member k kv))
  | _ => inl AttributeError
  end.

(** Keys of a dict in iteration order (first insertion). *)
Fixpoint dict_keys (kv : list (string * json)) : list string :=
  match kv with
  | [] => []
  | (k, _) :: rest => k :: filter (λ k', k' ≠ k) (dict_keys rest)
  end.

(** [for x in v]: what iterating over [v] yields. *)
Definition py_iter (v : json) : exn + list json :=
  match v with
  | JArr l => inr l
  | JStr s => inr (map (λ c, JStr (PyStr.str [c])) (PyStr.chars s))
  | JObj kv => inr (map JStr (dict_keys kv))
  | _ => inl TypeError
  end.

(** [v[0]]. *)
Definition first_item (v : json) : exn + json :=
  match v with
  | JArr (x :: _) => inr x
  | JArr [] => inl IndexError
  | JStr s => match PyStr.chars s with
              | c :: _ => inr (JStr (PyStr.str [c]))
              | [] => inl IndexError
              end
  | JObj _ => inl KeyError
  | _ => inl TypeError
  end.

(** [clean_text] applied to a value of the feed: a falsy value gives the
    empty string, a non-empty [str] is cleaned, anything else has no
    [split]. *)
Definition clean_text_value (v : json) : exn + string :=
  if negb (truthy v) then inr EmptyString
  else match v with
       | JStr s => inr (Helpers.clean_text s)
       | _ => inl AttributeError
       end.

End Web.

(** ** services/content_extractor.py *)

Module ContentExtractor.
Import PyStr Helpers Models Web.
Local Open Scope M_scope.

Definition faq_paths : list string :=
  ["/pages/faq"; "/faq"; "/pages/frequently-asked-questions"; "/help"; "/pages/help"]%string.

Definition mk_faq (q a : string) : FAQ :=
  {| question := q; answer := a; category := None |}.

(** Method 1: accordion items. *)
Definition accordion_faqs (p : Page) : list FAQ :=
  flat_map (λ item,
    match item with
    | (Some question_elem, Some answer_elem) =>
        let question := clean_text question_elem in
        let answer := clean_text answer_elem in
        if nonempty question && nonempty answer then [mk_faq question answer] else []
    | _ => []
    end) (accordion_items p).

(** Method 2: dt/dd pairs. *)
Definition dt_faqs (p : Page) : list FAQ :=
  flat_map (λ item,
    match item with
    | (dt, Some dd) =>
        let question := clean_text dt in
        let answer := clean_text dd in
        if nonempty question && nonempty answer then [mk_faq question answer] else []
    | _ => []
    end) (dt_elements p).

(** Method 3: headings that read as questions, with the next paragraph. *)
Definition header_faqs (p : Page) : list FAQ :=
  flat_map (λ item,
    let question_text := clean_text (fst item) in
    if py_in "?" question_text then
      match snd item with
      | Some next_elem =>
          let answer_text := clean_text next_elem in
          if nonempty answer_text then [mk_faq question_text answer_text] else []
      | None => []
      end
    else []) (headers p).

(** Method 4: the matches of the three text patterns. *)
Definition pattern_faqs (p : Page) : list FAQ :=
  flat_map (λ matches,
    flat_map (λ m : string * string,
      let question := clean_text (strip (fst m)) in
      let answer := clean_text (strip (snd m)) in
      if nonempty question && nonempty answer && bool_decide (10 < len answer)
      then [mk_faq question answer] else []) matches) (qa_matches p).

(** Method 5: list items split at their first question mark. *)
Definition list_item_faqs (p : Page) : list FAQ :=
  flat_map (λ item,
    let text := clean_text item in
    if py_in "?" text && bool_decide (20 < len text) then
      let part0 := str (before_first (chars "?") (chars text)) in
      let part1 := str (after_first (chars "?") (chars text)) in
      let question := clean_text (part0 +:+ "?") in
      let answer := clean_text part1 in
      if nonempty question && nonempty answer && bool_decide (5 < len answer)
      then [mk_faq question answer] else []
    else []) (faq_list_items p).

(** [if not faqs: ...] around a method that appends to [faqs]. *)
Definition if_none_yet (faqs more : list FAQ) : list FAQ :=
  match faqs with
  | [] => faqs ++ more
  | _ :: _ => faqs
  end.

(** The list [faqs] of [_parse_faq_page] when it reaches the
    deduplication. *)
Definition faq_candidates (p : Page) : list FAQ :=
  let faqs := accordion_faqs p in
  let faqs := if_none_yet faqs (dt_faqs p) in
  let faqs := if_none_yet faqs (header_faqs p) in
  let faqs := if_none_yet faqs (pattern_faqs p) in
  let faqs := if_none_yet faqs (list_item_faqs p) in
  faqs.

(** [re.sub(r'\s+', ' ', faq.question.lower().strip())]. *)
Definition normalized_question (faq : FAQ) : string :=
  str (collapse_ws (chars (strip (lower (question faq))))).

(** The deduplication loop, with its two accumulators. *)
Fixpoint unique_loop (faqs unique_faqs : list FAQ) (seen_questions : gset string)
  : list FAQ :=
  match faqs with
  | [] => unique_faqs
  | faq :: rest =>
      let nq := normalized_question faq in
      if decide (nq ∈ seen_questions)
      then unique_loop rest unique_faqs seen_questions
      else unique_loop rest (unique_faqs ++ [faq]) ({[nq]} ∪ seen_questions)
  end.

Definition _parse_faq_page (p : Page) : list FAQ :=
  unique_loop (faq_candidates p) [] ∅.

(** The loop over [faq_paths]; [faqs] is the list collected so far. *)
Fixpoint faq_path_loop (env : Env) (website_url : string) (paths : list string)
    (faqs : list FAQ) : M (list FAQ) :=
  match paths with
  | [] => ret faqs
  | path :: rest =>
      faq_url ← lift (urljoin env website_url path);
      '(faqs, stop) ← try_except
            (response ← session_get env faq_url;
             if Z.eqb (status_code response) 200 then
               let page_faqs := _parse_faq_page (soup response) in
               let faqs := faqs ++ page_faqs in
               ret (faqs, negb (bool_decide (faqs = [])))
             else ret (faqs, false))
            (λ _, ret (faqs, false));
      if stop then ret faqs else faq_path_loop env website_url rest faqs
  end.

Definition extract_faqs (env : Env) (website_url : string) : M (list FAQ) :=
  faqs ← faq_path_loop env website_url faq_paths [];
  faqs ← (if bool_decide (faqs = []) then
            try_except
              (response ← session_get env website_url;
               if Z.eqb (status_code response) 200
               then ret (_parse_faq_page (soup response))
               else ret faqs)
              (λ _, ret faqs)
          else ret faqs);
  ret (take 10 faqs).

(** [re.sub(r'^https?://(www\.)?', '', url)]. *)
Definition drop_prefix (pre : string) (s : list ascii) : option (list ascii) :=
  if starts_with (chars pre) s then Some (drop (length (chars pre)) s) else None.

Definition strip_protocol (u : list ascii) : list ascii :=
  match drop_prefix "http://" u, drop_prefix "https://" u with
  | Some r, _ | None, Some r => default r (drop_prefix "www." r)
  | None, None => u
  end.

Definition is_segment_char (c : ascii) : bool :=
  negb (bool_decide (c = "/"%char)) && negb (bool_decide (c = "?"%char)).

(** A match of [lit([^/?]+)] anchored at the head of [s]: its group. *)
Definition segment_at (lit : string) (s : list ascii) : option (list ascii) :=
  match drop_prefix lit s with
  | Some r => match take_while is_segment_char r with
              | [] => None
              | g => Some g
              end
  | None => None
  end.

(** [re.search] for a pattern [(?:lit1|lit2|..)([^/?]+)]: the group of
    the leftmost match, the alternatives tried in order at each position. *)
Fixpoint search_segment (lits : list string) (s : list ascii) : option (list ascii) :=
  match list_find (λ l, is_Some (segment_at l s)) lits with
  | Some (_, l) => segment_at l s
  | None => match s with
            | [] => None
            | _ :: t => search_segment lits t
            end
  end.

Definition not_among (junk : list string) (h : string) : option string :=
  if bool_decide (h ∈ junk) then None else Some h.

Definition _extract_handle_from_url (u platform : string) : option string :=
  let clean_url := strip_protocol (chars u) in
  if bool_decide (platform = "instagram") then
    match search_segment ["instagram.com/"] clean_url with
    | Some g => not_among ["www"; "web"; "home"; "explore"; "reels"] (str g)
    | None => None
    end
  else if bool_decide (platform = "facebook") then
    match search_segment ["facebook.com/"] clean_url with
    | Some g => not_among ["www"; "web"; "home"; "pages"; "groups"] (str g)
    | None => None
    end
  else if bool_decide (platform ∈ ["twitter"; "x"]) then
    match search_segment ["twitter.com/"; "x.com/"] clean_url with
    | Some g => not_among ["www"; "web"; "home"; "explore"; "notifications"] (str g)
    | None => None
    end
  else if bool_decide (platform = "tiktok") then
    match search_segment ["tiktok.com/@"] clean_url with
    | Some g => not_among ["www"; "web"; "home"; "explore"] (str g)
    | None => None
    end
  else if bool_decide (platform = "youtube") then
    if contains (chars "/channel/") clean_url then
      match search_segment ["youtube.com/channel/"] clean_url with
      | Some g => Some ("Channel: " +:+ str (take 20 g) +:+ "...")
      | None => None
      end
    else if contains (chars "/@") clean_url then
      match search_segment ["youtube.com/@"] clean_url with
      | Some g => Some (str g)
      | None => None
      end
    else if contains (chars "/c/") clean_url then
      match search_segment ["youtube.com/c/"] clean_url with
      | Some g => Some (str g)
      | None => None
      end
    else None
  else None.

Definition social_platforms : list (string * list string) :=
  [ ("facebook", ["facebook.com"; "fb.com"]);
    ("instagram", ["instagram.com"]);
    ("twitter", ["twitter.com"; "x.com"]);
    ("tiktok", ["tiktok.com"]);
    ("youtube", ["youtube.com"; "youtu.be"]);
    ("linkedin", ["linkedin.com"]);
    ("pinterest", ["pinterest.com"]);
    ("snapchat", ["snapchat.com"]) ]%string.

(** [str(href_raw).lower() if href_raw else ''] *)
Definition lowered_href (link : Anchor) : string :=
  if nonempty (a_href link) then lower (a_href link) else EmptyString.

(** The inner loop over the platforms for one link: the handle it appends
    before its [break], if any. *)
Fixpoint scan_platforms (platforms : list (string * list string)) (href : string)
    (found_platforms : gset string) : option SocialHandle :=
  match platforms with
  | [] => None
  | (platform, domains) :: rest =>
      if negb (bool_decide (platform ∈ found_platforms))
         && existsb (λ domain, py_in domain href) domains then
        match _extract_handle_from_url href platform with
        | Some h =>
            if nonempty h && negb (bool_decide (h ∈ ["www"; "web"; "home"]%string))
            then Some {| platform := platform; url := href; handle := Some h |}
            else scan_platforms rest href found_platforms
        | None => scan_platforms rest href found_platforms
        end
      else scan_platforms rest href found_platforms
  end.

(** The loop over the links of the page. *)
Fixpoint social_links_loop (links : list Anchor) (social_handles : list SocialHandle)
    (found_platforms : gset string) : list SocialHandle :=
  match links with
  | [] => social_handles
  | link :: rest =>
      let href := lowered_href link in
      if startswith href "#" || startswith href "/" then
        social_links_loop rest social_handles found_platforms
      else
        match scan_platforms social_platforms href found_platforms with
        | Some sh =>
            social_links_loop rest (social_handles ++ [sh])
              ({[platform sh]} ∪ found_platforms)
        | None => social_links_loop rest social_handles found_platforms
        end
  end.

Definition extract_social_handles (env : Env) (website_url : string)
  : M (list SocialHandle) :=
  try_except
    (response ← session_get env website_url;
     if negb (Z.eqb (status_code response) 200) then ret []
     else ret (social_links_loop (anchors (soup response)) [] ∅))
    (λ _, ret []).

Definition contact_paths : list string :=
  ["/pages/contact"; "/contact"; "/pages/contact-us"; "/contact-us"]%string.

Definition count_digits (s : string) : nat :=
  length (filter (λ c, is_digit c = true) (chars s)).

(** [[p.strip() for p in phone_matches if len(re.sub(r'\D', '', p)) >= 10]] *)
Definition kept_phones (phone_matches : list string) : list string :=
  map strip (filter (λ p, 10 ≤ count_digits p) phone_matches).

(** The loop over [contact_paths], with the two lists collected so far. *)
Fixpoint contact_path_loop (env : Env) (website_url : string) (paths : list string)
    (emails phone_numbers : list string) : M (list string * list string) :=
  match paths with
  | [] => ret (emails, phone_numbers)
  | path :: rest =>
      contact_url ← lift (urljoin env website_url path);
      '(emails, phone_numbers, stop) ← try_except
            (response ← session_get env contact_url;
             if Z.eqb (status_code response) 200 then
               let emails := emails ++ email_matches (soup response) in
               let phone_numbers :=
                 phone_numbers ++ kept_phones (phone_matches (soup response)) in
               ret (emails, phone_numbers,
                     negb (bool_decide (emails = [])) || negb (bool_decide (phone_numbers = [])))
             else ret (emails, phone_numbers, false))
            (λ _, ret (emails, phone_numbers, false));
      if stop then ret (emails, phone_numbers)
      else contact_path_loop env website_url rest emails phone_numbers
  end.

Definition extract_contact_info (env : Env) (website_url : string)
  : M (option ContactInfo) :=
  '(emails, phone_numbers) ← contact_path_loop env website_url contact_paths [] [];
  '(emails, phone_numbers) ← (if bool_decide (emails = []) && bool_decide (phone_numbers = []) then
         try_except
           (response ← session_get env website_url;
            if Z.eqb (status_code response) 200 then
              ret (emails ++ email_matches (soup response),
                    phone_numbers ++ kept_phones (phone_matches (soup response)))
            else ret (emails, phone_numbers))
           (λ _, ret (emails, phone_numbers))
       else ret (emails, phone_numbers));
  let emails := set_order env (map lower (filter (λ e, py_in "@" e = true) emails)) in
  let phone_numbers := set_order env phone_numbers in
  if negb (bool_decide (emails = [])) || negb (bool_decide (phone_numbers = []))
  then ret (Some {| emails := take 5 emails;
                     phone_numbers := take 3 phone_numbers;
                     address := None |})
  else ret None.

End ContentExtractor.

(** ** services/shopify_scraper.py *)

Module ShopifyScraper.
Import PyStr Helpers Models Web.
Local Open Scope M_scope.

Definition max_retries : nat := 3.

(** [_verify_website_access]. *)
Definition _verify_website_access (env : Env) (u : string) : M bool :=
  try_except
    (response ← session_get env u;
     ret (bool_decide (status_code response ∈ [200; 403]%Z)))
    (λ _, ret false).

(** [_make_request] with [left = max_retries - retries] retries left. *)
Fixpoint make_request_loop (env : Env) (left : nat) (u : string) : M (option Response) :=
  try_except
    (response ← session_get env u;
     if Z.eqb (status_code response) 200 then ret (Some response)
     else
       match left with
       | S left' =>
           if Z.eqb (status_code response) 429
           then make_request_loop env left' u
           else ret None
       | O => ret None
       end)
    (λ _,
       match left with
       | S left' => make_request_loop env left' u
       | O => ret None
       end).

Definition _make_request (env : Env) (u : string) (retries : nat) : M (option Response) :=
  make_request_loop env (max_retries - retries) u.

Definition suffixes_to_remove : list string :=
  [" - Online Store"; " | Official Store"; " Store"; " Shop"; " Official Site"; " Website"]%string.

(** The loop over [suffixes_to_remove], with its [break]. *)
Fixpoint remove_suffix (suffixes : list string) (title_text : string) : string :=
  match suffixes with
  | [] => title_text
  | suffix :: rest =>
      if endswith title_text suffix
      then strip (drop_last (len suffix) title_text)
      else remove_suffix rest title_text
  end.

(** Methods 1 and 2: the content of a meta tag. *)
Definition name_from_meta (tag : option string) (brand_name : option string) : option string :=
  match tag with
  | Some content => if nonempty (strip content) then Some (clean_text content) else brand_name
  | None => brand_name
  end.

(** Method 3: the title, without a known suffix, up to the first separator. *)
Definition name_from_title (title_text : string) : string :=
  let title_text := remove_suffix suffixes_to_remove title_text in
  if py_in " | " title_text then strip (split_first title_text " | ")
  else if py_in " - " title_text then strip (split_first title_text " - ")
  else title_text.

(** Method 4: the first label of the domain. *)
Definition name_from_domain (env : Env) (website_url : string) (brand_name : option string)
  : option string :=
  let domain := lower (netloc env website_url) in
  let domain := remove_all domain "www." in
  if py_in "." domain then Some (capitalize (split_first domain ".")) else brand_name.

Definition resolve_brand_name (env : Env) (website_url : string) (page : Page) : string :=
  let brand_name := None in
  let brand_name := name_from_meta (og_site_name page) brand_name in
  let brand_name :=
    if negb (str_truthy brand_name)
    then name_from_meta (application_name page) brand_name else brand_name in
  let brand_name :=
    if negb (str_truthy brand_name) then
      match title page with
      | Some t => Some (name_from_title (clean_text t))
      | None => brand_name
      end
    else brand_name in
  let brand_name :=
    if negb (str_truthy brand_name)
       || bool_decide (len (strip (default EmptyString brand_name)) < 3)
    then name_from_domain env website_url brand_name else brand_name in
  match brand_name with
  | Some b => if nonempty b && nonempty (strip b) then b else "Brand Name Not Available"
  | None => "Brand Name Not Available"
  end.

Definition set_brand_name (v : string) (i : BrandInsights) : BrandInsights :=
  {| website_url := website_url i; brand_name := Some v;
     brand_description := brand_description i;
     product_catalog := product_catalog i; hero_products := hero_products i;
     privacy_policy_url := privacy_policy_url i;
     privacy_policy_content := privacy_policy_content i;
     return_refund_policy_url := return_refund_policy_url i;
     return_refund_policy_content := return_refund_policy_content i;
     faqs := faqs i; social_handles := social_handles i;
     contact_info := contact_info i; important_links := important_links i |}.

Definition set_brand_description (v : string) (i : BrandInsights) : BrandInsights :=
  {| website_url := website_url i; brand_name := brand_name i;
     brand_description := Some v;
     product_catalog := product_catalog i; hero_products := hero_products i;
     privacy_policy_url := privacy_policy_url i;
     privacy_policy_content := privacy_policy_content i;
     return_refund_policy_url := return_refund_policy_url i;
     return_refund_policy_content := return_refund_policy_content i;
     faqs := faqs i; social_handles := social_handles i;
     contact_info := contact_info i; important_links := important_links i |}.

Definition append_product (v : Product) (i : BrandInsights) : BrandInsights :=
  {| website_url := website_url i; brand_name := brand_name i;
     brand_description := brand_description i;
     product_catalog := product_catalog i ++ [v]; hero_products := hero_products i;
     privacy_policy_url := privacy_policy_url i;
     privacy_policy_content := privacy_policy_content i;
     return_refund_policy_url := return_refund_policy_url i;
     return_refund_policy_content := return_refund_policy_content i;
     faqs := faqs i; social_handles := social_handles i;
     contact_info := contact_info i; important_links := important_links i |}.

Definition set_hero_products (v : list Product) (i : BrandInsights) : BrandInsights :=
  {| website_url := website_url i; brand_name := brand_name i;
     brand_description := brand_description i;
     product_catalog := product_catalog i; hero_products := v;
     privacy_policy_url := privacy_policy_url i;
     privacy_policy_content := privacy_policy_content i;
     return_refund_policy_url := return_refund_policy_url i;
     return_refund_policy_content := return_refund_policy_content i;
     faqs := faqs i; social_handles := social_handles i;
     contact_info := contact_info i; important_links := important_links i |}.

Definition set_privacy_policy (u content : string) (i : BrandInsights) : BrandInsights :=
  {| website_url := website_url i; brand_name := brand_name i;
     brand_description := brand_description i;
     product_catalog := product_catalog i; hero_products := hero_products i;
     privacy_policy_url := Some u;
     privacy_policy_content := Some content;
     return_refund_policy_url := return_refund_policy_url i;
     return_refund_policy_content := return_refund_policy_content i;
     faqs := faqs i; social_handles := social_handles i;
     contact_info := contact_info i; important_links := important_links i |}.

Definition set_return_refund_policy (u content : string) (i : BrandInsights) : BrandInsights :=
  {| website_url := website_url i; brand_name := brand_name i;
     brand_description := brand_description i;
     product_catalog := product_catalog i; hero_products := hero_products i;
     privacy_policy_url := privacy_policy_url i;
     privacy_policy_content := privacy_policy_content i;
     return_refund_policy_url := Some u;
     return_refund_policy_content := Some content;
     faqs := faqs i; social_handles := social_handles i;
     contact_info := contact_info i; important_links := important_links i |}.

Definition set_faqs (v : list FAQ) (i : BrandInsights) : BrandInsights :=
  {| website_url := website_url i; brand_name := brand_name i;
     brand_description := brand_description i;
     product_catalog := product_catalog i; hero_products := hero_products i;
     privacy_policy_url := privacy_policy_url i;
     privacy_policy_content := privacy_policy_content i;
     return_refund_policy_url := return_refund_policy_url i;
     return_refund_policy_content := return_refund_policy_content i;
     faqs := v; social_handles := social_handles i;
     contact_info := contact_info i; important_links := important_links i |}.

Definition set_social_handles (v : list SocialHandle) (i : BrandInsights) : BrandInsights :=
  {| website_url := website_url i; brand_name := brand_name i;
     brand_description := brand_description i;
     product_catalog := product_catalog i; hero_products := hero_products i;
     privacy_policy_url := privacy_policy_url i;
     privacy_policy_content := privacy_policy_content i;
     return_refund_policy_url := return_refund_policy_url i;
     return_refund_policy_content := return_refund_policy_content i;
     faqs := faqs i; social_handles := v;
     contact_info := contact_info i; important_links := important_links i |}.

Definition set_contact_info (v : option ContactInfo) (i : BrandInsights) : BrandInsights :=
  {| website_url := website_url i; brand_name := brand_name i;
     brand_description := brand_description i;
     product_catalog := product_catalog i; hero_products := hero_products i;
     privacy_policy_url := privacy_policy_url i;
     privacy_policy_content := privacy_policy_content i;
     return_refund_policy_url := return_refund_policy_url i;
     return_refund_policy_content := return_refund_policy_content i;
     faqs := faqs i; social_handles := social_handles i;
     contact_info := v; important_links := important_links i |}.

(** [insights.important_links[category] = full_url]. *)
Definition set_important_link (category full_url : string) (i : BrandInsights) : BrandInsights :=
  {| website_url := website_url i; brand_name := brand_name i;
     brand_description := brand_description i;
     product_catalog := product_catalog i; hero_products := hero_products i;
     privacy_policy_url := privacy_policy_url i;
     privacy_policy_content := privacy_policy_content i;
     return_refund_policy_url := return_refund_policy_url i;
     return_refund_policy_content := return_refund_policy_content i;
     faqs := faqs i; social_handles := social_handles i;
     contact_info := contact_info i;
     important_links := <[category := full_url]> (important_links i) |}.

Definition _extract_brand_info (env : Env) (website_url : string) : M unit :=
  response ← _make_request env website_url 0;
  match response with
  | None => ret tt
  | Some response =>
      let page := soup response in
      modify_insights (set_brand_name (resolve_brand_name env website_url page));;
      match meta_description page with
      | Some content => modify_insights (set_brand_description (clean_text content))
      | None => ret tt
      end
  end.

(** One turn of the loop over [product_data.get('images', [])]. *)
Definition image_entry (image : json) : list json :=
  match image with
  | JObj kv => [default (JStr EmptyString) (lookup_member "src" kv)]
  | JStr _ => [image]
  | _ => []
  end.

Definition _parse_product_json (env : Env) (product_data : json) (base_url : string)
  : M Product :=
  variants ← lift (dict_get product_data "variants" (JArr []));
  '(price, compare_at_price, available) ←
    (if truthy variants then
       variant ← lift (first_item variants);
       price ← lift (dict_get variant "price" JNull);
       compare_at_price ← lift (dict_get variant "compare_at_price" JNull);
       available ← lift (dict_get variant "available" (JBool false));
       ret (price, compare_at_price, available)
     else ret (JNull, JNull, JBool false));
  image_list ← lift (dict_get product_data "images" (JArr []));
  image_items ← lift (py_iter image_list);
  let images := flat_map image_entry image_items in
  id ← lift (dict_get product_data "id" (JStr EmptyString));
  title ← lift (dict_get product_data "title" (JStr EmptyString));
  title ← lift (clean_text_value title);
  handle ← lift (dict_get product_data "handle" (JStr EmptyString));
  body_html ← lift (dict_get product_data "body_html" (JStr EmptyString));
  description ← lift (clean_text_value body_html);
  vendor ← lift (dict_get product_data "vendor" (JStr EmptyString));
  product_type ← lift (dict_get product_data "product_type" (JStr EmptyString));
  tags ← lift (dict_get product_data "tags" (JArr []));
  product_url ← lift (urljoin env base_url ("/products/" +:+ py_str env handle));
  ret {| p_id := Some (py_str env id);
         p_title := Some title;
         p_handle := handle;
         p_description := Some description;
         p_vendor := vendor;
         p_product_type := product_type;
         p_price := price;
         p_compare_at_price := compare_at_price;
         p_available := available;
         p_tags := tags;
         p_images := images;
         p_url := Some product_url |}.

Definition _extract_product_catalog (env : Env) (website_url : string) : M unit :=
  products_url ← lift (urljoin env website_url "/products.json");
  try_except
    (response ← _make_request env products_url 0;
     match response with
     | Some response =>
         products_data ← lift (from_option inr (inl ValueError) (json_body response));
         products ← lift (dict_get products_data "products" (JArr []));
         products ← lift (py_iter products);
         for_each products (λ product_data,
           product ← _parse_product_json env product_data website_url;
           modify_insights (append_product product))
     | None => ret tt
     end)
    (λ _, ret tt).

Definition is_product_image (src : string) : bool :=
  py_in "product" (lower src) || py_in "cdn.shopify" src.

Definition _scrape_individual_product (env : Env) (product_url : string)
  : M (option Product) :=
  response ← _make_request env product_url 0;
  match response with
  | None => ret None
  | Some response =>
      let page := soup response in
      let title_text := from_option clean_text EmptyString (h1 page) in
      let price := from_option (λ t, JStr (clean_text t)) JNull (price_elem page) in
      let images := filter (λ src, is_product_image src = true) (img_srcs page) in
      ret (Some {| p_id := None;
                   p_title := Some title_text;
                   p_handle := JNull;
                   p_description := None;
                   p_vendor := JNull;
                   p_product_type := JNull;
                   p_price := price;
                   p_compare_at_price := JNull;
                   p_available := JNull;
                   p_tags := JNull;
                   p_images := map JStr (take 3 images);
                   p_url := Some product_url |})
  end.

(** The loop over the links of the homepage; [hero_products] is the list
    built so far. *)
Fixpoint hero_loop (env : Env) (website_url : string) (links : list Anchor)
    (hero_products : list Product) : M (list Product) :=
  match links with
  | [] => ret hero_products
  | link :: rest =>
      let href := a_href link in
      if py_in "/products/" href then
        product_url ← lift (urljoin env website_url href);
        hero_products ←
          (if bool_decide (length hero_products < 10) then
             product ← _scrape_individual_product env product_url;
             match product with
             | Some product => ret (hero_products ++ [product])
             | None => ret hero_products
             end
           else ret hero_products);
        hero_loop env website_url rest hero_products
      else hero_loop env website_url rest hero_products
  end.

Definition _extract_hero_products (env : Env) (website_url : string) : M unit :=
  response ← _make_request env website_url 0;
  match response with
  | None => ret tt
  | Some response =>
      hero_products ← hero_loop env website_url (anchors (soup response)) [];
      modify_insights (set_hero_products (take 6 hero_products))
  end.

Definition privacy_paths : list string :=
  ["/pages/privacy-policy"; "/privacy-policy"; "/pages/privacy"]%string.

Definition return_paths : list string :=
  ["/pages/return-policy"; "/return-policy"; "/pages/returns"; "/pages/refund-policy"]%string.

(** One of the two loops of [_extract_policies]; [record] writes the pair
    of fields of that policy. *)
Fixpoint policy_loop (env : Env) (website_url : string) (paths : list string)
    (record : string → string → BrandInsights → BrandInsights) : M unit :=
  match paths with
  | [] => ret tt
  | path :: rest =>
      policy_url ← lift (urljoin env website_url path);
      response ← _make_request env policy_url 0;
      match response with
      | Some response =>
          let content := page_text (soup response) in
          modify_insights (record policy_url (slice_to 2000 (clean_text content)))
      | None => policy_loop env website_url rest record
      end
  end.

Definition _extract_policies (env : Env) (website_url : string) : M unit :=
  policy_loop env website_url privacy_paths set_privacy_policy;;
  policy_loop env website_url return_paths set_return_refund_policy.

Definition _extract_faqs (env : Env) (website_url : string) : M unit :=
  r ← ContentExtractor.extract_faqs env website_url;
  modify_insights (set_faqs r).

Definition _extract_social_handles (env : Env) (website_url : string) : M unit :=
  r ← ContentExtractor.extract_social_handles env website_url;
  modify_insights (set_social_handles r).

Definition _extract_contact_info (env : Env) (website_url : string) : M unit :=
  r ← ContentExtractor.extract_contact_info env website_url;
  modify_insights (set_contact_info r).

Definition important_keywords : list (string * list string) :=
  [ ("order_tracking", ["track"; "order"; "tracking"]);
    ("contact_us", ["contact"; "support"]);
    ("blog", ["blog"; "news"; "article"]);
    ("about", ["about"]);
    ("shipping", ["shipping"]);
    ("faq", ["faq"; "help"]) ]%string.

(** The inner loop over the categories: the one it stops at, if any. *)
Fixpoint link_category (table : list (string * list string)) (href text : string)
  : option string :=
  match table with
  | [] => None
  | (category, keywords) :: rest =>
      if existsb (λ keyword, py_in keyword href || py_in keyword text) keywords
      then Some category
      else link_category rest href text
  end.

Definition link_href (link : Anchor) : string :=
  if nonempty (a_href link) then lower (a_href link) else EmptyString.

Definition link_text (link : Anchor) : string := lower (clean_text (a_text link)).

(** The category under which the loop records a link, if any. *)
Definition category_of (link : Anchor) : option string :=
  link_category important_keywords (link_href link) (link_text link).

(** The body of the loop over the links. *)
Definition record_link (env : Env) (website_url : string) (link : Anchor) : M unit :=
  match category_of link with
  | Some category =>
      full_url ← lift (urljoin env website_url (a_href link));
      modify_insights (set_important_link category full_url)
  | None => ret tt
  end.

Definition _extract_important_links (env : Env) (website_url : string) : M unit :=
  response ← _make_request env website_url 0;
  match response with
  | None => ret tt
  | Some response =>
      for_each (anchors (soup response)) (record_link env website_url)
  end.

Definition scrape_store (env : Env) (website_url : string) : M BrandInsights :=
  modify_insights (λ _, new_insights website_url);;
  try_except
    (accessible ← _verify_website_access env website_url;
     (if negb accessible then raise NotAccessible else ret tt);;
     _extract_brand_info env website_url;;
     _extract_product_catalog env website_url;;
     _extract_hero_products env website_url;;
     _extract_policies env website_url;;
     _extract_faqs env website_url;;
     _extract_social_handles env website_url;;
     _extract_contact_info env website_url;;
     _extract_important_links env website_url;;
     get_insights)
    (λ e, raise e).

(** The eight sub-steps, in the order [scrape_store] calls them, and
    their sequential run. *)
Definition sub_steps (env : Env) (website_url : string) : list (M unit) :=
  [ _extract_brand_info env website_url;
    _extract_product_catalog env website_url;
    _extract_hero_products env website_url;
    _extract_policies env website_url;
    _extract_faqs env website_url;
    _extract_social_handles env website_url;
    _extract_contact_info env website_url;
    _extract_important_links env website_url ].

Fixpoint run_steps (steps : list (M unit)) : M unit :=
  match steps with
  | [] => ret tt
  | step :: rest => step;; run_steps rest
  end.

(** The state in which [scrape_store] starts its [try] block. *)
Definition started (website_url : string) (st : State) : State :=
  {| requests := requests st; insights := new_insights website_url |}.

(** A scrape from a fresh process: no request made yet. *)
Definition run_scrape (env : Env) (website_url : string)
  : (exn + BrandInsights) * list string :=
  let '(r, st) := scrape_store env website_url
                    {| requests := []; insights := new_insights website_url |} in
  (r, requests st).

End ShopifyScraper.

(** ** utils/helpers.py, the URL and text helpers *)

Module TextHelpers.
Import PyStr Helpers Models Web.

Definition is_slash (c : ascii) : bool := bool_decide (c = "/"%char).

(** [s.rstrip('/')]. *)
Definition rstrip_slash (s : string) : string :=
  str (reverse (drop_while is_slash (reverse (chars s)))).

(** [url.startswith(('http://', 'https://'))]. *)
Definition has_protocol (url : string) : bool :=
  startswith url "http://" || startswith url "https://".

Definition normalize_url (url : string) : string :=
  if negb (nonempty url) then url
  else
    let url := strip url in
    let url := if negb (has_protocol url) then "https://" +:+ url else url in
    rstrip_slash url.

Definition is_blank (c : ascii) : bool := bool_decide (c = " "%char).

(** [s.rsplit(' ', 1)[0]]: the text before the last blank, all of [s]
    when it has none. *)
Definition before_last_blank (s : list ascii) : list ascii :=
  if existsb is_blank s
  then reverse (drop 1 (drop_while (λ c, negb (is_blank c)) (reverse s)))
  else s.

(** [text[:n]] for an integer [n]: a negative [n] counts from the end. *)
Definition slice_upto (n : Z) (s : list ascii) : list ascii :=
  if (n <? 0)%Z then take (length s - Z.to_nat (- n)) s else take (Z.to_nat n) s.

Definition truncate_text (text : string) (max_length : Z) : string :=
  if negb (nonempty text) || (Z.of_nat (len text) <=? max_length)%Z then text
  else str (before_last_blank (slice_upto max_length (chars text))) +:+ "...".

Definition categories : list (string * list string) :=
  [ ("contact", ["contact"; "support"; "help"]);
    ("about", ["about"; "story"; "company"]);
    ("shipping", ["shipping"; "delivery"]);
    ("returns", ["return"; "refund"; "exchange"]);
    ("privacy", ["privacy"; "policy"]);
    ("terms", ["terms"; "conditions"]);
    ("faq", ["faq"; "frequently"; "questions"]);
    ("blog", ["blog"; "news"; "article"]);
    ("track", ["track"; "order"; "tracking"]);
    ("careers", ["career"; "job"; "hiring"]);
    ("wholesale", ["wholesale"; "bulk"; "b2b"]) ]%string.

(** [categorize_link]; its loop over the table is the one of the
    important-links step, [ShopifyScraper.link_category]. *)
Definition categorize_link (url text : string) : string :=
  let url_lower := lower url in
  let text_lower := lower text in
  default "other"%string (ShopifyScraper.link_category categories url_lower text_lower).

End TextHelpers.

(** ** schemas/brand_data.py *)

Module Schemas.
Import PyStr Web TextHelpers.

(** The validator of [WebsiteUrlRequest.website_url]: the value it
    returns, or the [ValueError] it raises. *)
Definition validate_url (v : string) : exn + string :=
  if negb (nonempty (strip v)) then inl ValueError
  else if negb (has_protocol v) then inl ValueError
  else inr (strip v).

End Schemas.

(** ** utils/validators.py *)

Module Validators.
Import PyStr Models Web TextHelpers.

(** What the validator reads off a response. *)
Record Reply := {
  reply_status : Z;
  reply_json : option json;    (* response.json(); None when it raises *)
  reply_text : string          (* response.text *)
}.

Inductive answer : Type :=
  | Fails                      (* the request raises *)
  | Replies (r : Reply).

Inductive request : Type :=
  | HEAD (u : string)
  | GET (u : string).

(** The network as the validator sees it, and [urlparse(u).netloc]
    ([None] when [urlparse] raises). *)
Record Wire := {
  wire_head : string → answer;
  wire_get : string → answer;
  wire_netloc : string → option string
}.

(** ['products' in data]; [None] when the value supports no membership
    test. *)
Definition contains_products (data : json) : option bool :=
  match data with
  | JObj kv => Some (bool_decide (is_Some (lookup_member "products" kv)))
  | JArr l => Some (existsb (λ x, match x with
                                  | JStr s => bool_decide (s = "products"%string)
                                  | _ => false
                                  end) l)
  | JStr s => Some (py_in "products" s)
  | _ => None
  end.

Definition shopify_indicators : list string :=
  ["shopify"; "cdn.shopify.com"; "myshopify.com"; "shopify-features";
   "shopify_checkout"; "shopify-section"; "shopify_pay"]%string.

(** [is_likely_shopify_store]: the verdict and the requests made, in
    order. *)
Definition is_likely_shopify_store (w : Wire) (url : string) : bool * list request :=
  let products_url := rstrip_slash url +:+ "/products.json" in
  match wire_get w products_url with
  | Fails => (false, [GET products_url])
  | Replies response =>
      if Z.eqb (reply_status response) 200 then
        match reply_json response with
        | Some data => (default false (contains_products data), [GET products_url])
        | None => (false, [GET products_url])
        end
      else
        match wire_get w url with
        | Fails => (false, [GET products_url; GET url])
        | Replies response =>
            if Z.eqb (reply_status response) 200 then
              let content := lower (reply_text response) in
              (existsb (λ indicator, py_in indicator content) shopify_indicators,
               [GET products_url; GET url])
            else if Z.eqb (reply_status response) 403 then
              (true, [GET products_url; GET url])
            else (false, [GET products_url; GET url])
        end
  end.

Definition validate_shopify_url (w : Wire) (url : string) : bool * list request :=
  if negb (nonempty url) then (false, [])
  else
    let url := if negb (has_protocol url) then "https://" +:+ url else url in
    match wire_netloc w url with
    | None => (false, [])
    | Some host =>
        if negb (nonempty host) then (false, [])
        else
          let rejected :=
            match wire_head w url with
            | Fails => false
            | Replies response =>
                negb (bool_decide (reply_status response ∈ [200; 301; 302; 403]%Z))
            end in
          if rejected then (false, [HEAD url])
          else
            let '(verdict, requests) := is_likely_shopify_store w url in
            (verdict, HEAD url :: requests)
    end.

End Validators.

(** ** services/data_analyzer.py *)

Module DataAnalyzer.
Import PyStr Models Web.

Record BasicMetrics := {
  total_products : nat;
  hero_products_count : nat;
  faq_count : nat;
  social_platforms : nat;
  contact_methods : nat;
  important_links_count : nat;
  has_privacy_policy : bool;
  has_return_policy : bool
}.

Definition _calculate_basic_metrics (insights : BrandInsights) : BasicMetrics := {|
  total_products := length (product_catalog insights);
  hero_products_count := length (hero_products insights);
  faq_count := length (faqs insights);
  social_platforms := length (social_handles insights);
  contact_methods :=
    match contact_info insights with
    | Some ci => length (emails ci) + length (phone_numbers ci)
    | None => 0
    end;
  important_links_count := size (important_links insights);
  has_privacy_policy := bool_decide (is_Some (privacy_policy_url insights));
  has_return_policy := bool_decide (is_Some (return_refund_policy_url insights))
|}.

(** [[r] if c else []], for the recommendations. *)
Definition when (c : bool) (recommendation : string) : list string :=
  if c then [recommendation] else [].

Definition _generate_recommendations (insights : BrandInsights) : list string :=
  when (negb (str_truthy (brand_name insights)))
    "Brand name could not be extracted - check page title"
  ++ when (bool_decide (product_catalog insights = []))
       "No products found - verify /products.json endpoint"
  ++ when (negb (str_truthy (privacy_policy_url insights)))
       "Privacy policy not found - check common policy pages"
  ++ when (negb (str_truthy (return_refund_policy_url insights)))
       "Return/refund policy not found"
  ++ when (bool_decide (faqs insights = []))
       "No FAQs found - check for FAQ or help pages"
  ++ when (bool_decide (contact_info insights = None))
       "Contact information not found - check contact page"
  ++ when (bool_decide (social_handles insights = []))
       "No social media handles found"
  ++ when (bool_decide (size (important_links insights) < 3))
       "Limited important links found - may need manual verification".

(** [t[:n] + '...' if t and len(t) > n else t]. *)
Definition preview (n : nat) (t : option string) : option string :=
  match t with
  | Some s => if nonempty s && bool_decide (n < len s)
              then Some (slice_to n s +:+ "...") else Some s
  | None => None
  end.

Record ProductView := {
  v_id : option string;
  v_title : option string;
  v_handle : json;
  v_description : option string;
  v_vendor : json;
  v_product_type : json;
  v_price : json;
  v_compare_at_price : json;
  v_available : json;
  v_tags : json;
  v_images : list json;
  v_url : option string
}.

Record HeroView := {
  h_title : option string;
  h_price : json;
  h_images : list json;
  h_url : option string
}.

Record PolicyView := {
  policy_url : option string;
  content_preview : option string
}.

(** The response dictionary, without its [scraped_at] entry. *)
Record InsightsView := {
  r_website_url : string;
  r_brand_name : option string;
  r_brand_description : option string;
  r_product_catalog : list ProductView;
  r_hero_products : list HeroView;
  r_privacy_policy : PolicyView;
  r_return_refund_policy : PolicyView;
  r_faqs : list FAQ;
  r_social_handles : list SocialHandle;
  r_contact_info : option ContactInfo;
  r_important_links : gmap string string
}.

Definition format_insights_for_response (insights : BrandInsights) : InsightsView := {|
  r_website_url := website_url insights;
  r_brand_name := brand_name insights;
  r_brand_description := brand_description insights;
  r_product_catalog :=
    map (λ p, {| v_id := p_id p;
                 v_title := p_title p;
                 v_handle := p_handle p;
                 v_description := preview 200 (p_description p);
                 v_vendor := p_vendor p;
                 v_product_type := p_product_type p;
                 v_price := p_price p;
                 v_compare_at_price := p_compare_at_price p;
                 v_available := p_available p;
                 v_tags := p_tags p;
                 v_images := take 3 (p_images p);
                 v_url := p_url p |}) (product_catalog insights);
  r_hero_products :=
    map (λ p, {| h_title := p_title p;
                 h_price := p_price p;
                 h_images := take 2 (p_images p);
                 h_url := p_url p |}) (hero_products insights);
  r_privacy_policy :=
    {| policy_url := privacy_policy_url insights;
       content_preview := preview 300 (privacy_policy_content insights) |};
  r_return_refund_policy :=
    {| policy_url := return_refund_policy_url insights;
       content_preview := preview 300 (return_refund_policy_content insights) |};
  r_faqs := faqs insights;
  r_social_handles := social_handles insights;
  r_contact_info := contact_info insights;
  r_important_links := important_links insights
|}.

End DataAnalyzer.

(** ** A small site to run the scraper on *)

Module Fixtures.
Import PyStr Helpers Models Web.

Definition empty_page : Page := {|
  anchors := []; og_site_name := None; application_name := None;
  meta_description := None; title := None; h1 := None; price_elem := None;
  img_srcs := []; page_text := EmptyString; accordion_items := [];
  dt_elements := []; headers := []; qa_matches := []; faq_list_items := [];
  email_matches := []; phone_matches := []
|}.

Definition with_anchors (links : list Anchor) : Page := {|
  anchors := links; og_site_name := None; application_name := None;
  meta_description := None; title := None; h1 := None; price_elem := None;
  img_srcs := []; page_text := EmptyString; accordion_items := [];
  dt_elements := []; headers := []; qa_matches := []; faq_list_items := [];
  email_matches := []; phone_matches := []
|}.

Definition with_title (t : string) : Page := {|
  anchors := []; og_site_name := None; application_name := None;
  meta_description := None; title := Some t; h1 := None; price_elem := None;
  img_srcs := []; page_text := EmptyString; accordion_items := [];
  dt_elements := []; headers := []; qa_matches := []; faq_list_items := [];
  email_matches := []; phone_matches := []
|}.

(** A product page: a heading and its images. *)
Definition product_page (name : string) (srcs : list string) : Page := {|
  anchors := []; og_site_name := None; application_name := None;
  meta_description := None; title := None; h1 := Some name; price_elem := None;
  img_srcs := srcs; page_text := EmptyString; accordion_items := [];
  dt_elements := []; headers := []; qa_matches := []; faq_list_items := [];
  email_matches := []; phone_matches := []
|}.

(** A page whose dt/dd pairs are the given questions and answers. *)
Definition faq_page (pairs : list (string * string)) : Page := {|
  anchors := []; og_site_name := None; application_name := None;
  meta_description := None; title := None; h1 := None; price_elem := None;
  img_srcs := []; page_text := EmptyString; accordion_items := [];
  dt_elements := map (λ qa, (fst qa, Some (snd qa))) pairs;
  headers := []; qa_matches := []; faq_list_items := [];
  email_matches := []; phone_matches := []
|}.

Definition ok (p : Page) : outcome :=
  Responds {| status_code := 200; soup := p; json_body := None |}.

Definition ok_json (v : json) : outcome :=
  Responds {| status_code := 200; soup := empty_page; json_body := Some v |}.

Definition not_found : outcome :=
  Responds {| status_code := 404; soup := empty_page; json_body := None |}.

(** [urljoin] on the references the examples use, for a base that is a
    bare origin: a reference whose host opens a bracket that is never
    closed is rejected (ValueError: Invalid IPv6 URL), an absolute path is
    appended to the origin, an absolute URL is returned as it is. *)
Definition origin_urljoin (base ref : string) : exn + string :=
  if (startswith ref "http://[" || startswith ref "https://[" || startswith ref "//[")
     && negb (py_in "]" ref)
  then inl ValueError
  else if startswith ref "/" then inr (base +:+ ref)
  else inr ref.

(** The host of [scheme://host/...]. *)
Definition origin_netloc (u : string) : string :=
  str (take_while (λ c, negb (bool_decide (c ∈ chars "/?#")))
         (after_first (chars "//") (chars u))).

(** First occurrences, in order. *)
Fixpoint first_seen (l : list string) : list string :=
  match l with
  | [] => []
  | x :: l' => x :: filter (λ y, y ≠ x) (first_seen l')
  end.

Definition site_env (site : string → outcome) : Env := {|
  net := λ u _, site u;
  urljoin := origin_urljoin;
  netloc := origin_netloc;
  repr_of := λ v, match v with
                  | JNull => "None"
                  | JBool true => "True"
                  | JBool false => "False"
                  | JNum n => pretty n
                  | _ => "..."
                  end;
  set_order := first_seen
|}.

Definition home : string := "https://shop.example".

(** A site that answers the same way each time: the given page at the
    home URL, 404 elsewhere. *)
Definition home_only (p : Page) : Env :=
  site_env (λ u, if bool_decide (u = home) then ok p else not_found).

(** A feed entry with four images. *)
Definition mug : json :=
  JObj [("id", JNum 7); ("title", JStr "Mug"); ("handle", JStr "mug");
        ("variants", JArr [JObj [("price", JStr "9.00"); ("available", JBool true)]]);
        ("images", JArr [JObj [("src", JStr "a.jpg")]; JObj [("src", JStr "b.jpg")];
                         JObj [("src", JStr "c.jpg")]; JStr "d.jpg"])]%string.

(** The product built from [mug] on a site at [https://shop.example]. *)
Definition mug_product : Product := {|
  p_id := Some "7"; p_title := Some "Mug"; p_handle := JStr "mug";
  p_description := Some EmptyString; p_vendor := JStr EmptyString;
  p_product_type := JStr EmptyString; p_price := JStr "9.00";
  p_compare_at_price := JNull; p_available := JBool true; p_tags := JArr [];
  p_images := [JStr "a.jpg"; JStr "b.jpg"; JStr "c.jpg"; JStr "d.jpg"];
  p_url := Some "https://shop.example/products/mug"
|}%string.

(** A feed entry whose first variant carries a null availability. *)
Definition preorder : json :=
  JObj [("title", JStr "Lamp"); ("handle", JStr "lamp");
        ("variants", JArr [JObj [("price", JStr "30.00"); ("available", JNull)]])]%string.

(** A site with one product page showing three product images. *)
Definition mug_shop : Env :=
  site_env (λ u,
    if bool_decide (u = "https://shop.example/products/mug") then
      ok (product_page "Mug" ["/cdn/products/a.jpg"; "/cdn/products/b.jpg";
                               "https://cdn.shopify.com/c.jpg"])
    else not_found).

(** Eleven product links on the homepage; the first product page is gone,
    the other ten are there. *)
Definition eleven_links : list Anchor :=
  map (λ n : nat, {| a_href := "/products/p" +:+ pretty n; a_text := "View" |}) (seq 0 11).

Definition first_gone : Env :=
  site_env (λ u,
    if bool_decide (u = home) then ok (with_anchors eleven_links)
    else if bool_decide (u = "https://shop.example/products/p0") then not_found
    else if startswith u "https://shop.example/products/" then ok (product_page "Item" [])
    else not_found).

(** A homepage with one product link whose host opens a bracket and never
    closes it. *)
Definition bracket_link : Env :=
  home_only (with_anchors [{| a_href := "http://[/products/a"; a_text := "Sale" |}]).

(** A homepage with two links about the company. *)
Definition two_about_links : list Anchor :=
  [ {| a_href := "/pages/about-us"; a_text := "About us" |};
    {| a_href := "/pages/our-story"; a_text := "About the founders" |} ]%string.

Definition about_twice : Env := home_only (with_anchors two_about_links).



(** A FAQ page with twelve question/answer pairs; the second repeats the
    first question in another case and spacing. *)
Definition twelve_faqs : list (string * string) :=
  [ ("Do you ship abroad?", "Yes, worldwide.");
    ("do you  SHIP abroad?", "Yes.") ]%string
  ++ map (λ n : nat, ("Question " +:+ pretty n +:+ "?", "Answer " +:+ pretty n +:+ "."))
       (seq 1 10).

Definition faq_site : Env :=
  site_env (λ u,
    if bool_decide (u = home) then ok empty_page
    else if bool_decide (u = "https://shop.example/pages/faq") then ok (faq_page twelve_faqs)
    else not_found).

(** A feed of one product with two variants and two images. *)
Definition small_feed : json :=
  JObj [("products",
         JArr [JObj [("id", JNum 1); ("title", JStr " Blue   Mug "); ("handle", JStr "blue-mug");
                     ("variants", JArr [JObj [("price", JStr "12.50"); ("available", JBool true)];
                                        JObj [("price", JStr "14.00"); ("available", JBool false)]]);
                     ("images", JArr [JObj [("src", JStr "m1.jpg")];
                                      JObj [("src", JStr "m2.jpg")]])]])]%string.

Definition feed_site : Env :=
  site_env (λ u,
    if bool_decide (u = home) then ok empty_page
    else if bool_decide (u = "https://shop.example/products.json") then ok_json small_feed
    else not_found).

(** A feed whose second entry is a string, not an object, between two
    well-formed entries. *)
Definition broken_feed : json :=
  JObj [("products", JArr [mug; JStr "oops"; preorder])]%string.

Definition broken_feed_site : Env :=
  site_env (λ u,
    if bool_decide (u = home) then ok empty_page
    else if bool_decide (u = "https://shop.example/products.json") then ok_json broken_feed
    else not_found).

(** A site that refuses every connection. *)
Definition unreachable : Env := site_env (λ _, Raises RequestException).

Definition fresh (u : string) : State :=
  {| requests := []; insights := new_insights u |}.

End Fixtures.

(** * Properties *)

Section PyStrFacts.
Import PyStr.

Lemma chars_str l : chars (str l) = l.
Proof. apply list_ascii_of_string_of_list_ascii. Qed.

Lemma str_chars s : str (chars s) = s.
Proof. apply string_of_list_ascii_of_string. Qed.

End PyStrFacts.

(** ** [clean_text] *)

Section CleanText.
Import PyStr Helpers.

Lemma drop_while_length p s : length (drop_while p s) ≤ length s.
Proof. induction s as [|c t IH]; simpl; [lia|]. destruct (p c); simpl; lia. Qed.






(** The first character of a left-stripped text is not a space. *)
Lemma drop_while_fixed p s :
  drop_while p (drop_while p s) = drop_while p s.
Proof.
  induction s as [|c t IH]; simpl; [done|].
  destruct (p c) eqn:E; [done|]. simpl. by rewrite E.
Qed.

Lemma drop_while_app_keep p s c t :
  drop_while p s = c :: t → ∀ u, drop_while p (s ++ u) = c :: t ++ u.
Proof.
  induction s as [|d s IH]; simpl; [done|].
  destruct (p d); [auto|]. intros [= -> ->] u. done.
Qed.









Lemma drop_while_suffix p s : ∃ u, s = u ++ drop_while p s.
Proof.
  induction s as [|c t [u Hu]]; simpl; [by exists []|].
  destruct (p c); [|by exists []]. exists (c :: u). simpl. by f_equal.
Qed.

Lemma rstrip_prefix s : ∃ u, s = rstrip s ++ u.
Proof.
  unfold rstrip. destruct (drop_while_suffix is_space (reverse s)) as [u Hu].
  exists (reverse u). apply (f_equal reverse) in Hu.
  by rewrite reverse_involutive, reverse_app in Hu.
Qed.

Lemma rstrip_fixed s : rstrip (rstrip s) = rstrip s.
Proof. unfold rstrip. by rewrite reverse_involutive, drop_while_fixed. Qed.

(** Stripping on the right does not uncover a space on the left. *)
Lemma lstrip_rstrip s : lstrip s = s → lstrip (rstrip s) = rstrip s.
Proof.
  intros Hs. destruct (rstrip_prefix s) as [u Hu].
  destruct (rstrip s) as [|c t]; [done|].
  rewrite Hu in Hs. unfold lstrip in *. simpl in *.
  destruct (is_space c); [|done].
  pose proof (drop_while_length is_space (t ++ u)) as Hl.
  rewrite Hs in Hl. simpl in Hl. lia.
Qed.

Lemma strip_chars_fixed s : strip_chars (strip_chars s) = strip_chars s.
Proof.
  unfold strip_chars. rewrite lstrip_rstrip; [apply rstrip_fixed|].
  apply drop_while_fixed.
Qed.



Lemma clean_chars_stripped s : strip_chars (clean_chars s) = clean_chars s.
Proof. apply strip_chars_fixed. Qed.

Lemma clean_text_chars y : clean_text y = str (clean_chars (chars y)).
Proof.
  unfold clean_text. case_bool_decide as E; [by subst|done].
Qed.






End CleanText.

(** ** The request helper *)

Section Requests.
Import PyStr Helpers Models Web ShopifyScraper.
Local Open Scope M_scope.

Lemma bind_inr {A B} (m : M A) (f : A → M B) st a st' :
  m st = (inr a, st') → bind m f st = f a st'.
Proof. unfold bind. by intros ->. Qed.

Lemma bind_inl {A B} (m : M A) (f : A → M B) st e st' :
  m st = (inl e, st') → bind m f st = (inl e, st').
Proof. unfold bind. by intros ->. Qed.

(** A [try] whose handler returns always returns. *)
Lemma try_except_total {A} (body : M A) (handler : exn → M A) st :
  (∀ e st1, ∃ a st2, handler e st1 = (inr a, st2)) →
  ∃ a st', try_except body handler st = (inr a, st').
Proof.
  intros Hh. unfold try_except. destruct (body st) as [[e|a] st1]; eauto.
Qed.

(** [_make_request] never raises. *)
Lemma make_request_loop_total env left u st :
  ∃ o st', make_request_loop env left u st = (inr o, st').
Proof.
  revert st. induction left as [|left IH]; intros st; simpl;
    apply try_except_total; intros e st1; eauto.
Qed.

Lemma _make_request_total env u retries st :
  ∃ o st', _make_request env u retries st = (inr o, st').
Proof. apply make_request_loop_total. Qed.

End Requests.

(** ** Brand name *)

Section BrandName.
Import PyStr Helpers Models Web ShopifyScraper Fixtures.
Local Open Scope M_scope.

(** C4 (as amended): with the title [Acme Shop - Online Store] and neither
    an og:site_name nor an application-name meta tag, the brand name is
    [Acme Shop]: the loop over the suffixes stops at the first suffix it
    removes, so [ Shop] stays. *)
Theorem brand_name_acme_shop env website_url st response st1 :
  _make_request env website_url 0 st = (inr (Some response), st1) →
  og_site_name (soup response) = None →
  application_name (soup response) = None →
  title (soup response) = Some "Acme Shop - Online Store"%string →
  ∃ st2, _extract_brand_info env website_url st = (inr tt, st2)
         ∧ brand_name (insights st2) = Some "Acme Shop"%string.
Proof.
  intros Hreq Hog Happ Htitle. unfold _extract_brand_info.
  rewrite (bind_inr _ _ _ _ _ Hreq).
  assert (Hname : resolve_brand_name env website_url (soup response) = "Acme Shop"%string).
  { unfold resolve_brand_name. rewrite Hog, Happ, Htitle. reflexivity. }
  rewrite Hname. unfold bind, modify_insights. simpl.
  destruct (meta_description (soup response)); simpl; eauto.
Qed.

Lemma brand_name_acme_shop_witness :
  ∃ st2, _extract_brand_info (home_only (with_title "Acme Shop - Online Store")) home
           (fresh home) = (inr tt, st2)
         ∧ brand_name (insights st2) = Some "Acme Shop"%string.
Proof.
  eapply (brand_name_acme_shop _ _ _
            {| status_code := 200; soup := with_title "Acme Shop - Online Store";
               json_body := None |}); reflexivity.
Defined.

(** C4 (as stated) fails: the resolved name is not [Acme]. *)
Lemma brand_name_is_not_acme :
  let st := snd (_extract_brand_info (home_only (with_title "Acme Shop - Online Store"))
                   home (fresh home)) in
  brand_name (insights st) = Some "Acme Shop"%string
  ∧ brand_name (insights st) ≠ Some "Acme"%string.
Proof. vm_compute. split; [reflexivity|discriminate]. Qed.

End BrandName.

(** ** Products *)

Section Products.
Import PyStr Helpers Models Web ShopifyScraper Fixtures.
Local Open Scope M_scope.

Lemma bind_inv {A B} (m : M A) (f : A → M B) st b st' :
  bind m f st = (inr b, st') →
  ∃ a st1, m st = (inr a, st1) ∧ f a st1 = (inr b, st').
Proof.
  unfold bind. destruct (m st) as [[e|a] st1]; [done|]. eauto.
Qed.

Lemma bind_lift_inv {A B} (x : exn + A) (f : A → M B) st b st' :
  bind (lift x) f st = (inr b, st') →
  ∃ a, x = inr a ∧ f a st = (inr b, st').
Proof.
  intros H. apply bind_inv in H as (a & st1 & H1 & H2).
  unfold lift in H1. injection H1 as -> ->. eauto.
Qed.

Lemma ret_inv {A} (a b : A) st st' :
  ret a st = (inr b, st') → a = b ∧ st = st'.
Proof. unfold ret. by intros [= -> ->]. Qed.

(** What a product built from the feed holds in the fields the claims
    are about. *)
Lemma _parse_product_json_fields env product_data base_url st p st' :
  _parse_product_json env product_data base_url st = (inr p, st') →
  ∃ variants image_list items,
    dict_get product_data "variants" (JArr []) = inr variants
    ∧ (if truthy variants
       then ∃ variant, first_item variants = inr variant
              ∧ dict_get variant "available" (JBool false) = inr (p_available p)
       else p_available p = JBool false)
    ∧ dict_get product_data "images" (JArr []) = inr image_list
    ∧ py_iter image_list = inr items
    ∧ p_images p = flat_map image_entry items.
Proof.
  unfold _parse_product_json. intros H.
  apply bind_lift_inv in H as (variants & Hv & H).
  apply bind_inv in H as ([[price cap] avail] & st1 & Hvar & H).
  apply bind_lift_inv in H as (image_list & Hil & H).
  apply bind_lift_inv in H as (items & Hit & H).
  repeat (apply bind_lift_inv in H as (? & _ & H)).
  apply ret_inv in H as [<- _]. simpl.
  exists variants, image_list, items. split_and!; try done.
  destruct (truthy variants).
  - apply bind_lift_inv in Hvar as (variant & Hf & Hvar).
    apply bind_lift_inv in Hvar as (? & _ & Hvar).
    apply bind_lift_inv in Hvar as (? & _ & Hvar).
    apply bind_lift_inv in Hvar as (? & Ha & Hvar).
    apply ret_inv in Hvar as [[= _ _ ->] _]. eauto.
  - by apply ret_inv in Hvar as [[= _ _ <-] _].
Qed.

(** Scraping a product page never raises. *)
Lemma _scrape_individual_product_total env u st :
  ∃ o st', _scrape_individual_product env u st = (inr o, st')
           ∧ ∀ p, o = Some p → length (p_images p) ≤ 3.
Proof.
  unfold _scrape_individual_product.
  destruct (_make_request_total env u 0 st) as (o & st' & Hreq).
  rewrite (bind_inr _ _ _ _ _ Hreq). destruct o as [response|].
  - eexists _, _. split; [reflexivity|]. intros p [= <-]. simpl.
    rewrite length_map, length_take. lia.
  - eexists _, _. split; [reflexivity|]. done.
Qed.

(** C6 (as amended): a product of the feed holds one image per dict or
    string of the feed's image list, however many there are; a hero
    product holds at most three images. *)
Theorem product_image_counts env :
  (∀ product_data base_url st p st',
     _parse_product_json env product_data base_url st = (inr p, st') →
     ∃ image_list items,
       dict_get product_data "images" (JArr []) = inr image_list
       ∧ py_iter image_list = inr items
       ∧ p_images p = flat_map image_entry items)
  ∧ (∀ product_url st,
       ∃ o st', _scrape_individual_product env product_url st = (inr o, st')
                ∧ ∀ p, o = Some p → length (p_images p) ≤ 3).
Proof.
  split.
  - intros product_data base_url st p st' H.
    apply _parse_product_json_fields in H as (? & il & items & _ & _ & ? & ? & ?).
    eauto.
  - apply _scrape_individual_product_total.
Qed.

(** C9 (as amended): the availability of a product of the feed is the
    value the first variant has under [available] ([False] when that
    variant has no such key), and [False] when there is no variant. *)
Theorem product_available env product_data base_url st p st' :
  _parse_product_json env product_data base_url st = (inr p, st') →
  ∃ variants,
    dict_get product_data "variants" (JArr []) = inr variants
    ∧ (if truthy variants
       then ∃ variant, first_item variants = inr variant
              ∧ dict_get variant "available" (JBool false) = inr (p_available p)
       else p_available p = JBool false).
Proof.
  intros H.
  apply _parse_product_json_fields in H as (v & _ & _ & ? & ? & _). eauto.
Qed.

Lemma product_image_counts_witness :
  _parse_product_json mug_shop mug home (fresh home) = (inr mug_product, fresh home)
  ∧ ∃ image_list items,
      dict_get mug "images" (JArr []) = inr image_list
      ∧ py_iter image_list = inr items
      ∧ p_images mug_product = flat_map image_entry items.
Proof.
  split; [reflexivity|].
  destruct (product_image_counts mug_shop) as [H _].
  apply (H mug home (fresh home) mug_product (fresh home)). reflexivity.
Defined.

(** C6 (as stated) fails on both counts: a feed entry with four images
    gives a product with four images, and a product page with three
    product images gives a hero product with three. *)
Lemma product_images_exceed_caps :
  (∃ p st, _parse_product_json mug_shop mug home (fresh home) = (inr p, st)
           ∧ length (p_images p) = 4 ∧ ¬ length (p_images p) ≤ 3)
  ∧ (∃ p st, _scrape_individual_product mug_shop "https://shop.example/products/mug"
               (fresh home) = (inr (Some p), st)
             ∧ length (p_images p) = 3 ∧ ¬ length (p_images p) ≤ 2).
Proof.
  split; eexists _, _; (split; [vm_compute; reflexivity|]); simpl; lia.
Qed.

Lemma product_available_witness :
  _parse_product_json mug_shop mug home (fresh home) = (inr mug_product, fresh home)
  ∧ ∃ variants,
      dict_get mug "variants" (JArr []) = inr variants
      ∧ (if truthy variants
         then ∃ variant, first_item variants = inr variant
                ∧ dict_get variant "available" (JBool false) = inr (p_available mug_product)
         else p_available mug_product = JBool false).
Proof.
  split; [reflexivity|].
  apply (product_available mug_shop mug home (fresh home) mug_product (fresh home)).
  reflexivity.
Defined.

(** C9 (as stated) fails: a null availability in the feed is passed on,
    so the field is left null. *)
Lemma product_available_null :
  ∃ p st, _parse_product_json mug_shop preorder home (fresh home) = (inr p, st)
          ∧ p_available p = JNull
          ∧ ∀ b, p_available p ≠ JBool b.
Proof.
  eexists _, _. split; [vm_compute; reflexivity|]. simpl. done.
Qed.

(** The loop over the homepage links either returns the products it
    scraped, at most ten unless it started with more, or passes on the
    exception of a [urljoin] on a product link. *)
Lemma hero_loop_outcome env website_url links acc st :
  match hero_loop env website_url links acc st with
  | (inr out, st') =>
      acc `prefix_of` out
      ∧ (length acc ≤ 10 → length out ≤ 10)
      ∧ (10 ≤ length acc → out = acc ∧ st' = st)
  | (inl e, _) =>
      ∃ link, link ∈ links ∧ py_in "/products/" (a_href link) = true
              ∧ urljoin env website_url (a_href link) = inl e
  end.
Proof.
  revert acc st. induction links as [|link rest IH]; intros acc st.
  { simpl. split_and!; [done|done|done]. }
  cbn [hero_loop]. destruct (py_in "/products/" (a_href link)) eqn:Hin.
  2:{ specialize (IH acc st). destruct (hero_loop _ _ rest acc st) as [[e|out] st'];
      [|done]. destruct IH as (l & ? & ? & ?). exists l. split; [by right|done]. }
  unfold bind at 1, lift at 1.
  destruct (urljoin env website_url (a_href link)) as [e|product_url] eqn:Hjoin.
  { exists link. split; [by left|done]. }
  unfold bind at 1. case_bool_decide as Hlen.
  - destruct (_scrape_individual_product_total env product_url st) as (o & st1 & Hs & _).
    rewrite (bind_inr _ _ _ _ _ Hs).
    destruct o as [product|]; unfold ret at 1.
    + specialize (IH (acc ++ [product]) st1).
      destruct (hero_loop _ _ rest _ st1) as [[e|out] st'].
      * destruct IH as (l & ? & ? & ?). exists l. split; [by right|done].
      * destruct IH as (Hp & Hle & _). rewrite length_app in Hle. simpl in Hle.
        split_and!; [|lia|lia].
        etrans; [|exact Hp]. by apply prefix_app_r.
    + specialize (IH acc st1).
      destruct (hero_loop _ _ rest _ st1) as [[e|out] st'].
      * destruct IH as (l & ? & ? & ?). exists l. split; [by right|done].
      * destruct IH as (Hp & Hle & _). split_and!; [done|done|lia].
  - unfold ret at 1. specialize (IH acc st).
    destruct (hero_loop _ _ rest acc st) as [[e|out] st'];
      [|done]. destruct IH as (l & ? & ? & ?). exists l. split; [by right|done].
Qed.

(** C7 (as amended): product pages are fetched for the product links in
    document order for as long as fewer than ten products have been
    scraped; a failed fetch does not count, so nothing bounds the number of
    attempts; once ten products are scraped no further page is fetched;
    the first six products scraped are kept. *)
Theorem hero_products_fetching env website_url :
  (∀ link rest acc st product_url,
     py_in "/products/" (a_href link) = true →
     urljoin env website_url (a_href link) = inr product_url →
     length acc < 10 →
     hero_loop env website_url (link :: rest) acc st
     = (product ← _scrape_individual_product env product_url;
        hero_loop env website_url rest (acc ++ from_option (λ p, [p]) [] product)) st)
  ∧ (∀ links acc st,
       match hero_loop env website_url links acc st with
       | (inr out, st') =>
           acc `prefix_of` out
           ∧ (length acc ≤ 10 → length out ≤ 10)
           ∧ (10 ≤ length acc → out = acc ∧ st' = st)
       | (inl e, _) =>
           ∃ link, link ∈ links ∧ py_in "/products/" (a_href link) = true
                   ∧ urljoin env website_url (a_href link) = inl e
       end)
  ∧ (∀ st response st1,
       _make_request env website_url 0 st = (inr (Some response), st1) →
       match hero_loop env website_url (anchors (soup response)) [] st1 with
       | (inr scraped, st2) =>
           _extract_hero_products env website_url st
           = (inr tt, {| requests := requests st2;
                         insights := set_hero_products (take 6 scraped) (insights st2) |})
           ∧ length scraped ≤ 10
           ∧ length (take 6 scraped) ≤ 6
       | (inl e, st2) => _extract_hero_products env website_url st = (inl e, st2)
       end).
Proof.
  split_and!.
  - intros link rest acc st product_url Hin Hjoin Hlen.
    cbn [hero_loop]. rewrite Hin. unfold bind at 1, lift at 1. rewrite Hjoin.
    rewrite bool_decide_eq_true_2 by done. unfold bind.
    destruct (_scrape_individual_product env product_url st) as [[e|[product|]] st1];
      simpl; [done|done|]. by rewrite app_nil_r.
  - apply hero_loop_outcome.
  - intros st response st1 Hreq. unfold _extract_hero_products.
    rewrite (bind_inr _ _ _ _ _ Hreq).
    pose proof (hero_loop_outcome env website_url (anchors (soup response)) [] st1) as Ho.
    unfold bind.
    destruct (hero_loop env website_url (anchors (soup response)) [] st1)
      as [[e|scraped] st2]; [done|].
    destruct Ho as (_ & Hle & _). split_and!; [done|apply Hle; simpl; lia|].
    rewrite length_take. lia.
Qed.

Lemma hero_products_fetching_witness :
  match hero_loop first_gone home eleven_links []
          {| requests := [home]; insights := new_insights home |} with
  | (inr scraped, st2) =>
      _extract_hero_products first_gone home (fresh home)
      = (inr tt, {| requests := requests st2;
                    insights := set_hero_products (take 6 scraped) (insights st2) |})
      ∧ length scraped ≤ 10
      ∧ length (take 6 scraped) ≤ 6
  | (inl e, st2) => _extract_hero_products first_gone home (fresh home) = (inl e, st2)
  end.
Proof.
  destruct (hero_products_fetching first_gone home) as (_ & _ & H).
  apply (H (fresh home)
           {| status_code := 200; soup := with_anchors eleven_links; json_body := None |}
           {| requests := [home]; insights := new_insights home |}).
  reflexivity.
Defined.

(** C7 (as stated) fails: with eleven product links of which the first
    cannot be fetched, eleven product pages are requested, not ten. *)
Lemma hero_fetch_attempts_exceed_ten :
  let '(r, st) := _extract_hero_products first_gone home (fresh home) in
  r = inr tt
  ∧ requests st = home :: map (λ l, home +:+ a_href l) eleven_links
  ∧ length (filter (λ u, py_in "/products/" u = true) (requests st)) = 11
  ∧ length (hero_products (insights st)) = 6.
Proof. vm_compute. split_and!; reflexivity. Qed.

End Products.

(** ** The orchestrator *)

Section Orchestrator.
Import PyStr Helpers Models Web ShopifyScraper Fixtures.
Local Open Scope M_scope.

Lemma bind_assoc {A B C} (m : M A) (f : A → M B) (g : B → M C) st :
  bind (bind m f) g st = bind m (λ a, bind (f a) g) st.
Proof. unfold bind. by destruct (m st) as [[e|a] st1]. Qed.

Lemma run_steps_raise pre step post st0 st1 e st2 :
  run_steps pre st0 = (inr tt, st1) →
  step st1 = (inl e, st2) →
  run_steps (pre ++ step :: post) st0 = (inl e, st2).
Proof.
  revert st0. induction pre as [|s pre IH]; intros st0 Hpre Hstep; simpl in *.
  - apply ret_inv in Hpre as [_ ->]. by apply bind_inl.
  - apply bind_inv in Hpre as ([] & st' & Hs & Hpre).
    rewrite (bind_inr _ _ _ _ _ Hs). by apply IH.
Qed.

Lemma bind_ext {A B} (m : M A) (f g : A → M B) st :
  (∀ a st1, f a st1 = g a st1) → bind m f st = bind m g st.
Proof. intros H. unfold bind. by destruct (m st) as [[e|a] st1]. Qed.

Lemma run_steps_cons_bind {C} step rest (k : unit → M C) st :
  bind (run_steps (step :: rest)) k st = bind step (λ _, bind (run_steps rest) k) st.
Proof. simpl. apply bind_assoc. Qed.

(** [scrape_store] is the access check followed by the run of the eight
    sub-steps, any exception being raised again. *)
Lemma scrape_store_steps env website_url st :
  scrape_store env website_url st
  = try_except
      (accessible ← _verify_website_access env website_url;
       (if negb accessible then raise NotAccessible else ret tt);;
       run_steps (sub_steps env website_url);;
       get_insights)
      (λ e, raise e) (started website_url st).
Proof.
  unfold scrape_store. unfold bind at 1, modify_insights at 1. fold (started website_url st).
  unfold try_except.
  match goal with
  | |- match ?a with _ => _ end = match ?b with _ => _ end =>
      replace a with b; [done|]
  end.
  apply bind_ext. intros accessible st0. apply bind_ext. intros _ st1.
  unfold sub_steps.
  repeat (rewrite run_steps_cons_bind; apply bind_ext; intros _ ?).
  reflexivity.
Qed.

(** C1 (as amended): the catalog sub-step catches whatever its fetch and
    parse block raises and the scrape goes on; an exception that leaves a
    sub-step is caught only by [scrape_store], which raises it again: the
    sub-steps after it do not run and no profile is returned.  When no
    sub-step raises, the profile is returned. *)
Theorem scrape_store_reraises env website_url :
  (∀ st products_url,
     urljoin env website_url "/products.json" = inr products_url →
     ∃ st', _extract_product_catalog env website_url st = (inr tt, st'))
  ∧ (∀ st st0 pre step post st1 e st2,
       _verify_website_access env website_url (started website_url st) = (inr true, st0) →
       sub_steps env website_url = pre ++ step :: post →
       run_steps pre st0 = (inr tt, st1) →
       step st1 = (inl e, st2) →
       scrape_store env website_url st = (inl e, st2))
  ∧ (∀ st st0 st1,
       _verify_website_access env website_url (started website_url st) = (inr true, st0) →
       run_steps (sub_steps env website_url) st0 = (inr tt, st1) →
       scrape_store env website_url st = (inr (insights st1), st1)).
Proof.
  split_and!.
  - intros st products_url Hjoin. unfold _extract_product_catalog.
    unfold bind at 1, lift at 1. rewrite Hjoin.
    match goal with |- ∃ st', try_except ?b ?h st = _ =>
      destruct (try_except_total b h st) as ([] & st' & H) end; eauto.
  - intros st st0 pre step post st1 e st2 Hacc Hsteps Hpre Hstep.
    rewrite scrape_store_steps. unfold try_except.
    rewrite (bind_inr _ _ _ _ _ Hacc). cbn [negb].
    rewrite (bind_inr (ret ()) _ st0 () st0 eq_refl).
    rewrite Hsteps.
    by rewrite (bind_inl _ _ _ _ _ (run_steps_raise _ _ _ _ _ _ _ Hpre Hstep)).
  - intros st st0 st1 Hacc Hrun.
    rewrite scrape_store_steps. unfold try_except.
    rewrite (bind_inr _ _ _ _ _ Hacc). cbn [negb].
    rewrite (bind_inr (ret ()) _ st0 () st0 eq_refl).
    by rewrite (bind_inr _ _ _ _ _ Hrun).
Qed.

Lemma scrape_store_reraises_witness :
  ∃ st2, scrape_store bracket_link home (fresh home) = (inl ValueError, st2)
         ∧ requests st2 = [home; home; "https://shop.example/products.json"; home]%string.
Proof.
  eexists. split.
  - destruct (scrape_store_reraises bracket_link home) as (_ & H & _).
    eapply (H (fresh home) _
              [_extract_brand_info bracket_link home;
               _extract_product_catalog bracket_link home]
              (_extract_hero_products bracket_link home)); [reflexivity..|].
    vm_compute. reflexivity.
  - reflexivity.
Defined.

(** C1 (as stated) fails: a homepage link that [urljoin] rejects makes the
    hero-products sub-step raise; the exception is not caught there, the
    scrape raises it, and the five sub-steps after it never run (no
    policy, FAQ or contact page is requested). *)
Lemma scrape_aborts_on_rejected_link :
  run_scrape bracket_link home
  = (inl ValueError, [home; home; "https://shop.example/products.json"; home]%string).
Proof. vm_compute. reflexivity. Qed.

End Orchestrator.

(** ** Important links *)

Section ImportantLinks.
Import PyStr Helpers Models Web ShopifyScraper Fixtures.
Local Open Scope M_scope.

(** Computations that leave the object under construction alone. *)
Lemma bind_keeps_insights {A B} (m : M A) (f : A → M B) :
  (∀ st, insights (snd (m st)) = insights st) →
  (∀ a st, insights (snd (f a st)) = insights st) →
  ∀ st, insights (snd (bind m f st)) = insights st.
Proof.
  intros Hm Hf st. unfold bind. specialize (Hm st).
  destruct (m st) as [[e|a] st1]; simpl in *; [done|]. by rewrite Hf.
Qed.

Lemma try_except_keeps_insights {A} (m : M A) (h : exn → M A) :
  (∀ st, insights (snd (m st)) = insights st) →
  (∀ e st, insights (snd (h e st)) = insights st) →
  ∀ st, insights (snd (try_except m h st)) = insights st.
Proof.
  intros Hm Hh st. unfold try_except. specialize (Hm st).
  destruct (m st) as [[e|a] st1]; simpl in *; [|done]. by rewrite Hh.
Qed.

Lemma session_get_insights env u st :
  insights (snd (session_get env u st)) = insights st.
Proof. unfold session_get. by destruct (net env u _). Qed.

Lemma make_request_loop_insights env left u st :
  insights (snd (make_request_loop env left u st)) = insights st.
Proof.
  revert st. induction left as [|left IH]; simpl;
    apply try_except_keeps_insights;
    try (apply bind_keeps_insights; [apply session_get_insights|]);
    intros; repeat case_match; done.
Qed.

Lemma _make_request_insights env u retries st x st' :
  _make_request env u retries st = (x, st') → insights st' = insights st.
Proof.
  intros H. pose proof (make_request_loop_insights env (max_retries - retries) u st) as Hi.
  unfold _make_request in H. by rewrite H in Hi.
Qed.

(** The loop over the links: each category ends up with the URL of the
    last link recorded under it. *)
Lemma record_links_last env website_url links st :
  Forall (λ link, is_Some (category_of link) →
                  ∃ u, urljoin env website_url (a_href link) = inr u) links →
  ∃ st2, for_each links (record_link env website_url) st = (inr tt, st2)
    ∧ requests st2 = requests st
    ∧ ∀ category,
        important_links (insights st2) !! category
        = match last (filter (λ link, category_of link = Some category) links) with
          | Some link =>
              match urljoin env website_url (a_href link) with
              | inr full_url => Some full_url
              | inl _ => None
              end
          | None => important_links (insights st) !! category
          end.
Proof.
  revert st. induction links as [|link rest IH]; intros st Hjoin.
  { exists st. done. }
  apply Forall_cons in Hjoin as [Hlink Hrest]. cbn [for_each].
  unfold record_link at 1. destruct (category_of link) as [c0|] eqn:Hc.
  - destruct Hlink as [u Hu]; [done|].
    unfold bind at 1, bind at 1, lift at 1. rewrite Hu. unfold modify_insights at 1.
    match goal with |- context [for_each rest _ ?s] =>
      destruct (IH s Hrest) as (st2 & Hrun & Hreq & Hmap) end.
    exists st2. split_and!; [done|done|]. intros category.
    rewrite Hmap, filter_cons. simpl. case_decide as Hcat.
    + assert (category = c0) as -> by congruence. rewrite last_cons.
      destruct (last (filter _ rest)); [done|]. by rewrite Hu, lookup_insert_eq.
    + destruct (last (filter _ rest)); [done|].
      rewrite lookup_insert_ne; [done|congruence].
  - unfold bind at 1, ret at 1.
    destruct (IH st Hrest) as (st2 & Hrun & Hreq & Hmap).
    exists st2. split_and!; [done|done|]. intros category.
    rewrite Hmap, filter_cons. case_decide; [congruence|done].
Qed.

(** C2 (as amended): in important-links extraction a link is recorded
    under the first category of the table that one of its keywords
    matches, and every later link recorded under the same category
    overwrites the entry: the URL a category ends up with is that of the
    last such homepage link. *)
Theorem important_links_last_match env website_url st response st1 :
  _make_request env website_url 0 st = (inr (Some response), st1) →
  Forall (λ link, is_Some (category_of link) →
                  ∃ u, urljoin env website_url (a_href link) = inr u)
         (anchors (soup response)) →
  ∃ st2, _extract_important_links env website_url st = (inr tt, st2)
    ∧ ∀ category,
        important_links (insights st2) !! category
        = match last (filter (λ link, category_of link = Some category)
                        (anchors (soup response))) with
          | Some link =>
              match urljoin env website_url (a_href link) with
              | inr full_url => Some full_url
              | inl _ => None
              end
          | None => important_links (insights st) !! category
          end.
Proof.
  intros Hreq Hjoin. unfold _extract_important_links.
  rewrite (bind_inr _ _ _ _ _ Hreq).
  destruct (record_links_last env website_url _ st1 Hjoin) as (st2 & Hrun & _ & Hmap).
  exists st2. split; [done|]. intros category.
  by rewrite Hmap, (_make_request_insights _ _ _ _ _ _ Hreq).
Qed.

Lemma important_links_last_match_witness :
  ∃ st2, _extract_important_links about_twice home (fresh home) = (inr tt, st2)
    ∧ ∀ category,
        important_links (insights st2) !! category
        = match last (filter (λ link, category_of link = Some category)
                        two_about_links) with
          | Some link =>
              match origin_urljoin home (a_href link) with
              | inr full_url => Some full_url
              | inl _ => None
              end
          | None => None
          end.
Proof.
  apply (important_links_last_match about_twice home (fresh home)
           {| status_code := 200; soup := with_anchors two_about_links; json_body := None |}
           {| requests := [home]; insights := new_insights home |}).
  - reflexivity.
  - repeat constructor; intros _; eexists; reflexivity.
Defined.

(** C2 (as stated) fails: of two links matching [about], the second one
    is the one recorded. *)
Lemma important_links_keep_last :
  let st := snd (_extract_important_links about_twice home (fresh home)) in
  important_links (insights st) !! "about"%string
  = Some "https://shop.example/pages/our-story"%string
  ∧ important_links (insights st) !! "about"%string
    ≠ Some "https://shop.example/pages/about-us"%string.
Proof. vm_compute. split; [reflexivity|discriminate]. Qed.

End ImportantLinks.

(** ** Social handles *)

Section SocialHandles.
Import PyStr Helpers Models Web ContentExtractor Fixtures.
Local Open Scope M_scope.

Lemma lowered_href_lower link : lowered_href link = lower (a_href link).
Proof.
  unfold lowered_href, nonempty. case_bool_decide as E; [|done]. by rewrite E.
Qed.

(** What the scan of the platforms returns was extracted from the link:
    its handle is not null. *)
Lemma scan_platforms_Some platforms href found sh :
  scan_platforms platforms href found = Some sh →
  url sh = href
  ∧ (platform sh ∉ found)
  ∧ ∃ h domains,
      handle sh = Some h
      ∧ h ≠ EmptyString
      ∧ (h ∉ (["www"; "web"; "home"]%string : list string))
      ∧ _extract_handle_from_url href (platform sh) = Some h
      ∧ (platform sh, domains) ∈ platforms
      ∧ existsb (λ domain, py_in domain href) domains = true.
Proof.
  induction platforms as [|[p domains] rest IH]; [done|]. cbn [scan_platforms].
  assert (Hrest : scan_platforms rest href found = Some sh →
                  url sh = href ∧ (platform sh ∉ found)
                  ∧ ∃ h domains0, handle sh = Some h ∧ h ≠ EmptyString
                      ∧ (h ∉ (["www"; "web"; "home"]%string : list string))
                      ∧ _extract_handle_from_url href (platform sh) = Some h
                      ∧ (platform sh, domains0) ∈ (p, domains) :: rest
                      ∧ existsb (λ domain, py_in domain href) domains0 = true).
  { intros H. destruct (IH H) as (? & ? & h & d & ? & ? & ? & ? & ? & ?).
    split_and!; [done..|]. exists h, d. split_and!; [done..| |done]. by right. }
  destruct (negb (bool_decide (p ∈ found)) && existsb _ domains) eqn:Hcond; [|done].
  apply andb_true_iff in Hcond as [Hfound Hdom].
  destruct (_extract_handle_from_url href p) as [h|] eqn:Hh; [|done].
  destruct (nonempty h && negb (bool_decide (h ∈ _))) eqn:Hok; [|done].
  intros [= <-]. simpl. apply andb_true_iff in Hok as [Hne Hjunk].
  split_and!; [done| |].
  - apply negb_true_iff in Hfound. by apply bool_decide_eq_false in Hfound.
  - exists h, domains. split_and!; [done| | |done|by left|done].
    + unfold nonempty in Hne. apply negb_true_iff in Hne.
      by apply bool_decide_eq_false in Hne.
    + apply negb_true_iff in Hjunk. by apply bool_decide_eq_false in Hjunk.
Qed.


(** Every handle the loop adds comes from a link of the page, whose
    lower-cased href is its URL, and carries the handle extracted from it. *)
Lemma social_links_loop_recorded links acc found sh :
  sh ∈ social_links_loop links acc found →
  sh ∈ acc
  ∨ ∃ link, link ∈ links
      ∧ url sh = lower (a_href link)
      ∧ ∃ h domains,
          handle sh = Some h
          ∧ h ≠ EmptyString
          ∧ (h ∉ (["www"; "web"; "home"]%string : list string))
          ∧ _extract_handle_from_url (url sh) (platform sh) = Some h
          ∧ (platform sh, domains) ∈ social_platforms
          ∧ existsb (λ domain, py_in domain (url sh)) domains = true.
Proof.
  revert acc found. induction links as [|link rest IH]; intros acc found; [by left|].
  cbn [social_links_loop].
  assert (Hskip : sh ∈ social_links_loop rest acc found →
                  sh ∈ acc ∨ ∃ link0, link0 ∈ link :: rest
                    ∧ url sh = lower (a_href link0)
                    ∧ ∃ h domains, handle sh = Some h ∧ h ≠ EmptyString
                        ∧ (h ∉ (["www"; "web"; "home"]%string : list string))
                        ∧ _extract_handle_from_url (url sh) (platform sh) = Some h
                        ∧ (platform sh, domains) ∈ social_platforms
                        ∧ existsb (λ domain, py_in domain (url sh)) domains = true).
  { intros H. destruct (IH _ _ H) as [?|(l & ? & ?)]; [by left|].
    right. exists l. split; [by right|done]. }
  destruct (startswith _ "#" || startswith _ "/"); [done|].
  destruct (scan_platforms social_platforms (lowered_href link) found) as [sh0|] eqn:Hscan;
    [|done].
  intros H. destruct (IH _ _ H) as [Hacc|(l & ? & ?)].
  - apply elem_of_app in Hacc as [?|Hnew]; [by left|].
    apply list_elem_of_singleton in Hnew as ->. right.
    apply scan_platforms_Some in Hscan as (Hurl & _ & h & d & ? & ? & ? & ? & ? & ?).
    exists link. split; [by left|]. rewrite Hurl. split; [apply lowered_href_lower|].
    by exists h, d.
  - right. exists l. split; [by right|done].
Qed.

(** [extract_social_handles] never raises; it returns nothing unless the
    homepage answers 200, and then what the loop over its links finds. *)
Lemma extract_social_handles_outcome env website_url st :
  ∃ l st', extract_social_handles env website_url st = (inr l, st')
    ∧ (l = []
       ∨ ∃ response, net env website_url (length (requests st)) = Responds response
           ∧ l = social_links_loop (anchors (soup response)) [] ∅).
Proof.
  unfold extract_social_handles, try_except, bind, session_get.
  destruct (net env website_url (length (requests st))) as [e|response] eqn:Hnet.
  - eexists _, _. split; [reflexivity|by left].
  - destruct (negb (Z.eqb (status_code response) 200)).
    + eexists _, _. split; [reflexivity|by left].
    + eexists _, _. split; [reflexivity|]. right. by exists response.
Qed.




(** C10: every SocialHandle returned has as its URL the lower-cased href
    of a link of the homepage. *)
Theorem social_handle_url_lowercase env website_url st :
  ∃ l st', extract_social_handles env website_url st = (inr l, st')
    ∧ ∀ sh, sh ∈ l →
        ∃ response link,
          net env website_url (length (requests st)) = Responds response
          ∧ link ∈ anchors (soup response)
          ∧ url sh = lower (a_href link).
Proof.
  destruct (extract_social_handles_outcome env website_url st)
    as (l & st' & Hrun & Hl).
  exists l, st'. split; [exact Hrun|]. intros sh Hsh.
  destruct Hl as [->|(response & Hnet & ->)].
  - by apply elem_of_nil in Hsh.
  - apply social_links_loop_recorded in Hsh as [Hsh|(link & ? & ? & _)];
      [by apply elem_of_nil in Hsh|].
    by exists response, link.
Qed.

End SocialHandles.

(** ** FAQs *)

Section Faqs.
Import PyStr Helpers Models Web ContentExtractor Fixtures.
Local Open Scope M_scope.

(** The deduplication loop, started with [seen_questions] holding the
    normalized questions of [unique_faqs]: what it appends. *)
Lemma unique_loop_spec faqs acc (seen : gset string) :
  (∀ k, k ∈ seen ↔ k ∈ map normalized_question acc) →
  NoDup (map normalized_question acc) →
  ∃ new,
    unique_loop faqs acc seen = acc ++ new
    ∧ NoDup (map normalized_question (acc ++ new))
    ∧ new `sublist_of` faqs
    ∧ (∀ faq, faq ∈ faqs →
              normalized_question faq ∈ map normalized_question (acc ++ new))
    ∧ (∀ faq, faq ∈ new →
         ∃ before after,
           faqs = before ++ faq :: after
           ∧ (normalized_question faq ∉ map normalized_question before)
           ∧ (normalized_question faq ∉ map normalized_question acc)).
Proof.
  revert acc seen. induction faqs as [|f rest IH]; intros acc seen Hseen Hnd.
  { exists []. rewrite app_nil_r. split_and!; [done|done|done| |].
    - intros faq H. by apply elem_of_nil in H.
    - intros faq H. by apply elem_of_nil in H. }
  cbn [unique_loop]. case_decide as Hin.
  - destruct (IH acc seen Hseen Hnd) as (new & Hrun & Hnd' & Hsub & Hall & Hfirst).
    exists new. split_and!; [done|done|by apply sublist_cons| |].
    + intros faq [->|H]%elem_of_cons; [|by apply Hall].
      rewrite map_app. apply elem_of_app. left. by apply Hseen.
    + intros faq H. destruct (Hfirst faq H) as (before & after & -> & Hb & Ha).
      exists (f :: before), after. split_and!; [done| |done].
      simpl. intros [E|?]%elem_of_cons; [|done].
      apply Ha. rewrite E. by apply Hseen.
  - assert (Hf : normalized_question f ∉ map normalized_question acc)
      by (by rewrite <- Hseen).
    destruct (IH (acc ++ [f]) ({[normalized_question f]} ∪ seen))
      as (new & Hrun & Hnd' & Hsub & Hall & Hfirst).
    { intros k. rewrite map_app, elem_of_app, elem_of_union, elem_of_singleton, Hseen.
      simpl. rewrite list_elem_of_singleton. tauto. }
    { rewrite map_app. apply NoDup_app. split_and!; [done| |by apply NoDup_singleton].
      intros k Hk [->|H]%elem_of_cons; [done|by apply elem_of_nil in H]. }
    exists (f :: new). rewrite <- app_assoc in Hrun, Hnd', Hall. simpl in *.
    split_and!; [done|done|by apply sublist_skip| |].
    + intros faq [->|H]%elem_of_cons; [|by apply Hall].
      rewrite map_app. apply elem_of_app. right. by left.
    + intros faq [->|H]%elem_of_cons.
      * exists [], rest. split_and!; [done| |done]. apply not_elem_of_nil.
      * destruct (Hfirst faq H) as (before & after & -> & Hb & Ha).
        rewrite map_app, elem_of_app in Ha.
        exists (f :: before), after. split_and!; [done| |tauto].
        simpl. intros [E|?]%elem_of_cons; [|done].
        apply Ha. right. rewrite E. by left.
Qed.

(** The properties of one parsed page. *)
Lemma _parse_faq_page_unique page :
  NoDup (map normalized_question (_parse_faq_page page))
  ∧ _parse_faq_page page `sublist_of` faq_candidates page
  ∧ (∀ faq, faq ∈ faq_candidates page →
       normalized_question faq ∈ map normalized_question (_parse_faq_page page))
  ∧ (∀ faq, faq ∈ _parse_faq_page page →
       ∃ before after,
         faq_candidates page = before ++ faq :: after
         ∧ (normalized_question faq ∉ map normalized_question before)).
Proof.
  unfold _parse_faq_page.
  destruct (unique_loop_spec (faq_candidates page) [] ∅)
    as (new & -> & Hnd & Hsub & Hall & Hfirst).
  { intros k. simpl. rewrite elem_of_empty, elem_of_nil. tauto. }
  { constructor. }
  simpl in *. split_and!; [done..|].
  intros faq H. destruct (Hfirst faq H) as (b & a & ? & ? & _). eauto.
Qed.

(** The loop over the FAQ paths, entered with nothing collected: it ends
    with nothing, or with the parse of one page that answered 200. *)
Lemma faq_path_loop_outcome env website_url paths st :
  match faq_path_loop env website_url paths [] st with
  | (inr l, _) =>
      l = []
      ∨ ∃ u k response,
          net env u k = Responds response
          ∧ status_code response = 200%Z
          ∧ l = _parse_faq_page (soup response)
  | (inl e, _) => ∃ path, path ∈ paths ∧ urljoin env website_url path = inl e
  end.
Proof.
  revert st. induction paths as [|path rest IH]; intros st; [by left|].
  assert (Hnext : ∀ st1,
    match faq_path_loop env website_url rest [] st1 with
    | (inr l, _) =>
        l = [] ∨ ∃ u k response, net env u k = Responds response
                   ∧ status_code response = 200%Z ∧ l = _parse_faq_page (soup response)
    | (inl e, _) => ∃ path0, path0 ∈ path :: rest ∧ urljoin env website_url path0 = inl e
    end).
  { intros st1. specialize (IH st1).
    destruct (faq_path_loop env website_url rest [] st1) as [[e|l] st']; [|done].
    destruct IH as (p & ? & ?). exists p. split; [by right|done]. }
  cbn [faq_path_loop]. unfold bind at 1, lift at 1.
  destruct (urljoin env website_url path) as [e|faq_url] eqn:Hjoin.
  { exists path. split; [by left|done]. }
  unfold bind at 1, try_except, bind at 1, session_get.
  destruct (net env faq_url (length (requests st))) as [e|response] eqn:Hnet.
  { apply Hnext. }
  destruct (Z.eqb (status_code response) 200) eqn:Hstatus; [|apply Hnext].
  unfold ret at 1. cbn [app].
  case_bool_decide as Hempty; cbn [negb].
  - rewrite Hempty. apply Hnext.
  - unfold ret. right. exists faq_url, (length (requests st)), response.
    split_and!; [done|by apply Z.eqb_eq|done].
Qed.

(** C8: the FAQ extractor returns at most ten FAQs, no two of them with
    the same normalized question; they are the first ten of the FAQs of
    one page after deduplication, and the deduplication keeps, in the
    order of the page, the first FAQ seen with each normalized question.
    (The extractor fails only when [urljoin] rejects one of its paths.) *)
Theorem faqs_capped_and_unique env website_url :
  (∀ st,
     match extract_faqs env website_url st with
     | (inr l, _) =>
         length l ≤ 10
         ∧ NoDup (map normalized_question l)
         ∧ (l = []
            ∨ ∃ u k response,
                net env u k = Responds response
                ∧ status_code response = 200%Z
                ∧ l = take 10 (_parse_faq_page (soup response)))
     | (inl e, _) => ∃ path, path ∈ faq_paths ∧ urljoin env website_url path = inl e
     end)
  ∧ (∀ page,
       NoDup (map normalized_question (_parse_faq_page page))
       ∧ _parse_faq_page page `sublist_of` faq_candidates page
       ∧ (∀ faq, faq ∈ faq_candidates page →
            normalized_question faq ∈ map normalized_question (_parse_faq_page page))
       ∧ (∀ faq, faq ∈ _parse_faq_page page →
            ∃ before after,
              faq_candidates page = before ++ faq :: after
              ∧ (normalized_question faq ∉ map normalized_question before))).
Proof.
  split; [|apply _parse_faq_page_unique].
  intros st. unfold extract_faqs. unfold bind at 1.
  pose proof (faq_path_loop_outcome env website_url faq_paths st) as Hloop.
  destruct (faq_path_loop env website_url faq_paths [] st) as [[e|faqs] st1]; [done|].
  assert (Hfinal : ∀ l, (l = [] ∨ ∃ u k response, net env u k = Responds response
                           ∧ status_code response = 200%Z
                           ∧ l = _parse_faq_page (soup response)) →
            length (take 10 l) ≤ 10
            ∧ NoDup (map normalized_question (take 10 l))
            ∧ (take 10 l = [] ∨ ∃ u k response, net env u k = Responds response
                 ∧ status_code response = 200%Z
                 ∧ take 10 l = take 10 (_parse_faq_page (soup response)))).
  { intros l Hl. split_and!.
    - rewrite length_take. lia.
    - destruct Hl as [->|(u & k & response & _ & _ & ->)]; [constructor|].
      destruct (_parse_faq_page_unique (soup response)) as [Hnd _].
      rewrite <- (take_drop 10 (_parse_faq_page (soup response))), map_app in Hnd.
      by apply NoDup_app in Hnd as [? _].
    - destruct Hl as [->|(u & k & response & ? & ? & ->)]; [by left|].
      right. by exists u, k, response. }
  case_bool_decide as Hempty.
  - subst faqs. unfold bind at 1, try_except, bind at 1, session_get.
    destruct (net env website_url (length (requests st1))) as [e|response] eqn:Hnet.
    { unfold ret. apply Hfinal. by left. }
    destruct (Z.eqb (status_code response) 200) eqn:Hstatus; unfold ret.
    + apply Hfinal. right. exists website_url, (length (requests st1)), response.
      split_and!; [done|by apply Z.eqb_eq|done].
    + apply Hfinal. by left.
  - unfold bind, ret. by apply Hfinal.
Qed.

End Faqs.

(** ** The model on the fixtures *)

Section Examples.
Import PyStr Helpers Models Web ContentExtractor ShopifyScraper Fixtures.

Example clean_text_collapses_whitespace :
  clean_text "  Free   shipping <today> &nbsp; only! " = "Free shipping today  only!"%string.
Proof. reflexivity. Qed.

Example clean_text_empty : clean_text EmptyString = EmptyString.
Proof. reflexivity. Qed.

Example split_ws_words :
  map str (split_ws (chars "  ab  c d ")) = ["ab"; "c"; "d"]%string.
Proof. reflexivity. Qed.

Example handle_instagram :
  _extract_handle_from_url "https://instagram.com/acme_official" "instagram"
  = Some "acme_official"%string.
Proof. reflexivity. Qed.

Example handle_youtube_channel :
  _extract_handle_from_url "https://www.youtube.com/channel/uc1234567890123456789012345" "youtube"
  = Some "Channel: uc123456789012345678..."%string.
Proof. reflexivity. Qed.

Example handle_explore_rejected :
  _extract_handle_from_url "https://instagram.com/explore/" "instagram" = None.
Proof. reflexivity. Qed.

(** Twelve FAQs on the page, one of them a repetition: ten are returned,
    the repetition is not among them. *)
Example faqs_of_faq_site :
  fst (extract_faqs faq_site home (fresh home))
  = inr (mk_faq "Do you ship abroad?" "Yes, worldwide."
           :: map (λ n : nat, mk_faq ("Question " +:+ pretty n +:+ "?")
                                ("Answer " +:+ pretty n +:+ "."))
                (seq 1 9)).
Proof. vm_compute. reflexivity. Qed.

(** The catalog takes the price of the first variant and every image. *)
Example catalog_of_feed_site :
  let st := snd (_extract_product_catalog feed_site home (fresh home)) in
  map (λ p, (p_title p, p_price p, p_available p, length (p_images p), p_url p))
    (product_catalog (insights st))
  = [(Some "Blue Mug", JStr "12.50", JBool true, 2,
      Some "https://shop.example/products/blue-mug")]%string.
Proof. vm_compute. reflexivity. Qed.

(** A site that cannot be reached: the scrape fails after the single
    access request, before any sub-step. *)
Example scrape_unreachable :
  run_scrape unreachable home = (inl NotAccessible, [home]).
Proof. vm_compute. reflexivity. Qed.

(** A reachable site with an empty homepage: every sub-step runs and the
    profile is returned, with the brand name taken from the domain. *)
Example scrape_empty_site :
  let '(r, requests) := run_scrape (home_only empty_page) home in
  (brand_name <$> (match r with inr i => Some i | inl _ => None end)) = Some (Some "Shop"%string)
  ∧ length requests = 24.
Proof. vm_compute. split; reflexivity. Qed.

End Examples.

(** ** Retries and access check *)

Section Retries.
Import PyStr Helpers Models Web ShopifyScraper Fixtures.
Local Open Scope M_scope.

(** The state after [n] more requests for [u]. *)
Lemma session_get_state env u st :
  snd (session_get env u st)
  = {| requests := requests st ++ [u]; insights := insights st |}.
Proof. unfold session_get. by destruct (net env u _). Qed.

Lemma replicate_snoc_cons (n : nat) (u : string) (l : list string) :
  (l ++ [u]) ++ replicate n u = l ++ replicate (S n) u.
Proof. by rewrite <- app_assoc. Qed.

(** X1: [_make_request] never raises; it sends between one and
    [max_retries - retries + 1] requests, all for the same URL, changes
    nothing else, and hands back a response only when that response, the
    answer to its last request, has status 200. *)
Theorem make_request_bounded env u retries st :
  ∃ o n,
    _make_request env u retries st
    = (inr o, {| requests := requests st ++ replicate n u; insights := insights st |})
    ∧ 1 ≤ n ≤ S (max_retries - retries)
    ∧ ∀ response, o = Some response →
        status_code response = 200%Z
        ∧ net env u (length (requests st) + n - 1) = Responds response.
Proof.
  unfold _make_request. generalize (max_retries - retries). intros left.
  revert st. induction left as [|left IH]; intros st.
  - cbn [make_request_loop]. unfold try_except, bind, session_get.
    destruct (net env u (length (requests st))) as [e|response] eqn:Hnet.
    + exists None, 1. unfold ret. simpl. split_and!; [done|lia|lia|done].
    + destruct (Z.eqb (status_code response) 200) eqn:Hs; unfold ret.
      * exists (Some response), 1. simpl. split_and!; [done|lia|lia|].
        intros ? [= <-]. split; [by apply Z.eqb_eq|].
        by replace (length (requests st) + 1 - 1) with (length (requests st)) by lia.
      * exists None, 1. simpl. split_and!; [done|lia|lia|done].
  - cbn [make_request_loop]. unfold try_except, bind, session_get.
    set (st1 := {| requests := requests st ++ [u]; insights := insights st |}).
    destruct (IH st1) as (o & n & Hrun & Hn & Ho).
    assert (Hretry :
      ∃ o0 n0,
        make_request_loop env left u st1
        = (inr o0, {| requests := requests st ++ replicate n0 u; insights := insights st |})
        ∧ 1 ≤ n0 ≤ S (S left)
        ∧ ∀ response, o0 = Some response →
            status_code response = 200%Z
            ∧ net env u (length (requests st) + n0 - 1) = Responds response).
    { exists o, (S n). rewrite Hrun. subst st1. cbn [requests insights].
      rewrite replicate_snoc_cons. split_and!; [done|lia|lia|].
      intros response Hr. destruct (Ho response Hr) as [? Hnet]. split; [done|].
      cbn [requests] in Hnet. rewrite length_app in Hnet. simpl in Hnet.
      by replace (length (requests st) + S n - 1)
        with (length (requests st) + 1 + n - 1) by lia. }
    destruct (net env u (length (requests st))) as [e|response] eqn:Hnet.
    + fold st1. exact Hretry.
    + destruct (Z.eqb (status_code response) 200) eqn:Hs.
      * exists (Some response), 1. unfold ret. simpl. split_and!; [done|lia|lia|].
        intros ? [= <-]. split; [by apply Z.eqb_eq|].
        by replace (length (requests st) + 1 - 1) with (length (requests st)) by lia.
      * destruct (Z.eqb (status_code response) 429) eqn:H429.
        -- fold st1. destruct Hretry as (o0 & n0 & Hrun0 & ? & ?).
           rewrite Hrun0. by exists o0, n0.
        -- exists None, 1. unfold ret. simpl. split_and!; [done|lia|lia|done].
Qed.

(** X2: an answer with a status other than 429 ends [_make_request] at
    once, whatever the number of retries left: one request is sent, and
    the response is handed back exactly when its status is 200. *)
Theorem make_request_first_answer env u retries st response :
  net env u (length (requests st)) = Responds response →
  status_code response ≠ 429%Z →
  _make_request env u retries st
  = (inr (if Z.eqb (status_code response) 200 then Some response else None),
     {| requests := requests st ++ [u]; insights := insights st |}).
Proof.
  intros Hnet H429. unfold _make_request.
  destruct (max_retries - retries) as [|left]; cbn [make_request_loop];
    unfold try_except, bind, session_get; rewrite Hnet;
    destruct (Z.eqb (status_code response) 200); try done.
  apply Z.eqb_neq in H429. by rewrite H429.
Qed.

Lemma make_request_first_answer_witness :
  _make_request first_gone "https://shop.example/products/p0" 0 (fresh home)
  = (inr None, {| requests := ["https://shop.example/products/p0"%string];
                  insights := new_insights home |}).
Proof.
  apply (make_request_first_answer first_gone "https://shop.example/products/p0" 0
           (fresh home) {| status_code := 404; soup := empty_page; json_body := None |});
    [reflexivity|done].
Defined.

(** X3: when every request for the URL raises or is answered 429,
    [_make_request] uses up its retries: it sends exactly
    [max_retries - retries + 1] requests and hands back nothing. *)
Theorem make_request_gives_up env u retries st :
  (∀ k, match net env u k with
        | Raises _ => True
        | Responds response => status_code response = 429%Z
        end) →
  _make_request env u retries st
  = (inr None, {| requests := requests st ++ replicate (S (max_retries - retries)) u;
                  insights := insights st |}).
Proof.
  intros Hfail. unfold _make_request. generalize (max_retries - retries). intros left.
  revert st. induction left as [|left IH]; intros st; cbn [make_request_loop];
    unfold try_except, bind, session_get;
    pose proof (Hfail (length (requests st))) as Hk;
    destruct (net env u (length (requests st))) as [e|response]; try done.
  - rewrite Hk. done.
  - rewrite IH. cbn [requests insights]. by rewrite replicate_snoc_cons.
  - rewrite Hk. cbn [Z.eqb Pos.eqb]. rewrite IH. cbn [requests insights].
    by rewrite replicate_snoc_cons.
Qed.

Lemma make_request_gives_up_witness :
  _make_request unreachable home 0 (fresh home)
  = (inr None, {| requests := [home; home; home; home]; insights := new_insights home |}).
Proof. apply (make_request_gives_up unreachable home 0 (fresh home)). done. Defined.

(** X4: when the access request raises or is answered with a status other
    than 200 and 403, [scrape_store] raises its not-accessible exception
    after that single request: no sub-step runs. *)
Theorem scrape_store_inaccessible env website_url st :
  match net env website_url (length (requests st)) with
  | Raises _ => True
  | Responds response => status_code response ≠ 200%Z ∧ status_code response ≠ 403%Z
  end →
  scrape_store env website_url st
  = (inl NotAccessible,
     {| requests := requests st ++ [website_url]; insights := new_insights website_url |}).
Proof.
  intros Hnet. unfold scrape_store.
  unfold bind at 1, modify_insights at 1, try_except, bind at 1.
  unfold _verify_website_access, try_except, bind at 1, session_get. cbn [requests insights].
  destruct (net env website_url (length (requests st))) as [e|response]; [done|].
  destruct Hnet as [H200 H403]. unfold ret at 1.
  rewrite bool_decide_eq_false_2; [done|].
  intros [?|[?|?%elem_of_nil]%elem_of_cons]%elem_of_cons; done.
Qed.

Lemma scrape_store_inaccessible_witness :
  scrape_store unreachable home (fresh home)
  = (inl NotAccessible, {| requests := [home]; insights := new_insights home |}).
Proof. apply (scrape_store_inaccessible unreachable home (fresh home)). done. Defined.

End Retries.

(** ** What each sub-step writes *)

Section Effects.
Import PyStr Helpers Models Web ContentExtractor ShopifyScraper Fixtures.
Local Open Scope M_scope.

Lemma make_request_state env u retries st o st' :
  _make_request env u retries st = (inr o, st') →
  insights st' = insights st.
Proof. apply _make_request_insights. Qed.

(** The resolved brand name is never blank. *)
Lemma resolve_brand_name_not_blank env website_url page :
  nonempty (resolve_brand_name env website_url page) = true
  ∧ nonempty (strip (resolve_brand_name env website_url page)) = true.
Proof.
  unfold resolve_brand_name.
  match goal with |- context [match ?b with Some _ => _ | None => _ end] =>
    destruct b as [b0|] end; [|done].
  destruct (nonempty b0 && nonempty (strip b0)) eqn:E; [|done].
  by apply andb_true_iff in E.
Qed.

(** Computations that neither read nor write the state. *)
Lemma lift_stateless {A} (x : exn + A) : ∃ r, ∀ st, lift x st = (r, st).
Proof. by exists x. Qed.

Lemma ret_stateless {A} (a : A) : ∃ r, ∀ st, ret a st = (r, st).
Proof. by exists (inr a). Qed.

Lemma bind_stateless {A B} (m : M A) (f : A → M B) :
  (∃ r, ∀ st, m st = (r, st)) →
  (∀ a, ∃ r, ∀ st, f a st = (r, st)) →
  ∃ r, ∀ st, bind m f st = (r, st).
Proof.
  intros [[e|a] Hm] Hf.
  - exists (inl e). intros st. unfold bind. by rewrite Hm.
  - destruct (Hf a) as [r Hr]. exists r. intros st. unfold bind. by rewrite Hm.
Qed.

(** Parsing a feed entry depends on the entry alone. *)
Lemma _parse_product_json_stateless env product_data base_url :
  ∃ r, ∀ st, _parse_product_json env product_data base_url st = (r, st).
Proof.
  unfold _parse_product_json.
  repeat first
    [ apply ret_stateless
    | apply lift_stateless
    | apply bind_stateless; [|intros ?]
    | match goal with
      | |- context [if ?b then _ else _] => destruct b
      | |- context [let '(_, _) := ?p in _] => destruct p
      end ].
Qed.

(** The body of the loop over the entries of the feed. *)
Lemma catalog_body_appends env website_url product_data st :
  let body := λ product_data,
    bind (_parse_product_json env product_data website_url)
         (λ product, modify_insights (append_product product)) in
  (∃ e, body product_data st = (inl e, st)
        ∧ ∀ st0, _parse_product_json env product_data website_url st0 = (inl e, st0))
  ∨ (∃ product,
       body product_data st
       = (inr tt, {| requests := requests st;
                     insights := append_product product (insights st) |})
       ∧ ∀ st0, _parse_product_json env product_data website_url st0 = (inr product, st0)).
Proof.
  intros body. subst body. cbv beta.
  destruct (_parse_product_json_stateless env product_data website_url) as [[e|product] Hr].
  - left. exists e. unfold bind. by rewrite Hr.
  - right. exists product. unfold bind. by rewrite Hr.
Qed.

(** However the loop over the feed ends, it has only appended products to
    the catalog. *)
Lemma catalog_loop_appends env website_url items st :
  ∃ products,
    snd (for_each items (λ product_data,
           bind (_parse_product_json env product_data website_url)
                (λ product, modify_insights (append_product product))) st)
    = {| requests := requests st;
         insights := foldl (λ i product, append_product product i) (insights st) products |}.
Proof.
  revert st. induction items as [|product_data rest IH]; intros st.
  { exists []. by destruct st. }
  cbn [for_each].
  destruct (catalog_body_appends env website_url product_data st)
    as [(e & He & _)|(product & Hp & _)]; cbv zeta beta in *.
  - exists []. unfold bind at 1. rewrite He. by destruct st.
  - unfold bind at 1. rewrite Hp.
    destruct (IH {| requests := requests st;
                    insights := append_product product (insights st) |}) as [products Hps].
    exists (product :: products). by rewrite Hps.
Qed.

Lemma foldl_append_product_catalog i products :
  product_catalog (foldl (λ i product, append_product product i) i products)
  = product_catalog i ++ products.
Proof.
  revert i. induction products as [|p ps IH]; intros i; simpl.
  - by rewrite app_nil_r.
  - rewrite IH. simpl. by rewrite <- app_assoc.
Qed.

(** Appending products leaves every other field as it was. *)
Lemma foldl_append_product_frame i products :
  let i' := foldl (λ i product, append_product product i) i products in
  website_url i' = website_url i ∧ brand_name i' = brand_name i
  ∧ brand_description i' = brand_description i ∧ hero_products i' = hero_products i
  ∧ privacy_policy_url i' = privacy_policy_url i
  ∧ privacy_policy_content i' = privacy_policy_content i
  ∧ return_refund_policy_url i' = return_refund_policy_url i
  ∧ return_refund_policy_content i' = return_refund_policy_content i
  ∧ faqs i' = faqs i ∧ social_handles i' = social_handles i
  ∧ contact_info i' = contact_info i ∧ important_links i' = important_links i.
Proof.
  revert i. induction products as [|p ps IH]; intros i; [done|].
  simpl. destruct (IH (append_product p i)) as (?&?&?&?&?&?&?&?&?&?&?&?).
  by split_and!.
Qed.

(** The loop over the feed: the entries before the first one that fails
    to parse are appended, in order. *)
Lemma catalog_loop_prefix env website_url goods parsed tail st0 st :
  Forall2 (λ entry product,
             _parse_product_json env entry website_url st0 = (inr product, st0))
          goods parsed →
  for_each (goods ++ tail) (λ product_data,
      bind (_parse_product_json env product_data website_url)
           (λ product, modify_insights (append_product product))) st
  = for_each tail (λ product_data,
      bind (_parse_product_json env product_data website_url)
           (λ product, modify_insights (append_product product)))
      {| requests := requests st;
         insights := foldl (λ i product, append_product product i) (insights st) parsed |}.
Proof.
  intros H. revert st. induction H as [|entry product goods parsed Hp _ IH]; intros st.
  { by destruct st. }
  cbn [app for_each foldl]. unfold bind at 1, bind at 1.
  destruct (_parse_product_json_stateless env entry website_url) as [r Hr].
  rewrite Hr in Hp. injection Hp as ->. rewrite Hr. unfold modify_insights at 1.
  by rewrite IH.
Qed.

(** X5: the catalog holds the products of the feed up to the first entry
    that fails to parse: the entries before it are appended in order, and
    that entry and every entry after it are dropped without an error.  With
    no such entry the whole feed is appended. *)
Theorem catalog_stops_at_malformed
    env website_url st products_url response st1 data products goods parsed tail :
  urljoin env website_url "/products.json" = inr products_url →
  _make_request env products_url 0 st = (inr (Some response), st1) →
  json_body response = Some data →
  dict_get data "products" (JArr []) = inr products →
  py_iter products = inr (goods ++ tail) →
  Forall2 (λ entry product,
             _parse_product_json env entry website_url st = (inr product, st))
          goods parsed →
  match tail with
  | [] => True
  | bad :: _ => ∃ e, fst (_parse_product_json env bad website_url st) = inl e
  end →
  ∃ st2, _extract_product_catalog env website_url st = (inr tt, st2)
         ∧ requests st2 = requests st1
         ∧ product_catalog (insights st2) = product_catalog (insights st) ++ parsed.
Proof.
  intros Hjoin Hreq Hjson Hget Hiter Hgoods Htail. unfold _extract_product_catalog.
  unfold bind at 1, lift at 1. rewrite Hjoin. unfold try_except.
  rewrite (bind_inr _ _ _ _ _ Hreq). rewrite Hjson. cbn [from_option].
  unfold bind at 1, lift at 1. unfold bind at 1, lift at 1. rewrite Hget.
  unfold bind at 1, lift at 1. rewrite Hiter.
  rewrite (catalog_loop_prefix _ _ _ _ _ _ _ Hgoods).
  rewrite (make_request_state _ _ _ _ _ _ Hreq).
  destruct tail as [|bad rest].
  - cbn [for_each]. unfold ret. eexists. split; [reflexivity|]. cbn [requests insights].
    split; [done|apply foldl_append_product_catalog].
  - destruct Htail as [e He]. cbn [for_each]. unfold bind at 1, bind at 1.
    destruct (_parse_product_json_stateless env bad website_url) as [r Hr].
    rewrite Hr in He. simpl in He. subst r. rewrite Hr. unfold ret.
    eexists. split; [reflexivity|]. cbn [requests insights].
    split; [done|apply foldl_append_product_catalog].
Qed.

Lemma catalog_stops_at_malformed_witness :
  ∃ st2, _extract_product_catalog broken_feed_site home (fresh home) = (inr tt, st2)
         ∧ requests st2 = ["https://shop.example/products.json"%string]
         ∧ product_catalog (insights st2) = [mug_product].
Proof.
  apply (catalog_stops_at_malformed broken_feed_site home (fresh home)
           "https://shop.example/products.json"
           {| status_code := 200; soup := empty_page; json_body := Some broken_feed |}
           {| requests := ["https://shop.example/products.json"%string];
              insights := new_insights home |}
           broken_feed (JArr [mug; JStr "oops"; preorder])
           [mug] [mug_product] [JStr "oops"; preorder]); try reflexivity.
  - repeat constructor.
  - by exists AttributeError.
Defined.

Lemma lift_keeps_insights {A} (x : exn + A) st :
  insights (snd (lift x st)) = insights st.
Proof. done. Qed.

Lemma ret_keeps_insights {A} (a : A) st :
  insights (snd (ret a st)) = insights st.
Proof. done. Qed.

Lemma _make_request_keeps_insights env u retries st :
  insights (snd (_make_request env u retries st)) = insights st.
Proof. apply make_request_loop_insights. Qed.

Lemma _scrape_individual_product_keeps_insights env u st :
  insights (snd (_scrape_individual_product env u st)) = insights st.
Proof.
  revert st. unfold _scrape_individual_product.
  apply bind_keeps_insights; [apply _make_request_keeps_insights|].
  by intros [response|] st.
Qed.

Lemma hero_loop_keeps_insights env website_url links acc st :
  insights (snd (hero_loop env website_url links acc st)) = insights st.
Proof.
  revert acc st. induction links as [|link rest IH]; intros acc; [done|].
  cbn [hero_loop]. destruct (py_in "/products/" (a_href link)); [|apply IH].
  apply bind_keeps_insights; [apply lift_keeps_insights|]. intros product_url.
  apply bind_keeps_insights; [|intros; apply IH].
  case_bool_decide; [|apply ret_keeps_insights].
  apply bind_keeps_insights; [apply _scrape_individual_product_keeps_insights|].
  by intros [product|] st.
Qed.

Lemma faq_path_loop_keeps_insights env website_url paths faqs st :
  insights (snd (faq_path_loop env website_url paths faqs st)) = insights st.
Proof.
  revert faqs st. induction paths as [|path rest IH]; intros faqs; [done|].
  cbn [faq_path_loop].
  apply bind_keeps_insights; [apply lift_keeps_insights|]. intros faq_url.
  apply bind_keeps_insights.
  - apply try_except_keeps_insights; [|done].
    apply bind_keeps_insights; [apply session_get_insights|].
    intros response st. by destruct (Z.eqb _ _).
  - intros [faqs' stop] st. destruct stop; [done|apply IH].
Qed.

Lemma extract_faqs_keeps_insights env website_url st :
  insights (snd (extract_faqs env website_url st)) = insights st.
Proof.
  revert st. unfold extract_faqs.
  apply bind_keeps_insights; [apply faq_path_loop_keeps_insights|]. intros faqs.
  apply bind_keeps_insights; [|done].
  case_bool_decide; [|done].
  apply try_except_keeps_insights; [|done].
  apply bind_keeps_insights; [apply session_get_insights|].
  intros response st. by destruct (Z.eqb _ _).
Qed.

Lemma extract_social_handles_keeps_insights env website_url st :
  insights (snd (extract_social_handles env website_url st)) = insights st.
Proof.
  revert st. unfold extract_social_handles.
  apply try_except_keeps_insights; [|done].
  apply bind_keeps_insights; [apply session_get_insights|].
  intros response st. by destruct (negb _).
Qed.

Lemma contact_path_loop_keeps_insights env website_url paths emails phones st :
  insights (snd (contact_path_loop env website_url paths emails phones st)) = insights st.
Proof.
  revert emails phones st. induction paths as [|path rest IH]; intros emails phones; [done|].
  cbn [contact_path_loop].
  apply bind_keeps_insights; [apply lift_keeps_insights|]. intros contact_url.
  apply bind_keeps_insights.
  - apply try_except_keeps_insights; [|done].
    apply bind_keeps_insights; [apply session_get_insights|].
    intros response st. by destruct (Z.eqb _ _).
  - intros [[emails' phones'] stop] st. destruct stop; [done|apply IH].
Qed.

Lemma extract_contact_info_keeps_insights env website_url st :
  insights (snd (extract_contact_info env website_url st)) = insights st.
Proof.
  revert st. unfold extract_contact_info.
  apply bind_keeps_insights; [apply contact_path_loop_keeps_insights|].
  intros [emails phones].
  apply bind_keeps_insights.
  - destruct (_ && _); [|done].
    apply try_except_keeps_insights; [|done].
    apply bind_keeps_insights; [apply session_get_insights|].
    intros response st. by destruct (Z.eqb _ _).
  - intros [emails' phones'] st. by destruct (_ || _).
Qed.

(** Only five of the eight platforms have a handle pattern. *)
Lemma handle_only_for_patterned u p h :
  _extract_handle_from_url u p = Some h →
  p ∈ (["instagram"; "facebook"; "twitter"; "x"; "tiktok"; "youtube"]%string : list string).
Proof.
  unfold _extract_handle_from_url.
  destruct (bool_decide (p = "instagram"%string)) eqn:E1;
    [apply bool_decide_eq_true in E1 as ->; intros _; by repeat constructor|].
  destruct (bool_decide (p = "facebook"%string)) eqn:E2;
    [apply bool_decide_eq_true in E2 as ->; intros _; by repeat constructor|].
  destruct (bool_decide (p ∈ _)) eqn:E3.
  { apply bool_decide_eq_true in E3. intros _.
    apply elem_of_cons in E3 as [->|E3]; [by repeat constructor|].
    apply list_elem_of_singleton in E3 as ->. by repeat constructor. }
  destruct (bool_decide (p = "tiktok"%string)) eqn:E4;
    [apply bool_decide_eq_true in E4 as ->; intros _; by repeat constructor|].
  destruct (bool_decide (p = "youtube"%string)) eqn:E5;
    [apply bool_decide_eq_true in E5 as ->; intros _; by repeat constructor|].
  done.
Qed.

(** A platform of the table that has a handle pattern is one of these
    five. *)
Lemma patterned_platforms :
  Forall (λ pd : string * list string,
            pd.1 ∈ (["instagram"; "facebook"; "twitter"; "x"; "tiktok"; "youtube"]%string
                      : list string) →
            pd.1 ∈ (["facebook"; "instagram"; "twitter"; "tiktok"; "youtube"]%string
                      : list string))
         social_platforms.
Proof. apply (bool_decide_unpack _). vm_compute. exact I. Qed.

(** Whatever holds of the handles collected so far and of every handle a
    scan of a non-relative link yields, holds of all handles the loop
    returns. *)
Lemma social_links_loop_Forall (P : SocialHandle → Prop) links acc found :
  Forall P acc →
  (∀ link sh found',
     link ∈ links →
     startswith (lowered_href link) "#" || startswith (lowered_href link) "/" = false →
     scan_platforms social_platforms (lowered_href link) found' = Some sh → P sh) →
  Forall P (social_links_loop links acc found).
Proof.
  revert acc found. induction links as [|link rest IH]; intros acc found Hacc Hscan; [done|].
  cbn [social_links_loop].
  assert (Hrest : ∀ link0 sh found', link0 ∈ rest →
            startswith (lowered_href link0) "#" || startswith (lowered_href link0) "/" = false →
            scan_platforms social_platforms (lowered_href link0) found' = Some sh → P sh).
  { intros l sh f Hl. apply Hscan. by right. }
  destruct (startswith _ "#" || startswith _ "/") eqn:Hrel; [by apply IH|].
  destruct (scan_platforms social_platforms (lowered_href link) found) as [sh|] eqn:Hsh;
    [|by apply IH].
  apply IH; [|done]. apply Forall_app. split; [done|].
  constructor; [|done]. apply (Hscan link sh found); [by left|done..].
Qed.

(** The loop never records a platform twice. *)
Lemma social_links_loop_NoDup links acc (found : gset string) :
  (∀ p, p ∈ found ↔ p ∈ map platform acc) →
  NoDup (map platform acc) →
  NoDup (map platform (social_links_loop links acc found)).
Proof.
  revert acc found. induction links as [|link rest IH]; intros acc found Hfound Hnd; [done|].
  cbn [social_links_loop].
  destruct (startswith _ "#" || startswith _ "/"); [by apply IH|].
  destruct (scan_platforms social_platforms (lowered_href link) found) as [sh|] eqn:Hsh;
    [|by apply IH].
  apply scan_platforms_Some in Hsh as (_ & Hnew & _).
  apply IH.
  - intros p. rewrite map_app, elem_of_app, elem_of_union, elem_of_singleton, Hfound.
    simpl. rewrite list_elem_of_singleton. tauto.
  - rewrite map_app. apply NoDup_app. split_and!; [done| |by apply NoDup_singleton].
    intros p Hp [->|H]%elem_of_cons; [by apply Hnew, Hfound|by apply elem_of_nil in H].
Qed.

(** What the loop over the links collects from scratch: one handle per
    platform, only for the five platforms that have a handle pattern, never
    for a relative link. *)
Lemma social_links_loop_bounds links :
  let l := social_links_loop links [] ∅ in
  NoDup (map platform l)
  ∧ Forall (λ sh,
      platform sh ∈ (["facebook"; "instagram"; "twitter"; "tiktok"; "youtube"]%string
                       : list string)
      ∧ startswith (url sh) "#" = false
      ∧ startswith (url sh) "/" = false) l
  ∧ length l ≤ 5.
Proof.
  intros l.
  assert (Hnd : NoDup (map platform l)).
  { apply social_links_loop_NoDup; [|constructor].
    intros p. simpl. rewrite elem_of_empty, elem_of_nil. tauto. }
  assert (Hall : Forall (λ sh,
      platform sh ∈ (["facebook"; "instagram"; "twitter"; "tiktok"; "youtube"]%string
                       : list string)
      ∧ startswith (url sh) "#" = false
      ∧ startswith (url sh) "/" = false) l).
  { apply social_links_loop_Forall; [constructor|].
    intros link sh found' _ Hrel Hsh.
    apply scan_platforms_Some in Hsh as (Hurl & _ & h & d & _ & _ & _ & Hh & Hp & _).
    apply orb_false_iff in Hrel as [H1 H2]. rewrite Hurl. split_and!; [|done..].
    apply handle_only_for_patterned in Hh.
    by apply (proj1 (Forall_forall _ _) patterned_platforms (platform sh, d) Hp). }
  split_and!; [done..|].
  rewrite <- (length_map platform).
  change 5 with (length (["facebook"; "instagram"; "twitter"; "tiktok"; "youtube"]%string
                           : list string)).
  apply submseteq_length, NoDup_submseteq; [done|].
  intros p (sh & -> & Hsh)%list_elem_of_fmap.
  by destruct (proj1 (Forall_forall _ _) Hall sh Hsh).
Qed.

(** X6: [extract_social_handles] never raises and sends one request, for
    the homepage.  It returns at most one handle per platform, only for
    facebook, instagram, twitter, tiktok and youtube (the platforms that
    have a handle pattern), so at most five, and never for a link whose
    href starts with [#] or [/]. *)
Theorem social_handles_one_per_platform env website_url st :
  ∃ l,
    extract_social_handles env website_url st
    = (inr l, {| requests := requests st ++ [website_url]; insights := insights st |})
    ∧ NoDup (map platform l)
    ∧ length l ≤ 5
    ∧ ∀ sh, sh ∈ l →
        platform sh ∈ (["facebook"; "instagram"; "twitter"; "tiktok"; "youtube"]%string
                         : list string)
        ∧ startswith (url sh) "#" = false
        ∧ startswith (url sh) "/" = false.
Proof.
  unfold extract_social_handles, try_except, bind, session_get.
  destruct (net env website_url (length (requests st))) as [e|response].
  - exists []. split_and!; [done|constructor|simpl; lia|]. intros sh H. by apply elem_of_nil in H.
  - destruct (negb (Z.eqb (status_code response) 200)).
    + exists []. split_and!; [done|constructor|simpl; lia|].
      intros sh H. by apply elem_of_nil in H.
    + destruct (social_links_loop_bounds (anchors (soup response))) as (Hnd & Hall & Hfive).
      eexists. split_and!; [reflexivity|done|done|].
      by apply Forall_forall.
Qed.

(** The loop over the contact paths raises only what [urljoin] raises on
    one of them. *)
Lemma contact_path_loop_raises env website_url paths emails phones st e st' :
  contact_path_loop env website_url paths emails phones st = (inl e, st') →
  ∃ path, path ∈ paths ∧ urljoin env website_url path = inl e.
Proof.
  revert emails phones st. induction paths as [|path rest IH]; intros emails phones st;
    [done|].
  cbn [contact_path_loop]. unfold bind at 1, lift at 1.
  destruct (urljoin env website_url path) as [e0|contact_url] eqn:Hjoin.
  { intros [= <- _]. exists path. split; [by left|done]. }
  unfold bind at 1, try_except, bind at 1, session_get.
  assert (Hrest : ∀ em ph st1,
            contact_path_loop env website_url rest em ph st1 = (inl e, st') →
            ∃ path0, path0 ∈ path :: rest ∧ urljoin env website_url path0 = inl e).
  { intros em ph st1 H. destruct (IH _ _ _ H) as (p & ? & ?). exists p. split; [by right|done]. }
  destruct (net env contact_url (length (requests st))) as [e0|response]; [apply Hrest|].
  destruct (Z.eqb (status_code response) 200); [|apply Hrest].
  unfold ret at 1. destruct (_ || _); [done|apply Hrest].
Qed.

(** What [extract_contact_info] returns, when it returns. *)
Lemma extract_contact_info_returns env website_url st o st' :
  extract_contact_info env website_url st = (inr o, st') →
  insights st' = insights st
  ∧ ∀ ci, o = Some ci →
      length (emails ci) ≤ 5
      ∧ length (phone_numbers ci) ≤ 3
      ∧ (emails ci ≠ [] ∨ phone_numbers ci ≠ [])
      ∧ address ci = None.
Proof.
  pose proof (extract_contact_info_keeps_insights env website_url st) as Hkeep.
  intros Hrun. rewrite Hrun in Hkeep. split; [done|]. clear Hkeep. revert Hrun.
  unfold extract_contact_info. unfold bind at 1.
  destruct (contact_path_loop env website_url contact_paths [] [] st)
    as [[e|[emails0 phones0]] st1]; [done|].
  unfold bind at 1.
  match goal with |- context [match ?m st1 with _ => _ end] =>
    destruct (m st1) as [[e|[emails1 phones1]] st2] end; [done|].
  destruct (negb (bool_decide (set_order env _ = [])) || _) eqn:Hany; unfold ret.
  - intros [= <- _] ci [= <-]. simpl. rewrite !length_take.
    split_and!; [lia|lia| |done].
    apply orb_true_iff in Hany as [H|H]; apply negb_true_iff, bool_decide_eq_false in H.
    + left. by destruct (set_order env _).
    + right. by destruct (set_order env phones1).
  - by intros [= <- _].
Qed.

(** X7: [extract_contact_info] leaves the profile alone and fails only
    when [urljoin] rejects one of the contact paths.  What it returns is
    either nothing or a ContactInfo with at most five emails and at most
    three phone numbers, at least one of the two lists non-empty, and no
    address. *)
Theorem contact_info_bounds env website_url st :
  match extract_contact_info env website_url st with
  | (inr o, st') =>
      insights st' = insights st
      ∧ ∀ ci, o = Some ci →
          length (emails ci) ≤ 5
          ∧ length (phone_numbers ci) ≤ 3
          ∧ (emails ci ≠ [] ∨ phone_numbers ci ≠ [])
          ∧ address ci = None
  | (inl e, _) => ∃ path, path ∈ contact_paths ∧ urljoin env website_url path = inl e
  end.
Proof.
  destruct (extract_contact_info env website_url st) as [[e|o] st'] eqn:Hrun.
  - revert Hrun. unfold extract_contact_info. unfold bind at 1.
    destruct (contact_path_loop env website_url contact_paths [] [] st)
      as [[e0|[emails0 phones0]] st1] eqn:Hloop.
    + intros [= <- _]. by apply contact_path_loop_raises in Hloop.
    + unfold bind at 1.
      match goal with |- context [match ?m st1 with _ => _ end] =>
        assert (Hm : ∃ x st2, m st1 = (inr x, st2)) end.
      { destruct (_ && _); [|by eexists _, _].
        apply try_except_total. intros e1 st2. by eexists _, _. }
      destruct Hm as ([emails1 phones1] & st2 & ->). by destruct (_ || _).
  - by apply extract_contact_info_returns in Hrun.
Qed.

Lemma py_in_nonempty sub s : sub ≠ EmptyString → py_in sub s = true → nonempty s = true.
Proof.
  intros Hsub. unfold py_in, nonempty. case_bool_decide as E; [|done]. subst s.
  destruct (chars sub) eqn:Hc; [|done].
  exfalso. apply Hsub. rewrite <- (str_chars sub), Hc. done.
Qed.

(** Every method of the FAQ parser requires a question and an answer that
    are not empty once cleaned. *)
Lemma faq_candidates_filled page :
  Forall (λ faq, nonempty (question faq) = true ∧ nonempty (answer faq) = true
                 ∧ category faq = None)
         (faq_candidates page).
Proof.
  assert (H1 : Forall (λ faq, nonempty (question faq) = true ∧ nonempty (answer faq) = true
                               ∧ category faq = None) (accordion_faqs page)).
  { unfold accordion_faqs. apply Forall_flat_map, Forall_forall.
    intros [[q|] [a|]] _; try by constructor.
    destruct (nonempty (clean_text q) && nonempty (clean_text a)) eqn:E; [|constructor].
    apply andb_true_iff in E as [? ?]. by repeat constructor. }
  assert (H2 : Forall (λ faq, nonempty (question faq) = true ∧ nonempty (answer faq) = true
                               ∧ category faq = None) (dt_faqs page)).
  { unfold dt_faqs. apply Forall_flat_map, Forall_forall.
    intros [q [a|]] _; try by constructor.
    destruct (nonempty (clean_text q) && nonempty (clean_text a)) eqn:E; [|constructor].
    apply andb_true_iff in E as [? ?]. by repeat constructor. }
  assert (H3 : Forall (λ faq, nonempty (question faq) = true ∧ nonempty (answer faq) = true
                               ∧ category faq = None) (header_faqs page)).
  { unfold header_faqs. apply Forall_flat_map, Forall_forall.
    intros [q [a|]] _; simpl; destruct (py_in "?" (clean_text q)) eqn:Hq;
      try by constructor.
    destruct (nonempty (clean_text a)) eqn:E; [|constructor].
    repeat constructor; [|done]. simpl. by apply (py_in_nonempty "?"). }
  assert (H4 : Forall (λ faq, nonempty (question faq) = true ∧ nonempty (answer faq) = true
                               ∧ category faq = None) (pattern_faqs page)).
  { unfold pattern_faqs. apply Forall_flat_map, Forall_forall. intros matches _.
    apply Forall_flat_map, Forall_forall. intros [q a] _. simpl.
    match goal with |- context [if ?c then _ else _] => destruct c eqn:E end; [|constructor].
    apply andb_true_iff in E as [E _]. apply andb_true_iff in E as [? ?].
    by repeat constructor. }
  assert (H5 : Forall (λ faq, nonempty (question faq) = true ∧ nonempty (answer faq) = true
                               ∧ category faq = None) (list_item_faqs page)).
  { unfold list_item_faqs. apply Forall_flat_map, Forall_forall. intros item _.
    destruct (py_in "?" (clean_text item) && bool_decide (20 < len (clean_text item)));
      [|constructor].
    match goal with |- context [if ?c then _ else _] => destruct c eqn:E end; [|constructor].
    apply andb_true_iff in E as [E _]. apply andb_true_iff in E as [? ?].
    by repeat constructor. }
  unfold faq_candidates, if_none_yet.
  destruct (accordion_faqs page); [|done]. cbn [app].
  destruct (dt_faqs page); [|done]. cbn [app].
  destruct (header_faqs page); [|done]. cbn [app].
  destruct (pattern_faqs page); [|done]. cbn [app]. done.
Qed.

(** What [extract_faqs] returns, when it returns: nothing, or the first
    ten FAQs of the parse of one page. *)
Lemma extract_faqs_returns env website_url st l st' :
  extract_faqs env website_url st = (inr l, st') →
  l = [] ∨ ∃ page, l = take 10 (_parse_faq_page page).
Proof.
  unfold extract_faqs. unfold bind at 1.
  pose proof (faq_path_loop_outcome env website_url faq_paths st) as Hloop.
  destruct (faq_path_loop env website_url faq_paths [] st) as [[e|faqs] st1]; [done|].
  assert (Hfaqs : faqs = [] ∨ ∃ page, faqs = _parse_faq_page page).
  { destruct Hloop as [->|(_ & _ & response & _ & _ & ->)]; [by left|right; eauto]. }
  case_bool_decide as Hempty.
  - unfold bind at 1, try_except, bind at 1, session_get.
    destruct (net env website_url (length (requests st1))) as [e|response].
    + unfold ret. intros [= <- _]. subst faqs. by left.
    + destruct (Z.eqb (status_code response) 200); unfold ret; intros [= <- _].
      * right. by exists (soup response).
      * subst faqs. by left.
  - unfold bind, ret. intros [= <- _]. destruct Hfaqs as [->|[page ->]]; [by left|].
    right. by exists page.
Qed.

(** X8: every FAQ that [extract_faqs] returns has a question and an
    answer that are not empty, and no category. *)
Theorem faqs_are_filled env website_url st l st' :
  extract_faqs env website_url st = (inr l, st') →
  ∀ faq, faq ∈ l →
    question faq ≠ EmptyString ∧ answer faq ≠ EmptyString ∧ category faq = None.
Proof.
  intros Hrun faq Hfaq.
  apply extract_faqs_returns in Hrun as [->|[page ->]]; [by apply elem_of_nil in Hfaq|].
  apply subseteq_take in Hfaq.
  destruct (_parse_faq_page_unique page) as (_ & Hsub & _).
  apply (sublist_subseteq _ _ Hsub) in Hfaq.
  destruct (proj1 (Forall_forall _ _) (faq_candidates_filled page) faq Hfaq) as (Hq & Ha & Hc).
  unfold nonempty in *. apply negb_true_iff, bool_decide_eq_false in Hq, Ha. done.
Qed.

Lemma faqs_are_filled_witness :
  question (mk_faq "Do you ship abroad?" "Yes, worldwide.") ≠ EmptyString
  ∧ answer (mk_faq "Do you ship abroad?" "Yes, worldwide.") ≠ EmptyString
  ∧ category (mk_faq "Do you ship abroad?" "Yes, worldwide.") = None.
Proof.
  apply (faqs_are_filled
           (site_env (λ u, if bool_decide (u = "https://shop.example/pages/faq")
                           then ok (faq_page [("Do you ship abroad?", "Yes, worldwide.")]%string)
                           else not_found))
           home (fresh home)
           [mk_faq "Do you ship abroad?" "Yes, worldwide."]
           {| requests := ["https://shop.example/pages/faq"%string];
              insights := new_insights home |}).
  - reflexivity.
  - by left.
Defined.

Lemma len_slice_to n t : len (slice_to n t) ≤ n.
Proof. unfold len, slice_to. rewrite chars_str, length_take. lia. Qed.

(** One policy loop: it writes nothing, or the URL joined from one of its
    paths together with at most 2000 characters of content. *)
Lemma policy_loop_effect env website_url paths record st r st' :
  policy_loop env website_url paths record st = (r, st') →
  match r with
  | inr _ =>
      insights st' = insights st
      ∨ ∃ path policy_url content,
          path ∈ paths
          ∧ urljoin env website_url path = inr policy_url
          ∧ len content ≤ 2000
          ∧ insights st' = record policy_url content (insights st)
  | inl e =>
      insights st' = insights st
      ∧ ∃ path, path ∈ paths ∧ urljoin env website_url path = inl e
  end.
Proof.
  revert st. induction paths as [|path rest IH]; intros st.
  { intros [= <- <-]. by left. }
  cbn [policy_loop]. unfold bind at 1, lift at 1.
  destruct (urljoin env website_url path) as [e|policy_url] eqn:Hjoin.
  { intros [= <- <-]. split; [done|]. exists path. split; [by left|done]. }
  unfold bind at 1.
  destruct (_make_request env policy_url 0 st) as [[e|[response|]] st1] eqn:Hreq.
  - destruct (_make_request_total env policy_url 0 st) as (? & ? & Ht).
    by rewrite Hreq in Ht.
  - unfold modify_insights. intros [= <- <-]. right.
    exists path, policy_url, (slice_to 2000 (clean_text (page_text (soup response)))).
    split_and!; [by left|done|apply len_slice_to|].
    cbn [insights]. by rewrite (make_request_state _ _ _ _ _ _ Hreq).
  - intros H. apply IH in H. rewrite (make_request_state _ _ _ _ _ _ Hreq) in H.
    destruct r as [e|[]].
    + destruct H as (? & p & ? & ?). split; [done|]. exists p. split; [by right|done].
    + destruct H as [?|(p & u & c & ? & ? & ? & ?)]; [by left|].
      right. exists p, u, c. split_and!; [by right|done..].
Qed.

(** The two policy loops in sequence: what the privacy loop wrote, then
    what the return loop wrote on top of it. *)
Lemma policy_loops_effect env website_url st st' :
  _extract_policies env website_url st = (inr tt, st') →
  ∃ i1,
    (i1 = insights st
     ∨ ∃ path policy_url content,
         path ∈ privacy_paths
         ∧ urljoin env website_url path = inr policy_url
         ∧ len content ≤ 2000
         ∧ i1 = set_privacy_policy policy_url content (insights st))
    ∧ (insights st' = i1
       ∨ ∃ path policy_url content,
           path ∈ return_paths
           ∧ urljoin env website_url path = inr policy_url
           ∧ len content ≤ 2000
           ∧ insights st' = set_return_refund_policy policy_url content i1).
Proof.
  unfold _extract_policies. intros H.
  apply bind_inv in H as ([] & st1 & H1 & H2).
  apply policy_loop_effect in H1, H2. exists (insights st1). split; [|done].
  destruct H1 as [->|H1]; [by left|by right].
Qed.



Lemma _verify_website_access_keeps_insights env u st :
  insights (snd (_verify_website_access env u st)) = insights st.
Proof.
  revert st. unfold _verify_website_access.
  apply try_except_keeps_insights; [|done].
  by apply bind_keeps_insights; [apply session_get_insights|].
Qed.

(** The brand sub-step writes the brand name, possibly the description,
    or nothing. *)
Lemma brand_info_effect env website_url st :
  ∃ st', _extract_brand_info env website_url st = (inr tt, st')
    ∧ (insights st' = insights st
       ∨ ∃ page,
           insights st' = set_brand_name (resolve_brand_name env website_url page) (insights st)
           ∨ ∃ d, insights st'
                  = set_brand_description d
                      (set_brand_name (resolve_brand_name env website_url page) (insights st))).
Proof.
  unfold _extract_brand_info.
  destruct (_make_request_total env website_url 0 st) as (o & st1 & Hreq).
  rewrite (bind_inr _ _ _ _ _ Hreq). rewrite <- (make_request_state _ _ _ _ _ _ Hreq).
  destruct o as [response|]; [|eexists; split; [reflexivity|by left]].
  unfold bind, modify_insights at 1.
  destruct (meta_description (soup response)) as [content|].
  - eexists. split; [reflexivity|]. right. exists (soup response). right. by eexists.
  - eexists. split; [reflexivity|]. right. exists (soup response). by left.
Qed.

(** The catalog sub-step only appends products. *)
Lemma product_catalog_effect env website_url st st' :
  _extract_product_catalog env website_url st = (inr tt, st') →
  ∃ products,
    insights st' = foldl (λ i product, append_product product i) (insights st) products.
Proof.
  unfold _extract_product_catalog. intros H.
  apply bind_lift_inv in H as (products_url & _ & H). revert H. unfold try_except.
  destruct (_make_request env products_url 0 st) as [[e|o] st1] eqn:Hreq.
  { destruct (_make_request_total env products_url 0 st) as (? & ? & Ht).
    by rewrite Hreq in Ht. }
  rewrite (bind_inr _ _ _ _ _ Hreq). rewrite <- (make_request_state _ _ _ _ _ _ Hreq).
  assert (Hnone : ∀ st2 (x : exn + unit), insights st2 = insights st1 →
            (x, st2) = (inr tt, st') →
            ∃ products, insights st'
              = foldl (λ i product, append_product product i) (insights st1) products).
  { intros st2 x Hi [= _ <-]. by exists []. }
  destruct o as [response|]; [|by apply (Hnone st1 (inr tt))].
  unfold bind at 1, lift at 1.
  destruct (json_body response) as [data|]; cbn [from_option];
    [|unfold ret; by apply (Hnone st1 (inr tt))].
  unfold bind at 1, lift at 1.
  destruct (dict_get data "products" (JArr [])) as [e|products];
    [unfold ret; by apply (Hnone st1 (inr tt))|].
  unfold bind at 1, lift at 1.
  destruct (py_iter products) as [e|items]; [unfold ret; by apply (Hnone st1 (inr tt))|].
  destruct (catalog_loop_appends env website_url items st1) as [ps Hps].
  match goal with |- context [for_each items ?b st1] =>
    destruct (for_each items b st1) as [[e|[]] st2] end;
    simpl in Hps; subst st2; unfold ret; intros [= <-]; by exists ps.
Qed.

(** The hero sub-step writes the hero products, at most six, or nothing. *)
Lemma hero_products_effect env website_url st st' :
  _extract_hero_products env website_url st = (inr tt, st') →
  insights st' = insights st
  ∨ ∃ l, insights st' = set_hero_products (take 6 l) (insights st).
Proof.
  unfold _extract_hero_products. intros H.
  apply bind_inv in H as (o & st1 & Hreq & H).
  rewrite <- (make_request_state _ _ _ _ _ _ Hreq).
  destruct o as [response|]; [|apply ret_inv in H as [_ <-]; by left].
  apply bind_inv in H as (l & st2 & Hloop & H).
  pose proof (hero_loop_keeps_insights env website_url (anchors (soup response)) [] st1) as Hk.
  rewrite Hloop in Hk. simpl in Hk. unfold modify_insights in H. injection H as <-.
  right. exists l. simpl. by rewrite Hk.
Qed.

Lemma link_category_in_table table href text c :
  link_category table href text = Some c → c ∈ map fst table.
Proof.
  induction table as [|[category keywords] rest IH]; [done|]. cbn [link_category].
  destruct (existsb _ keywords).
  - intros [= <-]. by left.
  - intros H. right. by apply IH.
Qed.

(** The links sub-step only sets entries of the links map, under
    categories of the table. *)
Lemma record_links_effect env website_url links st r st' :
  for_each links (record_link env website_url) st = (r, st') →
  ∃ entries : list (string * string),
    Forall (λ kv, kv.1 ∈ map fst important_keywords) entries
    ∧ insights st' = foldl (λ i kv, set_important_link kv.1 kv.2 i) (insights st) entries.
Proof.
  revert st. induction links as [|link rest IH]; intros st.
  { intros [= _ <-]. by exists []. }
  cbn [for_each]. unfold bind at 1, record_link at 1.
  destruct (category_of link) as [c|] eqn:Hc.
  - unfold bind at 1, lift at 1.
    destruct (urljoin env website_url (a_href link)) as [e|full_url].
    { intros [= _ <-]. by exists []. }
    unfold modify_insights at 1. intros H. apply IH in H as (entries & Hall & ->).
    exists ((c, full_url) :: entries). split; [|done].
    constructor; [|done]. by apply link_category_in_table in Hc.
  - unfold ret at 1. apply IH.
Qed.

Lemma foldl_set_important_link_frame i (entries : list (string * string)) :
  let i' := foldl (λ i kv, set_important_link kv.1 kv.2 i) i entries in
  website_url i' = website_url i ∧ brand_name i' = brand_name i
  ∧ brand_description i' = brand_description i ∧ product_catalog i' = product_catalog i
  ∧ hero_products i' = hero_products i
  ∧ privacy_policy_url i' = privacy_policy_url i
  ∧ privacy_policy_content i' = privacy_policy_content i
  ∧ return_refund_policy_url i' = return_refund_policy_url i
  ∧ return_refund_policy_content i' = return_refund_policy_content i
  ∧ faqs i' = faqs i ∧ social_handles i' = social_handles i
  ∧ contact_info i' = contact_info i.
Proof.
  revert i. induction entries as [|kv entries IH]; intros i; [done|].
  simpl. destruct (IH (set_important_link kv.1 kv.2 i)) as (?&?&?&?&?&?&?&?&?&?&?&?).
  by split_and!.
Qed.

Lemma foldl_set_important_link_keys i (entries : list (string * string)) c :
  is_Some (important_links (foldl (λ i kv, set_important_link kv.1 kv.2 i) i entries) !! c) →
  is_Some (important_links i !! c) ∨ c ∈ map fst entries.
Proof.
  revert i. induction entries as [|kv entries IH]; intros i; [by left|].
  simpl. intros H. apply IH in H as [H|H]; [|right; by right].
  simpl in H. destruct (decide (kv.1 = c)) as [<-|Hne]; [right; by left|].
  left. by rewrite lookup_insert_ne in H.
Qed.

Lemma first_ten_faqs page :
  length (take 10 (_parse_faq_page page)) ≤ 10
  ∧ NoDup (map normalized_question (take 10 (_parse_faq_page page))).
Proof.
  split; [rewrite length_take; lia|].
  destruct (_parse_faq_page_unique page) as [Hnd _].
  rewrite <- (take_drop 10 (_parse_faq_page page)), map_app in Hnd.
  by apply NoDup_app in Hnd as [? _].
Qed.

(** The successful run of the eight sub-steps, taken apart. *)
Lemma run_sub_steps_inv env website_url st0 st8 :
  run_steps (sub_steps env website_url) st0 = (inr tt, st8) →
  ∃ st1 st2 st3 st4 st5 st6 st7,
    _extract_brand_info env website_url st0 = (inr tt, st1)
    ∧ _extract_product_catalog env website_url st1 = (inr tt, st2)
    ∧ _extract_hero_products env website_url st2 = (inr tt, st3)
    ∧ _extract_policies env website_url st3 = (inr tt, st4)
    ∧ _extract_faqs env website_url st4 = (inr tt, st5)
    ∧ _extract_social_handles env website_url st5 = (inr tt, st6)
    ∧ _extract_contact_info env website_url st6 = (inr tt, st7)
    ∧ _extract_important_links env website_url st7 = (inr tt, st8).
Proof.
  unfold sub_steps. cbn [run_steps]. intros H.
  apply bind_inv in H as ([] & st1 & H1 & H).
  apply bind_inv in H as ([] & st2 & H2 & H).
  apply bind_inv in H as ([] & st3 & H3 & H).
  apply bind_inv in H as ([] & st4 & H4 & H).
  apply bind_inv in H as ([] & st5 & H5 & H).
  apply bind_inv in H as ([] & st6 & H6 & H).
  apply bind_inv in H as ([] & st7 & H7 & H).
  apply bind_inv in H as ([] & st8' & H8 & H).
  apply ret_inv in H as [_ ->].
  by exists st1, st2, st3, st4, st5, st6, st7.
Qed.

(** What holds of every profile that [scrape_store] returns, collected
    from what each sub-step writes. *)
Lemma scraped_profile_facts env website_url st ins st' :
  scrape_store env website_url st = (inr ins, st') →
  Models.website_url ins = website_url
  ∧ (∀ b, brand_name ins = Some b → b ≠ EmptyString ∧ strip b ≠ EmptyString)
  ∧ length (hero_products ins) ≤ 6
  ∧ (∀ c, privacy_policy_content ins = Some c → len c ≤ 2000)
  ∧ (privacy_policy_url ins = None ↔ privacy_policy_content ins = None)
  ∧ (∀ c, return_refund_policy_content ins = Some c → len c ≤ 2000)
  ∧ (return_refund_policy_url ins = None ↔ return_refund_policy_content ins = None)
  ∧ length (faqs ins) ≤ 10
  ∧ NoDup (map normalized_question (faqs ins))
  ∧ NoDup (map platform (social_handles ins))
  ∧ (∀ ci, contact_info ins = Some ci →
       length (emails ci) ≤ 5 ∧ length (phone_numbers ci) ≤ 3
       ∧ (emails ci ≠ [] ∨ phone_numbers ci ≠ []))
  ∧ (∀ c, is_Some (important_links ins !! c) → c ∈ map fst important_keywords)
  ∧ length (social_handles ins) ≤ 5.
Proof.
  intros H. rewrite scrape_store_steps in H. unfold try_except in H.
  match type of H with
  | context [match ?b with _ => _ end] => destruct b as [[e|i] stf] eqn:Hb
  end; [done|]. injection H as -> ->.
  apply bind_inv in Hb as (accessible & st0 & Hv & Hb).
  apply bind_inv in Hb as ([] & st0' & Hc & Hb).
  apply bind_inv in Hb as ([] & st8 & Hrun & Hg).
  unfold get_insights in Hg. injection Hg as <- <-.
  assert (st0' = st0) as -> by (destruct accessible; [by injection Hc|done]).
  pose proof (_verify_website_access_keeps_insights env website_url
                (started website_url st)) as H0.
  rewrite Hv in H0. simpl in H0.
  apply run_sub_steps_inv in Hrun
    as (st1 & st2 & st3 & st4 & st5 & st6 & st7 & H1 & H2 & H3 & H4 & H5 & H6 & H7 & H8).
  (* what each sub-step wrote *)
  destruct (brand_info_effect env website_url st0) as (st1' & H1' & E1).
  rewrite H1 in H1'. injection H1' as <-. rewrite H0 in E1.
  apply product_catalog_effect in H2 as (products & E2).
  apply hero_products_effect in H3 as E3.
  apply policy_loops_effect in H4 as (ip & Ep & E4).
  unfold _extract_faqs in H5. apply bind_inv in H5 as (fs & st5' & H5 & H5').
  pose proof (extract_faqs_keeps_insights env website_url st4) as K5.
  rewrite H5 in K5. simpl in K5. apply extract_faqs_returns in H5 as F5.
  unfold modify_insights in H5'. injection H5' as <-.
  unfold _extract_social_handles in H6. apply bind_inv in H6 as (hs & st6' & H6 & H6').
  destruct (extract_social_handles_outcome env website_url
              {| requests := requests st5'; insights := set_faqs fs (insights st5') |})
    as (hs' & st6'' & H6'' & F6).
  rewrite H6 in H6''. injection H6'' as <- <-.
  pose proof (extract_social_handles_keeps_insights env website_url
                {| requests := requests st5'; insights := set_faqs fs (insights st5') |}) as K6.
  rewrite H6 in K6. simpl in K6. unfold modify_insights in H6'. injection H6' as <-.
  unfold _extract_contact_info in H7. apply bind_inv in H7 as (o & st7' & H7 & H7').
  apply extract_contact_info_returns in H7 as (K7 & F7). simpl in K7.
  unfold modify_insights in H7'. injection H7' as <-.
  unfold _extract_important_links in H8. apply bind_inv in H8 as (r & st8' & H8 & H8').
  apply make_request_state in H8. simpl in H8.
  assert (E8 : ∃ entries : list (string * string),
            Forall (λ kv, kv.1 ∈ map fst important_keywords) entries
            ∧ insights st8 = foldl (λ i kv, set_important_link kv.1 kv.2 i)
                               (insights st8') entries).
  { destruct r as [response|]; [by apply record_links_effect in H8'|].
    apply ret_inv in H8' as [_ <-]. by exists []. }
  destruct E8 as (entries & Hentries & E8).
  assert (Lk : ∀ c, is_Some (important_links (insights st8) !! c) →
                    is_Some (important_links (insights st8') !! c) ∨ c ∈ map fst entries)
    by (intros c; rewrite E8; apply foldl_set_important_link_keys).
  destruct (foldl_set_important_link_frame (insights st8') entries)
    as (L1&L2&L3&L4&L5&L6&L7&L8&L9&L10&L11&L12).
  rewrite <- E8 in *. clear E8.
  (* the profile after the first four sub-steps *)
  assert (A1 : Models.website_url (insights st1) = website_url
               ∧ (∀ b, brand_name (insights st1) = Some b →
                       b ≠ EmptyString ∧ strip b ≠ EmptyString)
               ∧ hero_products (insights st1) = []
               ∧ privacy_policy_url (insights st1) = None
               ∧ privacy_policy_content (insights st1) = None
               ∧ return_refund_policy_url (insights st1) = None
               ∧ return_refund_policy_content (insights st1) = None
               ∧ important_links (insights st1) = ∅).
  { assert (Hb : ∀ page b, Some (resolve_brand_name env website_url page) = Some b →
                           b ≠ EmptyString ∧ strip b ≠ EmptyString).
    { intros page b [= <-].
      destruct (resolve_brand_name_not_blank env website_url page) as [Hn Hs].
      unfold nonempty in *. by apply negb_true_iff, bool_decide_eq_false in Hn, Hs. }
    destruct E1 as [->|[page [->|[d ->]]]]; cbn; split_and!; try done; apply Hb. }
  destruct (foldl_append_product_frame (insights st1) products)
    as (C1&C2&C3&C4&C5&C6&C7&C8&C9&C10&C11&C12).
  rewrite <- E2 in *. clear E2.
  destruct A1 as (A1a & A1b & A1c & A1d & A1e & A1f & A1g & A1h).
  assert (A3 : Models.website_url (insights st3) = website_url
               ∧ (∀ b, brand_name (insights st3) = Some b →
                       b ≠ EmptyString ∧ strip b ≠ EmptyString)
               ∧ length (hero_products (insights st3)) ≤ 6
               ∧ privacy_policy_url (insights st3) = None
               ∧ privacy_policy_content (insights st3) = None
               ∧ return_refund_policy_url (insights st3) = None
               ∧ return_refund_policy_content (insights st3) = None
               ∧ important_links (insights st3) = ∅).
  { destruct E3 as [->|[l ->]]; cbn; rewrite ?C1, ?C2, ?C4, ?C5, ?C6, ?C7, ?C8, ?C12;
      split_and!; try done.
    - rewrite A1c. simpl. lia.
    - rewrite length_take. lia. }
  destruct A3 as (A3a & A3b & A3c & A3d & A3e & A3f & A3g & A3h).
  assert (Ap : Models.website_url ip = website_url
               ∧ (∀ b, brand_name ip = Some b → b ≠ EmptyString ∧ strip b ≠ EmptyString)
               ∧ length (hero_products ip) ≤ 6
               ∧ (∀ c, privacy_policy_content ip = Some c → len c ≤ 2000)
               ∧ (privacy_policy_url ip = None ↔ privacy_policy_content ip = None)
               ∧ return_refund_policy_url ip = None
               ∧ return_refund_policy_content ip = None
               ∧ important_links ip = ∅).
  { destruct Ep as [->|(path & u & c & _ & _ & Hlen & ->)]; cbn; split_and!; try done;
      first [by rewrite ?A3d, ?A3e | by intros ? [= <-]]. }
  destruct Ap as (Apa & Apb & Apc & Apd & Ape & Apf & Apg & Aph).
  assert (A4 : Models.website_url (insights st4) = website_url
               ∧ (∀ b, brand_name (insights st4) = Some b →
                       b ≠ EmptyString ∧ strip b ≠ EmptyString)
               ∧ length (hero_products (insights st4)) ≤ 6
               ∧ (∀ c, privacy_policy_content (insights st4) = Some c → len c ≤ 2000)
               ∧ (privacy_policy_url (insights st4) = None
                  ↔ privacy_policy_content (insights st4) = None)
               ∧ (∀ c, return_refund_policy_content (insights st4) = Some c → len c ≤ 2000)
               ∧ (return_refund_policy_url (insights st4) = None
                  ↔ return_refund_policy_content (insights st4) = None)
               ∧ important_links (insights st4) = ∅).
  { destruct E4 as [->|(path & u & c & _ & _ & Hlen & ->)]; cbn; split_and!; try done;
      first [by rewrite ?Apf, ?Apg | by intros ? [= <-]]. }
  destruct A4 as (A4a & A4b & A4c & A4d & A4e & A4f & A4g & A4h).
  (* the last four sub-steps *)
  rewrite L1, L2, L5, L6, L7, L8, L9, L10, L11, L12.
  rewrite H8, K7, K6, K5. cbn.
  split_and!; try done.
  - destruct F5 as [->|[page ->]]; [simpl; lia|apply first_ten_faqs].
  - destruct F5 as [->|[page ->]]; [constructor|apply first_ten_faqs].
  - destruct F6 as [->|(response & _ & ->)]; [constructor|].
    apply social_links_loop_NoDup; [|constructor].
    intros p. simpl. rewrite elem_of_empty, elem_of_nil. tauto.
  - intros ci Hci. destruct (F7 ci Hci) as (? & ? & ? & _). done.
  - intros c Hkey. apply Lk in Hkey as [Hkey|Hkey].
    + rewrite H8, K7, K6, K5 in Hkey. cbn in Hkey. rewrite A4h, lookup_empty in Hkey.
      by destruct Hkey.
    + apply list_elem_of_fmap in Hkey as (kv & -> & Hkv).
      by apply (proj1 (Forall_forall _ _) Hentries kv).
  - destruct F6 as [->|(response & _ & ->)]; [simpl; lia|].
    apply social_links_loop_bounds.
Qed.

(** X10: every profile that [scrape_store] returns is for the URL asked
    for and keeps these bounds: a brand name, when set, is not blank; at
    most six hero products; each policy is recorded as a URL together with
    at most 2000 characters of content, or not at all; at most ten FAQs
    with distinct normalized questions; at most one social handle per
    platform; contact info, when present, has at most five emails and
    three phone numbers, not both lists empty; and the links map has keys
    of the keyword table only. *)
Theorem scrape_store_profile env website_url st ins st' :
  scrape_store env website_url st = (inr ins, st') →
  Models.website_url ins = website_url
  ∧ (∀ b, brand_name ins = Some b → b ≠ EmptyString ∧ strip b ≠ EmptyString)
  ∧ length (hero_products ins) ≤ 6
  ∧ (∀ c, privacy_policy_content ins = Some c → len c ≤ 2000)
  ∧ (privacy_policy_url ins = None ↔ privacy_policy_content ins = None)
  ∧ (∀ c, return_refund_policy_content ins = Some c → len c ≤ 2000)
  ∧ (return_refund_policy_url ins = None ↔ return_refund_policy_content ins = None)
  ∧ length (faqs ins) ≤ 10
  ∧ NoDup (map normalized_question (faqs ins))
  ∧ NoDup (map platform (social_handles ins))
  ∧ (∀ ci, contact_info ins = Some ci →
       length (emails ci) ≤ 5 ∧ length (phone_numbers ci) ≤ 3
       ∧ (emails ci ≠ [] ∨ phone_numbers ci ≠ []))
  ∧ (∀ c, is_Some (important_links ins !! c) → c ∈ map fst important_keywords).
Proof.
  intros H. apply scraped_profile_facts in H.
  destruct H as (?&?&?&?&?&?&?&?&?&?&?&?&_). by split_and!.
Qed.

Lemma scrape_store_profile_witness :
  let ins := set_brand_name "Shop" (new_insights home) in
  Models.website_url ins = home
  ∧ (∀ b, brand_name ins = Some b → b ≠ EmptyString ∧ strip b ≠ EmptyString)
  ∧ length (hero_products ins) ≤ 6
  ∧ (∀ c, privacy_policy_content ins = Some c → len c ≤ 2000)
  ∧ (privacy_policy_url ins = None ↔ privacy_policy_content ins = None)
  ∧ (∀ c, return_refund_policy_content ins = Some c → len c ≤ 2000)
  ∧ (return_refund_policy_url ins = None ↔ return_refund_policy_content ins = None)
  ∧ length (faqs ins) ≤ 10
  ∧ NoDup (map normalized_question (faqs ins))
  ∧ NoDup (map platform (social_handles ins))
  ∧ (∀ ci, contact_info ins = Some ci →
       length (emails ci) ≤ 5 ∧ length (phone_numbers ci) ≤ 3
       ∧ (emails ci ≠ [] ∨ phone_numbers ci ≠ []))
  ∧ (∀ c, is_Some (important_links ins !! c) → c ∈ map fst important_keywords).
Proof.
  apply (scrape_store_profile (home_only empty_page) home (fresh home) _
           (snd (scrape_store (home_only empty_page) home (fresh home)))).
  vm_compute. reflexivity.
Defined.

End Effects.

(** ** Brand name resolution *)

Section BrandResolution.
Import PyStr Helpers Models Web ShopifyScraper Fixtures.

Lemma drop_while_nil_Forall p s :
  drop_while p s = [] → Forall (λ c, p c = true) s.
Proof.
  induction s as [|c t IH]; [constructor|]. simpl.
  destruct (p c) eqn:E; [|done]. intros H. constructor; auto.
Qed.

Lemma strip_chars_nil_spaces s :
  strip_chars s = [] → Forall (λ c, is_space c = true) s.
Proof.
  unfold strip_chars, rstrip. intros H.
  apply (f_equal reverse) in H. rewrite reverse_involutive in H. simpl in H.
  apply drop_while_nil_Forall in H. rewrite Forall_reverse in H.
  destruct (lstrip s) as [|c t] eqn:Hl.
  - by apply drop_while_nil_Forall.
  - unfold lstrip in Hl. apply Forall_cons in H as [Hc _].
    assert (Hfix := drop_while_fixed is_space s). rewrite Hl in Hfix.
    simpl in Hfix. rewrite Hc in Hfix.
    pose proof (drop_while_length is_space t) as Hlen. rewrite Hfix in Hlen.
    simpl in Hlen. lia.
Qed.

Lemma split_ws_spaces s :
  Forall (λ c, is_space c = true) s → split_ws s = [].
Proof. induction 1 as [|c t Hc _ IH]; [done|]. simpl. by rewrite Hc. Qed.

(** A text that cleans to something is not blank. *)
Lemma clean_text_nonempty_strip content :
  nonempty (clean_text content) = true → nonempty (strip content) = true.
Proof.
  unfold nonempty. intros H. apply negb_true_iff, bool_decide_eq_false in H.
  apply negb_true_iff, bool_decide_eq_false. intros Hs. apply H.
  unfold strip in Hs. apply (f_equal chars) in Hs. rewrite chars_str in Hs.
  simpl in Hs. apply strip_chars_nil_spaces, split_ws_spaces in Hs.
  rewrite clean_text_chars. unfold clean_chars, normalize_ws. by rewrite Hs.
Qed.

Lemma strip_clean_text x : strip (clean_text x) = clean_text x.
Proof.
  rewrite clean_text_chars. unfold strip.
  by rewrite chars_str, clean_chars_stripped.
Qed.

Lemma len_nonempty s : 0 < len s → nonempty s = true.
Proof.
  unfold len, nonempty. intros H. apply negb_true_iff, bool_decide_eq_false.
  intros ->. simpl in H. lia.
Qed.

(** X11: an og:site_name whose cleaned content has at least three
    characters is the brand name: the application name, the title and the
    domain are not consulted. *)
Theorem og_site_name_wins env website_url page content :
  og_site_name page = Some content →
  3 ≤ len (clean_text content) →
  resolve_brand_name env website_url page = clean_text content.
Proof.
  intros Hog Hlen.
  assert (Hne : nonempty (clean_text content) = true) by (apply len_nonempty; lia).
  assert (Hm : name_from_meta (Some content) None = Some (clean_text content))
    by (unfold name_from_meta; by rewrite (clean_text_nonempty_strip _ Hne)).
  assert (Ht : str_truthy (Some (clean_text content)) = true) by exact Hne.
  unfold resolve_brand_name. rewrite Hog. cbv zeta. rewrite !Hm, !Ht.
  cbn [negb orb]. rewrite !Ht. cbn [negb orb]. unfold default, id. cbn [from_option].
  rewrite strip_clean_text, bool_decide_eq_false_2 by lia.
  rewrite Ht. cbn [negb orb]. by rewrite strip_clean_text, Hne.
Qed.

Lemma og_site_name_wins_witness :
  resolve_brand_name (home_only empty_page) home
    {| anchors := []; og_site_name := Some " Acme  Goods "%string;
       application_name := Some "Other"%string; meta_description := None;
       title := Some "Something - Online Store"%string; h1 := None; price_elem := None;
       img_srcs := []; page_text := EmptyString; accordion_items := [];
       dt_elements := []; headers := []; qa_matches := []; faq_list_items := [];
       email_matches := []; phone_matches := [] |}
  = "Acme Goods"%string.
Proof.
  apply (og_site_name_wins (home_only empty_page) home _ " Acme  Goods "%string);
    [reflexivity|vm_compute; lia].
Defined.



End BrandResolution.

(** ** The shape of cleaned text *)

Section CleanShape.
Import PyStr Helpers.





End CleanShape.

(** ** URL and text helpers *)

Section TextHelperFacts.
Import PyStr Helpers Models Web ShopifyScraper TextHelpers Schemas.

Lemma drop_while_head p s :
  match drop_while p s with
  | c :: _ => p c = false
  | [] => True
  end.
Proof.
  induction s as [|c t IH]; [done|]. simpl. destruct (p c) eqn:E; [done|]. by simpl.
Qed.

Lemma drop_while_id p s :
  match s with c :: _ => p c = false | [] => True end → drop_while p s = s.
Proof. destruct s as [|c t]; [done|]. simpl. by intros ->. Qed.

Lemma rstrip_slash_no_slash s : endswith (rstrip_slash s) "/" = false.
Proof.
  unfold endswith, rstrip_slash. rewrite chars_str, reverse_involutive.
  pose proof (drop_while_head is_slash (reverse (chars s))) as H.
  destruct (drop_while is_slash (reverse (chars s))) as [|c t]; [done|].
  simpl. unfold is_slash in H. apply bool_decide_eq_false in H.
  rewrite bool_decide_eq_false_2; [done|congruence].
Qed.

Lemma rstrip_slash_id s : endswith s "/" = false → rstrip_slash s = s.
Proof.
  unfold endswith, rstrip_slash. intros H.
  rewrite drop_while_id; [by rewrite reverse_involutive, str_chars|].
  destruct (reverse (chars s)) as [|c t]; [done|]. simpl in H.
  unfold is_slash. apply bool_decide_eq_false. intros ->.
  by rewrite bool_decide_eq_true_2 in H.
Qed.

(** X14: what [normalize_url] returns never ends with a slash, and a URL
    that is already in normal form (not empty, no white space around it, a
    protocol, no trailing slash) is returned as it is. *)
Theorem normalize_url_normal url :
  endswith (normalize_url url) "/" = false
  ∧ (nonempty url = true → strip url = url → has_protocol url = true →
     endswith url "/" = false → normalize_url url = url).
Proof.
  unfold normalize_url. split.
  - destruct (nonempty url) eqn:E; cbn [negb]; [apply rstrip_slash_no_slash|].
    unfold nonempty in E. apply negb_false_iff, bool_decide_eq_true in E. by subst.
  - intros -> -> -> Hs. cbn [negb]. by apply rstrip_slash_id.
Qed.

Lemma normalize_url_normal_witness :
  normalize_url "https://shop.example" = "https://shop.example"%string.
Proof.
  destruct (normalize_url_normal "https://shop.example") as [_ H]. by apply H.
Defined.

Lemma chars_append a b : chars (a +:+ b) = chars a ++ chars b.
Proof. unfold chars. induction a as [|c a IH]; [done|]. simpl. by rewrite <- IH. Qed.

Lemma drop_while_split p s :
  ∃ u, s = u ++ drop_while p s ∧ Forall (λ c, p c = true) u.
Proof.
  induction s as [|c t (u & Hu & Hall)]; [by exists []|]. simpl.
  destruct (p c) eqn:E; [|by exists []].
  exists (c :: u). split; [by rewrite Hu at 1|by constructor].
Qed.

Lemma existsb_reverse {A} (p : A → bool) l : existsb p (reverse l) = existsb p l.
Proof.
  induction l as [|x l IH]; [done|].
  rewrite reverse_cons, existsb_app, IH. simpl. rewrite orb_false_r. apply orb_comm.
Qed.

Lemma before_last_blank_cut s :
  existsb is_blank s = true →
  ∃ rest, s = before_last_blank s ++ " "%char :: rest
          ∧ Forall (λ c, c ≠ " "%char) rest.
Proof.
  intros Hex. unfold before_last_blank. rewrite Hex.
  destruct (drop_while_split (λ c, negb (is_blank c)) (reverse s)) as (u & Hu & Hall).
  pose proof (drop_while_head (λ c, negb (is_blank c)) (reverse s)) as Hhead.
  destruct (drop_while (λ c, negb (is_blank c)) (reverse s)) as [|c t].
  - rewrite <- existsb_reverse, Hu, app_nil_r in Hex.
    apply existsb_exists in Hex as (c & Hin & Hc).
    rewrite Forall_forall in Hall. apply list_elem_of_In, Hall in Hin.
    by rewrite Hc in Hin.
  - apply negb_false_iff, bool_decide_eq_true in Hhead. subst c.
    exists (reverse u). split.
    + rewrite <- (reverse_involutive s), Hu, reverse_app, reverse_cons.
      cbn [drop]. by rewrite <- app_assoc.
    + apply Forall_reverse. eapply Forall_impl; [exact Hall|].
      intros c Hc. apply negb_true_iff, bool_decide_eq_false in Hc. exact Hc.
Qed.

Lemma before_last_blank_whole s :
  existsb is_blank s = false →
  before_last_blank s = s ∧ Forall (λ c, c ≠ " "%char) s.
Proof.
  intros Hex. unfold before_last_blank. rewrite Hex. split; [done|].
  apply Forall_forall. intros c Hin ->.
  assert (existsb is_blank s = true) as E; [|by rewrite E in Hex].
  apply existsb_exists. exists " "%char. split; [by apply list_elem_of_In|done].
Qed.

(** X15: for a limit [0 <= max_length] below the length of the text,
    [truncate_text] cuts the first [max_length] characters at their last
    blank (keeping all of them when they hold no blank) and appends three
    dots: the result can be up to three characters longer than the
    limit. *)
Theorem truncate_text_cut text max_length :
  (0 ≤ max_length)%Z → (max_length < Z.of_nat (len text))%Z →
  let window := take (Z.to_nat max_length) (chars text) in
  ∃ kept,
    truncate_text text max_length = str kept +:+ "..."
    ∧ (kept = window ∨ ∃ rest, window = kept ++ " "%char :: rest)
    ∧ Forall (λ c, c ≠ " "%char) (drop (length kept + 1) window)
    ∧ (" "%char ∈ window → length kept < length window)
    ∧ len (truncate_text text max_length) ≤ Z.to_nat max_length + 3.
Proof.
  intros Hpos Hlt window. unfold truncate_text.
  rewrite len_nonempty by lia. cbn [negb orb].
  destruct (Z.leb_spec (Z.of_nat (len text)) max_length) as [|_]; [lia|].
  assert (slice_upto max_length (chars text) = window) as ->.
  { unfold slice_upto. by destruct (Z.ltb_spec max_length 0); [lia|]. }
  assert (length window ≤ Z.to_nat max_length) as Hw.
  { unfold window. rewrite length_take. lia. }
  exists (before_last_blank window).
  unfold len. rewrite chars_append, chars_str, length_app.
  destruct (existsb is_blank window) eqn:Hex.
  - destruct (before_last_blank_cut window Hex) as (rest & Hcut & Hrest).
    assert (length window = length (before_last_blank window) + S (length rest)) as Hlen.
    { rewrite Hcut at 1. by rewrite length_app. }
    change (length (chars "...")) with 3.
    split_and!; [done|right; by exists rest| |intros _; lia|lia].
    rewrite Hcut at 2. rewrite drop_app_ge by lia.
    replace (length (before_last_blank window) + 1 - length (before_last_blank window))
      with 1 by lia.
    exact Hrest.
  - destruct (before_last_blank_whole window Hex) as [Hsame Hnone].
    rewrite Hsame. change (length (chars "...")) with 3.
    split_and!; [done|by left| | |lia].
    + rewrite drop_ge by lia. constructor.
    + intros Hin. rewrite Forall_forall in Hnone. by destruct (Hnone _ Hin).
Qed.

Lemma truncate_text_cut_witness :
  let window := take 12 (chars "free shipping on every order") in
  ∃ kept,
    truncate_text "free shipping on every order" 12 = str kept +:+ "..."
    ∧ (kept = window ∨ ∃ rest, window = kept ++ " "%char :: rest)
    ∧ Forall (λ c, c ≠ " "%char) (drop (length kept + 1) window)
    ∧ (" "%char ∈ window → length kept < length window)
    ∧ len (truncate_text "free shipping on every order" 12) ≤ 12 + 3.
Proof.
  apply (truncate_text_cut "free shipping on every order" 12); [lia|by vm_compute].
Defined.

(** The loop over a keyword table returns the first category, in table
    order, one of whose keywords occurs in the href or in the text. *)
Lemma link_category_first table href text :
  let hit (keywords : list string) :=
    existsb (λ keyword, py_in keyword href || py_in keyword text) keywords in
  match link_category table href text with
  | Some c => ∃ before keywords after,
      table = before ++ (c, keywords) :: after
      ∧ hit keywords = true
      ∧ Forall (λ entry, hit entry.2 = false) before
  | None => Forall (λ entry, hit entry.2 = false) table
  end.
Proof.
  intros hit. induction table as [|[category keywords] rest IH]; [by constructor|].
  cbn [link_category]. fold (hit keywords). destruct (hit keywords) eqn:Hhit.
  - by exists [], keywords, rest.
  - destruct (link_category rest href text) as [c|].
    + destruct IH as (before & kws & after & -> & Hkws & Hbefore).
      exists ((category, keywords) :: before), kws, after. split_and!; [done..|].
      by constructor.
    + by constructor.
Qed.

(** X16: [categorize_link] returns the first category of its table, in
    the order written, one of whose keywords occurs in the lower-cased URL
    or the lower-cased text (so a link that matches both [returns] and
    [privacy] is never [privacy]), and [other] exactly when no keyword of
    any category occurs. *)
Theorem categorize_link_first_match url text :
  let hit (keywords : list string) :=
    existsb (λ keyword, py_in keyword (lower url) || py_in keyword (lower text)) keywords in
  (categorize_link url text = "other"%string
   ∧ Forall (λ entry, hit entry.2 = false) categories)
  ∨ (∃ before keywords after,
       categories = before ++ (categorize_link url text, keywords) :: after
       ∧ hit keywords = true
       ∧ Forall (λ entry, hit entry.2 = false) before).
Proof.
  intros hit. unfold categorize_link.
  pose proof (link_category_first categories (lower url) (lower text)) as H.
  cbv zeta in H. fold hit in H.
  destruct (link_category categories (lower url) (lower text)) as [c|]; [by right|by left].
Qed.

Lemma starts_with_spec pre s : starts_with pre s = true ↔ ∃ r, s = pre ++ r.
Proof.
  revert s. induction pre as [|a pre IH]; intros s; simpl.
  { split; [by exists s|done]. }
  destruct s as [|b s].
  { split; [done|by intros [r Hr]]. }
  rewrite andb_true_iff, bool_decide_eq_true, IH. split.
  - intros [-> [r ->]]. by exists r.
  - intros [r [= -> ->]]. split; [done|by exists r].
Qed.

Lemma drop_while_app_stop p x c (y : list ascii) :
  p c = false → drop_while p (x ++ c :: y) = drop_while p x ++ c :: y.
Proof.
  intros Hc. induction x as [|a x IH]; simpl; [by rewrite Hc|].
  by destruct (p a).
Qed.

Lemma rstrip_keeps a c b :
  is_space c = false → rstrip (a ++ c :: b) = a ++ c :: rstrip b.
Proof.
  intros Hc. unfold rstrip.
  rewrite reverse_app, reverse_cons, <- app_assoc. simpl.
  rewrite drop_while_app_stop by done.
  by rewrite reverse_app, reverse_cons, reverse_involutive, <- app_assoc.
Qed.

(** Stripping a string that starts with a protocol leaves the protocol
    in place. *)
Lemma strip_keeps_protocol v : has_protocol v = true → has_protocol (strip v) = true.
Proof.
  unfold has_protocol, startswith, strip. rewrite chars_str.
  intros [H|H]%orb_true_iff; apply starts_with_spec in H as [r ->];
    apply orb_true_iff; [left|right]; apply starts_with_spec.
  - exists (rstrip r). unfold strip_chars.
    change (lstrip (chars "http://" ++ r)) with (chars "http:/" ++ "/"%char :: r).
    by rewrite rstrip_keeps.
  - exists (rstrip r). unfold strip_chars.
    change (lstrip (chars "https://" ++ r)) with (chars "https:/" ++ "/"%char :: r).
    by rewrite rstrip_keeps.
Qed.

Lemma has_protocol_nonempty v : has_protocol v = true → nonempty v = true.
Proof.
  unfold nonempty. intros H. apply negb_true_iff, bool_decide_eq_false. by intros ->.
Qed.

(** X17: the validator of the request schema accepts exactly the values
    that start with [http://] or [https://]: white space before the
    protocol is a reason to reject, not something to strip.  An accepted
    value is returned stripped, still starts with its protocol, and is
    accepted unchanged when validated again. *)
Theorem validate_url_accepts v :
  match validate_url v with
  | inr u => has_protocol v = true ∧ u = strip v ∧ has_protocol u = true
             ∧ validate_url u = inr u
  | inl e => e = ValueError ∧ has_protocol v = false
  end.
Proof.
  assert (Hacc : ∀ x, has_protocol x = true → validate_url x = inr (strip x)).
  { intros x Hx. unfold validate_url.
    by rewrite (has_protocol_nonempty _ (strip_keeps_protocol _ Hx)), Hx. }
  destruct (has_protocol v) eqn:Hp.
  - rewrite (Hacc v Hp). split_and!; [done..|by apply strip_keeps_protocol|].
    rewrite (Hacc _ (strip_keeps_protocol _ Hp)). f_equal.
    unfold strip. by rewrite chars_str, strip_chars_fixed.
  - unfold validate_url. rewrite Hp. by destruct (nonempty (strip v)).
Qed.

End TextHelperFacts.

(** ** The Shopify check of the validators *)

Section ValidatorFacts.
Import PyStr Helpers Models Web TextHelpers Validators.

Lemma contains_spec sub s : contains sub s = true ↔ ∃ u v, s = u ++ sub ++ v.
Proof.
  induction s as [|c t IH]; cbn [contains].
  - rewrite orb_false_r, starts_with_spec. split.
    + intros [r Hr]. by exists [], r.
    + intros (u & v & H). symmetry in H.
      apply app_eq_nil in H as [-> H]. exists v. by rewrite H.
  - rewrite orb_true_iff, starts_with_spec, IH. split.
    + intros [[r ->]|(u & v & ->)]; [by exists [], r|by exists (c :: u), v].
    + intros ([|a u] & v & H); [left; by exists v|].
      injection H as <- ->. right. by exists u, v.
Qed.

Lemma contains_trans a b s :
  contains a b = true → contains b s = true → contains a s = true.
Proof.
  rewrite !contains_spec. intros (u & v & ->) (u' & v' & ->).
  exists (u' ++ u), (v ++ v'). by rewrite <- !app_assoc.
Qed.

(** Every indicator of the homepage test contains the first one. *)
Lemma indicators_collapse content :
  existsb (λ indicator, py_in indicator content) shopify_indicators
  = py_in "shopify" content.
Proof.
  destruct (py_in "shopify" content) eqn:H.
  { apply existsb_exists. exists "shopify"%string. split; [by left|done]. }
  apply not_true_is_false. intros Hex. apply existsb_exists in Hex as (i & Hi & Hin).
  assert (Hall : Forall (λ i, py_in "shopify" i = true) shopify_indicators).
  { apply (bool_decide_unpack _). vm_compute. exact I. }
  rewrite Forall_forall in Hall. apply list_elem_of_In, Hall in Hi.
  unfold py_in in *. by rewrite (contains_trans _ _ _ Hi Hin) in H.
Qed.

Lemma shopify_store_requests w url :
  (is_likely_shopify_store w url).2 = [GET (rstrip_slash url +:+ "/products.json")]
  ∨ (is_likely_shopify_store w url).2
    = [GET (rstrip_slash url +:+ "/products.json"); GET url].
Proof.
  unfold is_likely_shopify_store.
  destruct (wire_get w (rstrip_slash url +:+ "/products.json")) as [|feed]; [by left|].
  destruct (reply_status feed =? 200)%Z.
  { destruct (reply_json feed); by left. }
  destruct (wire_get w url) as [|homepage]; [by right|].
  destruct (reply_status homepage =? 200)%Z; [by right|].
  destruct (reply_status homepage =? 403)%Z; by right.
Qed.

(** X18: when [is_likely_shopify_store] says yes.  Either the product
    feed answers 200 with a JSON value that contains [products] (the
    homepage is then not requested), or the feed answers with another
    status and the homepage answers 403, or 200 with the word [shopify]
    somewhere in its lower-cased text: the other six indicators add
    nothing.  It sends one or two requests, the feed first, and never
    raises. *)
Theorem shopify_store_verdict w url :
  let products_url := rstrip_slash url +:+ "/products.json" in
  let result := is_likely_shopify_store w url in
  (result.2 = [GET products_url] ∨ result.2 = [GET products_url; GET url])
  ∧ (result.1 = true ↔
       (∃ feed data,
          wire_get w products_url = Replies feed
          ∧ reply_status feed = 200%Z
          ∧ reply_json feed = Some data
          ∧ contains_products data = Some true
          ∧ result.2 = [GET products_url])
       ∨ (∃ feed homepage,
            wire_get w products_url = Replies feed
            ∧ reply_status feed ≠ 200%Z
            ∧ wire_get w url = Replies homepage
            ∧ (reply_status homepage = 403%Z
               ∨ (reply_status homepage = 200%Z
                  ∧ py_in "shopify" (lower (reply_text homepage)) = true)))).
Proof.
  intros products_url result. unfold result, is_likely_shopify_store.
  fold products_url.
  destruct (wire_get w products_url) as [|feed] eqn:Hfeed; cbn [fst snd].
  { split; [by left|]. split; [done|]. by intros [(? & ? & ? & _)|(? & ? & ? & _)]. }
  destruct (Z.eqb_spec (reply_status feed) 200) as [H200|H200].
  - destruct (reply_json feed) as [data|] eqn:Hjson; cbn [fst snd].
    + split; [by left|]. split.
      * intros Hv. left. exists feed, data. split_and!; [done..| |done].
        by destruct (contains_products data) as [[]|].
      * intros [(f & d & [= <-] & _ & Hd & Hc & _)|(f & h & [= <-] & Hne & _)]; [|done].
        rewrite Hjson in Hd. injection Hd as <-. by rewrite Hc.
    + split; [by left|]. split; [done|].
      intros [(f & d & [= <-] & _ & Hd & _)|(f & h & [= <-] & Hne & _)]; [|done].
      by rewrite Hjson in Hd.
  - destruct (wire_get w url) as [|homepage] eqn:Hhome; cbn [fst snd].
    { split; [by right|]. split; [done|].
      intros [(f & d & [= <-] & Hs & _)|(f & h & _ & _ & ? & _)]; done. }
    destruct (Z.eqb_spec (reply_status homepage) 200) as [Hh|Hh]; cbn [fst snd].
    + rewrite indicators_collapse. split; [by right|]. split.
      * intros Hv. right. exists feed, homepage. split_and!; [done..|]. by right.
      * intros [(f & d & [= <-] & Hs & _)|(f & h & _ & _ & [= <-] & [Hs|[_ Hs]])];
          [done|lia|done].
    + destruct (Z.eqb_spec (reply_status homepage) 403) as [Hf|Hf]; cbn [fst snd].
      * split; [by right|]. split; [|done].
        intros _. right. exists feed, homepage. split_and!; [done..|]. by left.
      * split; [by right|]. split; [done|].
        intros [(f & d & [= <-] & Hs & _)|(f & h & _ & _ & [= <-] & [Hs|[Hs _]])]; done.
Qed.

(** X19: [validate_shopify_url] never raises and sends at most three
    requests: a HEAD for the URL (with [https://] put before it when it has
    no protocol), then those of [is_likely_shopify_store].  It says yes
    only when the URL is not empty, has a network location, the HEAD did
    not answer with a status other than 200, 301, 302 and 403 (a HEAD that
    fails is ignored), and [is_likely_shopify_store] says yes for the URL
    with its protocol. *)
Theorem validate_shopify_url_sound w url :
  let full := if has_protocol url then url else "https://" +:+ url in
  let result := validate_shopify_url w url in
  length result.2 ≤ 3
  ∧ (result.2 = [] ∨ result.2 = [HEAD full]
     ∨ result.2 = HEAD full :: (is_likely_shopify_store w full).2)
  ∧ (result.1 = true →
       nonempty url = true
       ∧ (∃ host, wire_netloc w full = Some host ∧ nonempty host = true)
       ∧ (∀ response, wire_head w full = Replies response →
            reply_status response ∈ [200; 301; 302; 403]%Z)
       ∧ (is_likely_shopify_store w full).1 = true
       ∧ result.2 = HEAD full :: (is_likely_shopify_store w full).2).
Proof.
  intros full result. unfold result, validate_shopify_url.
  destruct (nonempty url) eqn:Hne; cbn [negb fst snd];
    [|split_and!; [simpl; lia|by left|done]].
  assert ((if negb (has_protocol url) then "https://" +:+ url else url) = full) as ->
    by (unfold full; by destruct (has_protocol url)).
  destruct (wire_netloc w full) as [host|] eqn:Hloc;
    [|split_and!; [simpl; lia|by left|done]].
  destruct (nonempty host) eqn:Hhost; cbn [negb fst snd];
    [|split_and!; [simpl; lia|by left|done]].
  destruct (shopify_store_requests w full) as [Hreqs|Hreqs].
  all: destruct (is_likely_shopify_store w full) as [verdict requests];
    cbn [fst snd] in Hreqs; subst requests.
  all: destruct (wire_head w full) as [|response] eqn:Hhead.
  all: try (destruct (bool_decide (reply_status response ∈ [200; 301; 302; 403]%Z)) eqn:Hst;
            cbn [negb fst snd]).
  all: cbn [fst snd]; split_and!; [simpl; lia|auto|].
  all: try done.
  all: intros ->; split_and!; [done|by exists host| |done..].
  all: try done.
  all: intros ? [= <-]; by apply bool_decide_eq_true in Hst.
Qed.

End ValidatorFacts.

(** ** The analyzer *)

Section AnalyzerFacts.
Import PyStr Helpers Models Web ShopifyScraper DataAnalyzer Fixtures.

Lemma preview_bound n t p : preview n t = Some p → len p ≤ n + 3.
Proof.
  destruct t as [s|]; [|done]. unfold preview.
  destruct (nonempty s && bool_decide (n < len s)) eqn:E; intros [= <-].
  - unfold len. rewrite chars_append, length_app.
    pose proof (len_slice_to n s) as Hs. unfold len in Hs.
    change (length (chars "...")) with 3. lia.
  - apply andb_false_iff in E as [E|E].
    + unfold nonempty in E. apply negb_false_iff, bool_decide_eq_true in E. subst s.
      change (len EmptyString) with 0. lia.
    + apply bool_decide_eq_false in E. lia.
Qed.

(** X20: the response built by [format_insights_for_response] keeps every
    product and hero product of the profile, in order, with at most three
    images per catalog product and two per hero product; a description in
    it has at most 203 characters and a policy preview at most 303 (the
    limit, plus the three dots). *)
Theorem format_insights_bounds insights :
  let r := format_insights_for_response insights in
  map v_id (r_product_catalog r) = map p_id (product_catalog insights)
  ∧ map h_url (r_hero_products r) = map p_url (hero_products insights)
  ∧ Forall (λ v, length (v_images v) ≤ 3
                 ∧ ∀ d, v_description v = Some d → len d ≤ 203)
           (r_product_catalog r)
  ∧ Forall (λ h, length (h_images h) ≤ 2) (r_hero_products r)
  ∧ (∀ c, content_preview (r_privacy_policy r) = Some c → len c ≤ 303)
  ∧ (∀ c, content_preview (r_return_refund_policy r) = Some c → len c ≤ 303).
Proof.
  cbn. split_and!.
  - by rewrite map_map.
  - by rewrite map_map.
  - apply Forall_map, Forall_forall. intros p _. cbn. split.
    + rewrite length_take. lia.
    + intros d Hd. by apply preview_bound in Hd.
  - apply Forall_map, Forall_forall. intros p _. cbn. rewrite length_take. lia.
  - intros c Hc. by apply preview_bound in Hc.
  - intros c Hc. by apply preview_bound in Hc.
Qed.

Lemma size_bounded_by_keys (m : gmap string string) (l : list string) :
  (∀ k, is_Some (m !! k) → k ∈ l) → size m ≤ length l.
Proof.
  intros H. rewrite <- length_map_to_list, <- (length_fmap fst).
  apply submseteq_length, NoDup_submseteq; [apply NoDup_fst_map_to_list|].
  intros k ([k' v] & -> & Hin)%list_elem_of_fmap.
  apply elem_of_map_to_list in Hin. apply H. by exists v.
Qed.

(** X21: the basic metrics of a profile that [scrape_store] returned are
    bounded whatever the site: at most 6 hero products, 10 FAQs, 5 social
    platforms, 8 contact methods (and at least one when contact info is
    present) and 6 important links; and a policy is reported as present
    exactly when its content was stored. *)
Theorem scraped_metrics_bounds env website_url st ins st' :
  scrape_store env website_url st = (inr ins, st') →
  let m := _calculate_basic_metrics ins in
  hero_products_count m ≤ 6
  ∧ faq_count m ≤ 10
  ∧ social_platforms m ≤ 5
  ∧ contact_methods m ≤ 8
  ∧ (contact_info ins ≠ None → 1 ≤ contact_methods m)
  ∧ important_links_count m ≤ 6
  ∧ (has_privacy_policy m = true ↔ is_Some (privacy_policy_content ins))
  ∧ (has_return_policy m = true ↔ is_Some (return_refund_policy_content ins)).
Proof.
  intros H. apply scraped_profile_facts in H.
  destruct H as (_ & _ & Hhero & _ & Hpp & _ & Hrp & Hfaq & _ & _ & Hci & Hlinks & Hsocial).
  cbn. split_and!; [done..| | | | |].
  - destruct (contact_info ins) as [ci|]; [|lia].
    destruct (Hci ci eq_refl) as (? & ? & _). lia.
  - intros Hsome. destruct (contact_info ins) as [ci|]; [|done].
    destruct (Hci ci eq_refl) as (_ & _ & [Hne|Hne]).
    + destruct (emails ci); [done|simpl; lia].
    + destruct (phone_numbers ci); [done|simpl; lia].
  - change 6 with (length (map fst important_keywords)).
    by apply size_bounded_by_keys.
  - rewrite bool_decide_eq_true, <- !not_eq_None_Some. by rewrite Hpp.
  - rewrite bool_decide_eq_true, <- !not_eq_None_Some. by rewrite Hrp.
Qed.

Lemma scraped_metrics_bounds_witness :
  let m := _calculate_basic_metrics (set_brand_name "Shop" (new_insights home)) in
  hero_products_count m ≤ 6
  ∧ faq_count m ≤ 10
  ∧ social_platforms m ≤ 5
  ∧ contact_methods m ≤ 8
  ∧ (contact_info (set_brand_name "Shop" (new_insights home)) ≠ None → 1 ≤ contact_methods m)
  ∧ important_links_count m ≤ 6
  ∧ (has_privacy_policy m = true
     ↔ is_Some (privacy_policy_content (set_brand_name "Shop" (new_insights home))))
  ∧ (has_return_policy m = true
     ↔ is_Some (return_refund_policy_content (set_brand_name "Shop" (new_insights home)))).
Proof.
  apply (scraped_metrics_bounds (home_only empty_page) home (fresh home) _
           (snd (scrape_store (home_only empty_page) home (fresh home)))).
  vm_compute. reflexivity.
Defined.

End AnalyzerFacts.
